(** * Prefect Orion: filter compilation and the scheduler service

    A shallow embedding of
    - [prefect/orion/schemas/filters.py]: the filter models and their
      compilation to SQL boolean clauses, and
    - [prefect/orion/services/scheduler.py]: [Scheduler.run_once], the
      cursor-paginated materialisation of scheduled flow runs,
    followed by the properties proved about them. *)

From Stdlib Require Import String ZArith Bool Lia Arith.
From Stdlib Require Import List Permutation Sorted.
Import ListNotations.

Local Open Scope Z_scope.

(* ===================================================================== *)
(** * SQL boolean clauses *)
(* ===================================================================== *)

(** SQL's three-valued logic.  A [WHERE] clause selects a row only when
    the clause evaluates to TRUE. *)
Inductive sql_bool : Type := SqlTrue | SqlFalse | SqlNull.

Definition of_bool (b : bool) : sql_bool := if b then SqlTrue else SqlFalse.

Definition sql_and (a b : sql_bool) : sql_bool :=
  match a, b with
  | SqlFalse, _ | _, SqlFalse => SqlFalse
  | SqlTrue, SqlTrue => SqlTrue
  | _, _ => SqlNull
  end.

Definition sql_not (a : sql_bool) : sql_bool :=
  match a with
  | SqlTrue => SqlFalse
  | SqlFalse => SqlTrue
  | SqlNull => SqlNull
  end.

Definition is_true (a : sql_bool) : bool :=
  match a with SqlTrue => true | _ => false end.

(** A clause over rows of type [E]: what SQLAlchemy calls a boolean column
    expression, read by its value on a row. *)
Definition clause (E : Type) : Type := E -> sql_bool.

(** The rows a clause selects. *)
Definition selects {E : Type} (c : clause E) (e : E) : bool := is_true (c e).

(** A column of type [V]; [None] is SQL NULL. *)
Definition column (E V : Type) : Type := E -> option V.

Definition not_null {E V : Type} (field : E -> V) : column E V :=
  fun e => Some (field e).

(** Ascending, stable ordering of rows by an integer key: the reading of
    [ORDER BY] used here. *)
Fixpoint insert_by {E : Type} (key : E -> Z) (x : E) (l : list E) : list E :=
  match l with
  | [] => [x]
  | y :: l' => if key x <=? key y then x :: l else y :: insert_by key x l'
  end.

Fixpoint sort_by {E : Type} (key : E -> Z) (l : list E) : list E :=
  match l with
  | [] => []
  | x :: l' => insert_by key x (sort_by key l')
  end.

Module sa.

(** [sa.and_] applied to the unpacked list of clauses. *)
Definition and_ {E : Type} (clauses : list (clause E)) : clause E :=
  fun e => fold_right (fun c acc => sql_and (c e) acc) SqlTrue clauses.

(** [sa.and_(True)]: the constant TRUE clause. *)
Definition and_True {E : Type} : clause E := fun _ => SqlTrue.

(** [sa.not_(clause)] *)
Definition not_ {E : Type} (c : clause E) : clause E :=
  fun e => sql_not (c e).

(** [column.in_(values)]: an empty list renders the empty-set
    expression, which is false on every row. *)
Definition in_ {E V : Type} (eqb : V -> V -> bool)
    (col : column E V) (values : list V) : clause E :=
  fun e =>
    match values with
    | [] => SqlFalse
    | _ =>
        match col e with
        | None => SqlNull
        | Some v => of_bool (existsb (eqb v) values)
        end
    end.

(** [column.not_in(values)] *)
Definition not_in {E V : Type} (eqb : V -> V -> bool)
    (col : column E V) (values : list V) : clause E :=
  fun e =>
    match values with
    | [] => SqlTrue
    | _ =>
        match col e with
        | None => SqlNull
        | Some v => of_bool (negb (existsb (eqb v) values))
        end
    end.

(** [column <= value] *)
Definition le {E : Type} (col : column E Z) (value : Z) : clause E :=
  fun e =>
    match col e with
    | None => SqlNull
    | Some v => of_bool (v <=? value)
    end.

(** [column >= value] *)
Definition ge {E : Type} (col : column E Z) (value : Z) : clause E :=
  fun e =>
    match col e with
    | None => SqlNull
    | Some v => of_bool (v >=? value)
    end.

(** [column > value] *)
Definition gt {E : Type} (col : column E Z) (value : Z) : clause E :=
  fun e =>
    match col e with
    | None => SqlNull
    | Some v => of_bool (v >? value)
    end.

(** [column == None], rendered [IS NULL] *)
Definition eq_None {E V : Type} (col : column E V) : clause E :=
  fun e => match col e with None => SqlTrue | Some _ => SqlFalse end.

(** [column != None], rendered [IS NOT NULL] *)
Definition ne_None {E V : Type} (col : column E V) : clause E :=
  fun e => match col e with None => SqlFalse | Some _ => SqlTrue end.

(** [column.is_(b)] for a boolean [b], rendered [IS true] / [IS false] *)
Definition is_ {E : Type} (col : column E bool) (b : bool) : clause E :=
  fun e =>
    match col e with
    | None => SqlFalse
    | Some v => of_bool (Bool.eqb v b)
    end.

(** [column == []] on a JSON column *)
Definition eq_empty {E V : Type} (col : column E (list V)) : clause E :=
  fun e =>
    match col e with
    | None => SqlNull
    | Some [] => SqlTrue
    | Some (_ :: _) => SqlFalse
    end.

(** [column != []] on a JSON column *)
Definition ne_empty {E V : Type} (col : column E (list V)) : clause E :=
  fun e =>
    match col e with
    | None => SqlNull
    | Some [] => SqlFalse
    | Some (_ :: _) => SqlTrue
    end.

(** [relationship.has(criterion)]: EXISTS over the related row. *)
Definition has {E R : Type} (rel : E -> option R) (criterion : clause R)
    : clause E :=
  fun e =>
    match rel e with
    | None => SqlFalse
    | Some r => of_bool (is_true (criterion r))
    end.

(** [relationship.has()] *)
Definition has_any {E R : Type} (rel : E -> option R) : clause E :=
  has rel and_True.

(** A [SELECT] over one table.  The generative methods may be called in
    any order: the statement always filters by the conjunction of its
    criteria, then orders, then limits. *)
Record Select (E : Type) : Type := {
  whereclause : list (clause E);
  order_by_clause : option (E -> Z);
  limit_clause : option nat
}.
Arguments whereclause {E} _.
Arguments order_by_clause {E} _.
Arguments limit_clause {E} _.

(** [sa.select(entity)] *)
Definition select {E : Type} : Select E :=
  {| whereclause := []; order_by_clause := None; limit_clause := None |}.

(** [query.where(criterion, ...)] *)
Definition where_ {E : Type} (criteria : list (clause E)) (q : Select E)
    : Select E :=
  {| whereclause := whereclause q ++ criteria;
     order_by_clause := order_by_clause q;
     limit_clause := limit_clause q |}.

(** [query.order_by(column)] *)
Definition order_by {E : Type} (key : E -> Z) (q : Select E) : Select E :=
  {| whereclause := whereclause q;
     order_by_clause := Some key;
     limit_clause := limit_clause q |}.

(** [query.limit(n)] *)
Definition limit {E : Type} (n : nat) (q : Select E) : Select E :=
  {| whereclause := whereclause q;
     order_by_clause := order_by_clause q;
     limit_clause := Some n |}.

(** The rows a statement returns from a table. *)
Definition rows {E : Type} (q : Select E) (table : list E) : list E :=
  let selected := filter (selects (and_ (whereclause q))) table in
  let ordered :=
    match order_by_clause q with
    | Some key => sort_by key selected
    | None => selected
    end in
  match limit_clause q with
  | Some n => firstn n ordered
  | None => ordered
  end.

End sa.

(** Modelled from the spec: [json_has_all_keys] of
    [prefect.orion.utilities.database] is not among the sources.  The
    superset operator holds when the entity's value set contains every
    supplied element. *)
Definition json_has_all_keys {E : Type} (col : column E (list string))
    (values : list string) : clause E :=
  fun e =>
    match col e with
    | None => SqlNull
    | Some tags =>
        of_bool (forallb (fun k => existsb (String.eqb k) tags) values)
    end.

(* ===================================================================== *)
(** * Entities *)
(* ===================================================================== *)

(** Identifiers are UUIDs, read as their 128-bit integer value. *)
Definition UUID : Type := Z.

(** Timestamps, as a number of microseconds. *)
Definition datetime : Type := Z.

(** [schemas.states.StateType] is an [AutoEnum]: its members are their
    names as strings. *)
Definition StateType : Type := string.

(** A deployment's recurrence rule is a JSON document that only the
    schedule generator reads. *)
Definition Schedule : Type := string.

(** Modelled from the spec: the ORM classes of [prefect.orion.models.orm]
    are not among the sources.  Each entity carries the columns that the
    filters and the scheduler read; identifier, name and tags are never
    NULL, the other columns may be. *)
Module orm.

Module Flow.
Record t : Type := { id : UUID; name : string; tags : list string }.
End Flow.

Module FlowRunState.
Record t : Type := { name : string }.
End FlowRunState.

Module FlowRun.
Record t : Type := {
  id : UUID;
  name : string;
  tags : list string;
  deployment_id : option UUID;
  state_type : option StateType;
  state : option FlowRunState.t;
  flow_version : option string;
  start_time : option datetime;
  expected_start_time : option datetime;
  next_scheduled_start_time : option datetime;
  parent_task_run_id : option UUID
}.
End FlowRun.

Module TaskRunState.
Record t : Type := { name : string }.
End TaskRunState.

Module TaskRun.
Record t : Type := {
  id : UUID;
  name : string;
  tags : list string;
  state_type : option StateType;
  state : option TaskRunState.t;
  start_time : option datetime;
  subflow_run : option FlowRun.t
}.
End TaskRun.

Module Deployment.
Record t : Type := {
  id : UUID;
  name : string;
  tags : list string;
  schedule : option Schedule;
  is_schedule_active : bool
}.
End Deployment.

End orm.

(* ===================================================================== *)
(** * Filters ([prefect/orion/schemas/filters.py]) *)
(* ===================================================================== *)

(** [PrefectFilterBaseModel]: a filter over rows of [E] provides
    [_get_filter_list]; [as_sql_filter] is inherited. *)
Class PrefectFilterBaseModel (E F : Type) : Type :=
  { _get_filter_list : F -> list (clause E) }.

#[global] Hint Mode PrefectFilterBaseModel - ! : typeclass_instances.

(** Generate SQL filter from provided filter parameters.  If no filter
    parameters are available, return a TRUE filter. *)
Definition as_sql_filter {E F : Type} `{PrefectFilterBaseModel E F}
    (self : F) : clause E :=
  let filters := _get_filter_list self in
  match filters with
  | [] => sa.and_True
  | _ :: _ => sa.and_ filters
  end.

(** [if field is not None: filters.append(mk(field))] *)
Definition append_if_set {A B : Type} (field : option A) (mk : A -> B)
    (filters : list B) : list B :=
  match field with
  | Some v => filters ++ [mk v]
  | None => filters
  end.

(** [if field is not None: filters.extend(mk(field))] *)
Definition extend_if_set {A B : Type} (field : option A) (mk : A -> list B)
    (filters : list B) : list B :=
  match field with
  | Some v => filters ++ mk v
  | None => filters
  end.

(** [column == None if is_null_ else column != None] *)
Definition null_check {E V : Type} (col : column E V) (is_null_ : bool)
    : clause E :=
  if is_null_ then sa.eq_None col else sa.ne_None col.

(** [column == [] if is_null_ else column != []] *)
Definition empty_check {E V : Type} (col : column E (list V))
    (is_null_ : bool) : clause E :=
  if is_null_ then sa.eq_empty col else sa.ne_empty col.

(** ** Flows *)

Module FlowFilterId.
Record t : Type := { any_ : option (list UUID) }.
Definition _get_filter_list (self : t) : list (clause orm.Flow.t) :=
  let filters := [] in
  let filters :=
    append_if_set (any_ self) (sa.in_ Z.eqb (not_null orm.Flow.id)) filters in
  filters.
End FlowFilterId.

#[export] Instance FlowFilterId_model
  : PrefectFilterBaseModel orm.Flow.t FlowFilterId.t :=
  {| _get_filter_list := FlowFilterId._get_filter_list |}.

Module FlowFilterName.
Record t : Type := { any_ : option (list string) }.
Definition _get_filter_list (self : t) : list (clause orm.Flow.t) :=
  let filters := [] in
  let filters :=
    append_if_set (any_ self)
      (sa.in_ String.eqb (not_null orm.Flow.name)) filters in
  filters.
End FlowFilterName.

#[export] Instance FlowFilterName_model
  : PrefectFilterBaseModel orm.Flow.t FlowFilterName.t :=
  {| _get_filter_list := FlowFilterName._get_filter_list |}.

Module FlowFilterTags.
Record t : Type := { all_ : option (list string); is_null_ : option bool }.
Definition _get_filter_list (self : t) : list (clause orm.Flow.t) :=
  let filters := [] in
  let filters :=
    append_if_set (all_ self)
      (json_has_all_keys (not_null orm.Flow.tags)) filters in
  let filters :=
    append_if_set (is_null_ self)
      (empty_check (not_null orm.Flow.tags)) filters in
  filters.
End FlowFilterTags.

#[export] Instance FlowFilterTags_model
  : PrefectFilterBaseModel orm.Flow.t FlowFilterTags.t :=
  {| _get_filter_list := FlowFilterTags._get_filter_list |}.

(** Filter for flows.  Only flows matching all criteria will be
    returned. *)
Module FlowFilter.
Record t : Type := {
  id : option FlowFilterId.t;
  name : option FlowFilterName.t;
  tags : option FlowFilterTags.t
}.
Definition _get_filter_list (self : t) : list (clause orm.Flow.t) :=
  let filters := [] in
  let filters := append_if_set (id self) as_sql_filter filters in
  let filters := append_if_set (name self) as_sql_filter filters in
  let filters := append_if_set (tags self) as_sql_filter filters in
  filters.
End FlowFilter.

#[export] Instance FlowFilter_model
  : PrefectFilterBaseModel orm.Flow.t FlowFilter.t :=
  {| _get_filter_list := FlowFilter._get_filter_list |}.

(** ** Flow runs *)

Module FlowRunFilterId.
Record t : Type := {
  any_ : option (list UUID);
  not_any_ : option (list UUID)
}.
Definition _get_filter_list (self : t) : list (clause orm.FlowRun.t) :=
  let filters := [] in
  let filters :=
    append_if_set (any_ self)
      (sa.in_ Z.eqb (not_null orm.FlowRun.id)) filters in
  let filters :=
    append_if_set (not_any_ self)
      (sa.not_in Z.eqb (not_null orm.FlowRun.id)) filters in
  filters.
End FlowRunFilterId.

#[export] Instance FlowRunFilterId_model
  : PrefectFilterBaseModel orm.FlowRun.t FlowRunFilterId.t :=
  {| _get_filter_list := FlowRunFilterId._get_filter_list |}.

Module FlowRunFilterName.
Record t : Type := { any_ : option (list string) }.
Definition _get_filter_list (self : t) : list (clause orm.FlowRun.t) :=
  let filters := [] in
  let filters :=
    append_if_set (any_ self)
      (sa.in_ String.eqb (not_null orm.FlowRun.name)) filters in
  filters.
End FlowRunFilterName.

#[export] Instance FlowRunFilterName_model
  : PrefectFilterBaseModel orm.FlowRun.t FlowRunFilterName.t :=
  {| _get_filter_list := FlowRunFilterName._get_filter_list |}.

Module FlowRunFilterTags.
Record t : Type := { all_ : option (list string); is_null_ : option bool }.
Definition _get_filter_list (self : t) : list (clause orm.FlowRun.t) :=
  let filters := [] in
  let filters :=
    append_if_set (all_ self)
      (json_has_all_keys (not_null orm.FlowRun.tags)) filters in
  let filters :=
    append_if_set (is_null_ self)
      (empty_check (not_null orm.FlowRun.tags)) filters in
  filters.
End FlowRunFilterTags.

#[export] Instance FlowRunFilterTags_model
  : PrefectFilterBaseModel orm.FlowRun.t FlowRunFilterTags.t :=
  {| _get_filter_list := FlowRunFilterTags._get_filter_list |}.

Module FlowRunFilterDeploymentId.
Record t : Type := { any_ : option (list UUID); is_null_ : option bool }.
Definition _get_filter_list (self : t) : list (clause orm.FlowRun.t) :=
  let filters := [] in
  let filters :=
    append_if_set (any_ self)
      (sa.in_ Z.eqb orm.FlowRun.deployment_id) filters in
  let filters :=
    append_if_set (is_null_ self)
      (null_check orm.FlowRun.deployment_id) filters in
  filters.
End FlowRunFilterDeploymentId.

#[export] Instance FlowRunFilterDeploymentId_model
  : PrefectFilterBaseModel orm.FlowRun.t FlowRunFilterDeploymentId.t :=
  {| _get_filter_list := FlowRunFilterDeploymentId._get_filter_list |}.

Module FlowRunFilterStateType.
Record t : Type := { any_ : option (list StateType) }.
Definition _get_filter_list (self : t) : list (clause orm.FlowRun.t) :=
  let filters := [] in
  let filters :=
    append_if_set (any_ self)
      (sa.in_ String.eqb orm.FlowRun.state_type) filters in
  filters.
End FlowRunFilterStateType.

#[export] Instance FlowRunFilterStateType_model
  : PrefectFilterBaseModel orm.FlowRun.t FlowRunFilterStateType.t :=
  {| _get_filter_list := FlowRunFilterStateType._get_filter_list |}.

Module FlowRunFilterStateName.
Record t : Type := { any_ : option (list string) }.
Definition _get_filter_list (self : t) : list (clause orm.FlowRun.t) :=
  let filters := [] in
  let filters :=
    append_if_set (any_ self)
      (fun any_ =>
         sa.has orm.FlowRun.state
           (sa.in_ String.eqb (not_null orm.FlowRunState.name) any_))
      filters in
  filters.
End FlowRunFilterStateName.

#[export] Instance FlowRunFilterStateName_model
  : PrefectFilterBaseModel orm.FlowRun.t FlowRunFilterStateName.t :=
  {| _get_filter_list := FlowRunFilterStateName._get_filter_list |}.

Module FlowRunFilterState.
Record t : Type := {
  type : option FlowRunFilterStateType.t;
  name : option FlowRunFilterStateName.t
}.
Definition _get_filter_list (self : t) : list (clause orm.FlowRun.t) :=
  let filters := [] in
  let filters :=
    extend_if_set (type self) FlowRunFilterStateType._get_filter_list
      filters in
  let filters :=
    extend_if_set (name self) FlowRunFilterStateName._get_filter_list
      filters in
  filters.
End FlowRunFilterState.

#[export] Instance FlowRunFilterState_model
  : PrefectFilterBaseModel orm.FlowRun.t FlowRunFilterState.t :=
  {| _get_filter_list := FlowRunFilterState._get_filter_list |}.

Module FlowRunFilterFlowVersion.
Record t : Type := { any_ : option (list string) }.
Definition _get_filter_list (self : t) : list (clause orm.FlowRun.t) :=
  let filters := [] in
  let filters :=
    append_if_set (any_ self)
      (sa.in_ String.eqb orm.FlowRun.flow_version) filters in
  filters.
End FlowRunFilterFlowVersion.

#[export] Instance FlowRunFilterFlowVersion_model
  : PrefectFilterBaseModel orm.FlowRun.t FlowRunFilterFlowVersion.t :=
  {| _get_filter_list := FlowRunFilterFlowVersion._get_filter_list |}.

Module FlowRunFilterStartTime.
Record t : Type := {
  before_ : option datetime;
  after_ : option datetime;
  is_null_ : option bool
}.
Definition _get_filter_list (self : t) : list (clause orm.FlowRun.t) :=
  let filters := [] in
  let filters :=
    append_if_set (before_ self) (sa.le orm.FlowRun.start_time) filters in
  let filters :=
    append_if_set (after_ self) (sa.ge orm.FlowRun.start_time) filters in
  let filters :=
    append_if_set (is_null_ self)
      (null_check orm.FlowRun.start_time) filters in
  filters.
End FlowRunFilterStartTime.

#[export] Instance FlowRunFilterStartTime_model
  : PrefectFilterBaseModel orm.FlowRun.t FlowRunFilterStartTime.t :=
  {| _get_filter_list := FlowRunFilterStartTime._get_filter_list |}.

Module FlowRunFilterExpectedStartTime.
Record t : Type := { before_ : option datetime; after_ : option datetime }.
Definition _get_filter_list (self : t) : list (clause orm.FlowRun.t) :=
  let filters := [] in
  let filters :=
    append_if_set (before_ self)
      (sa.le orm.FlowRun.expected_start_time) filters in
  let filters :=
    append_if_set (after_ self)
      (sa.ge orm.FlowRun.expected_start_time) filters in
  filters.
End FlowRunFilterExpectedStartTime.

#[export] Instance FlowRunFilterExpectedStartTime_model
  : PrefectFilterBaseModel orm.FlowRun.t FlowRunFilterExpectedStartTime.t :=
  {| _get_filter_list := FlowRunFilterExpectedStartTime._get_filter_list |}.

Module FlowRunFilterNextScheduledStartTime.
Record t : Type := { before_ : option datetime; after_ : option datetime }.
Definition _get_filter_list (self : t) : list (clause orm.FlowRun.t) :=
  let filters := [] in
  let filters :=
    append_if_set (before_ self)
      (sa.le orm.FlowRun.next_scheduled_start_time) filters in
  let filters :=
    append_if_set (after_ self)
      (sa.ge orm.FlowRun.next_scheduled_start_time) filters in
  filters.
End FlowRunFilterNextScheduledStartTime.

#[export] Instance FlowRunFilterNextScheduledStartTime_model
  : PrefectFilterBaseModel orm.FlowRun.t
      FlowRunFilterNextScheduledStartTime.t :=
  {| _get_filter_list :=
       FlowRunFilterNextScheduledStartTime._get_filter_list |}.

Module FlowRunFilterParentTaskRunId.
Record t : Type := { any_ : option (list UUID); is_null_ : option bool }.
Definition _get_filter_list (self : t) : list (clause orm.FlowRun.t) :=
  let filters := [] in
  let filters :=
    append_if_set (any_ self)
      (sa.in_ Z.eqb orm.FlowRun.parent_task_run_id) filters in
  let filters :=
    append_if_set (is_null_ self)
      (null_check orm.FlowRun.parent_task_run_id) filters in
  filters.
End FlowRunFilterParentTaskRunId.

#[export] Instance FlowRunFilterParentTaskRunId_model
  : PrefectFilterBaseModel orm.FlowRun.t FlowRunFilterParentTaskRunId.t :=
  {| _get_filter_list := FlowRunFilterParentTaskRunId._get_filter_list |}.

(** Filter flow runs.  Only flow runs matching all criteria will be
    returned.  The slots are visited in the order of the source, which
    places [flow_version] before [state]. *)
Module FlowRunFilter.
Record t : Type := {
  id : option FlowRunFilterId.t;
  name : option FlowRunFilterName.t;
  tags : option FlowRunFilterTags.t;
  deployment_id : option FlowRunFilterDeploymentId.t;
  state : option FlowRunFilterState.t;
  flow_version : option FlowRunFilterFlowVersion.t;
  start_time : option FlowRunFilterStartTime.t;
  expected_start_time : option FlowRunFilterExpectedStartTime.t;
  next_scheduled_start_time : option FlowRunFilterNextScheduledStartTime.t;
  parent_task_run_id : option FlowRunFilterParentTaskRunId.t
}.
Definition _get_filter_list (self : t) : list (clause orm.FlowRun.t) :=
  let filters := [] in
  let filters := append_if_set (id self) as_sql_filter filters in
  let filters := append_if_set (name self) as_sql_filter filters in
  let filters := append_if_set (tags self) as_sql_filter filters in
  let filters := append_if_set (deployment_id self) as_sql_filter filters in
  let filters := append_if_set (flow_version self) as_sql_filter filters in
  let filters := append_if_set (state self) as_sql_filter filters in
  let filters := append_if_set (start_time self) as_sql_filter filters in
  let filters :=
    append_if_set (expected_start_time self) as_sql_filter filters in
  let filters :=
    append_if_set (next_scheduled_start_time self) as_sql_filter filters in
  let filters :=
    append_if_set (parent_task_run_id self) as_sql_filter filters in
  filters.
End FlowRunFilter.

#[export] Instance FlowRunFilter_model
  : PrefectFilterBaseModel orm.FlowRun.t FlowRunFilter.t :=
  {| _get_filter_list := FlowRunFilter._get_filter_list |}.

(** ** Task runs *)

Module TaskRunFilterId.
Record t : Type := { any_ : option (list UUID) }.
Definition _get_filter_list (self : t) : list (clause orm.TaskRun.t) :=
  let filters := [] in
  let filters :=
    append_if_set (any_ self)
      (sa.in_ Z.eqb (not_null orm.TaskRun.id)) filters in
  filters.
End TaskRunFilterId.

#[export] Instance TaskRunFilterId_model
  : PrefectFilterBaseModel orm.TaskRun.t TaskRunFilterId.t :=
  {| _get_filter_list := TaskRunFilterId._get_filter_list |}.

Module TaskRunFilterName.
Record t : Type := { any_ : option (list string) }.
Definition _get_filter_list (self : t) : list (clause orm.TaskRun.t) :=
  let filters := [] in
  let filters :=
    append_if_set (any_ self)
      (sa.in_ String.eqb (not_null orm.TaskRun.name)) filters in
  filters.
End TaskRunFilterName.

#[export] Instance TaskRunFilterName_model
  : PrefectFilterBaseModel orm.TaskRun.t TaskRunFilterName.t :=
  {| _get_filter_list := TaskRunFilterName._get_filter_list |}.

Module TaskRunFilterTags.
Record t : Type := { all_ : option (list string); is_null_ : option bool }.
Definition _get_filter_list (self : t) : list (clause orm.TaskRun.t) :=
  let filters := [] in
  let filters :=
    append_if_set (all_ self)
      (json_has_all_keys (not_null orm.TaskRun.tags)) filters in
  let filters :=
    append_if_set (is_null_ self)
      (empty_check (not_null orm.TaskRun.tags)) filters in
  filters.
End TaskRunFilterTags.

#[export] Instance TaskRunFilterTags_model
  : PrefectFilterBaseModel orm.TaskRun.t TaskRunFilterTags.t :=
  {| _get_filter_list := TaskRunFilterTags._get_filter_list |}.

Module TaskRunFilterStateType.
Record t : Type := { any_ : option (list StateType) }.
Definition _get_filter_list (self : t) : list (clause orm.TaskRun.t) :=
  let filters := [] in
  let filters :=
    append_if_set (any_ self)
      (sa.in_ String.eqb orm.TaskRun.state_type) filters in
  filters.
End TaskRunFilterStateType.

#[export] Instance TaskRunFilterStateType_model
  : PrefectFilterBaseModel orm.TaskRun.t TaskRunFilterStateType.t :=
  {| _get_filter_list := TaskRunFilterStateType._get_filter_list |}.

Module TaskRunFilterStateName.
Record t : Type := { any_ : option (list string) }.
Definition _get_filter_list (self : t) : list (clause orm.TaskRun.t) :=
  let filters := [] in
  let filters :=
    append_if_set (any_ self)
      (fun any_ =>
         sa.has orm.TaskRun.state
           (sa.in_ String.eqb (not_null orm.TaskRunState.name) any_))
      filters in
  filters.
End TaskRunFilterStateName.

#[export] Instance TaskRunFilterStateName_model
  : PrefectFilterBaseModel orm.TaskRun.t TaskRunFilterStateName.t :=
  {| _get_filter_list := TaskRunFilterStateName._get_filter_list |}.

Module TaskRunFilterState.
Record t : Type := {
  type : option TaskRunFilterStateType.t;
  name : option TaskRunFilterStateName.t
}.
Definition _get_filter_list (self : t) : list (clause orm.TaskRun.t) :=
  let filters := [] in
  let filters :=
    extend_if_set (type self) TaskRunFilterStateType._get_filter_list
      filters in
  let filters :=
    extend_if_set (name self) TaskRunFilterStateName._get_filter_list
      filters in
  filters.
End TaskRunFilterState.

#[export] Instance TaskRunFilterState_model
  : PrefectFilterBaseModel orm.TaskRun.t TaskRunFilterState.t :=
  {| _get_filter_list := TaskRunFilterState._get_filter_list |}.

Module TaskRunFilterSubFlowRuns.
Record t : Type := { exists_ : option bool }.
Definition _get_filter_list (self : t) : list (clause orm.TaskRun.t) :=
  let filters := [] in
  let filters :=
    match exists_ self with
    | Some true => filters ++ [sa.has_any orm.TaskRun.subflow_run]
    | Some false =>
        filters ++ [sa.not_ (sa.has_any orm.TaskRun.subflow_run)]
    | None => filters
    end in
  filters.
End TaskRunFilterSubFlowRuns.

#[export] Instance TaskRunFilterSubFlowRuns_model
  : PrefectFilterBaseModel orm.TaskRun.t TaskRunFilterSubFlowRuns.t :=
  {| _get_filter_list := TaskRunFilterSubFlowRuns._get_filter_list |}.

Module TaskRunFilterStartTime.
Record t : Type := {
  before_ : option datetime;
  after_ : option datetime;
  is_null_ : option bool
}.
Definition _get_filter_list (self : t) : list (clause orm.TaskRun.t) :=
  let filters := [] in
  let filters :=
    append_if_set (before_ self) (sa.le orm.TaskRun.start_time) filters in
  let filters :=
    append_if_set (after_ self) (sa.ge orm.TaskRun.start_time) filters in
  let filters :=
    append_if_set (is_null_ self)
      (null_check orm.TaskRun.start_time) filters in
  filters.
End TaskRunFilterStartTime.

#[export] Instance TaskRunFilterStartTime_model
  : PrefectFilterBaseModel orm.TaskRun.t TaskRunFilterStartTime.t :=
  {| _get_filter_list := TaskRunFilterStartTime._get_filter_list |}.

(** Filter task runs.  Only task runs matching all criteria will be
    returned. *)
Module TaskRunFilter.
Record t : Type := {
  id : option TaskRunFilterId.t;
  name : option TaskRunFilterName.t;
  tags : option TaskRunFilterTags.t;
  state : option TaskRunFilterState.t;
  start_time : option TaskRunFilterStartTime.t;
  subflow_runs : option TaskRunFilterSubFlowRuns.t
}.
Definition _get_filter_list (self : t) : list (clause orm.TaskRun.t) :=
  let filters := [] in
  let filters := append_if_set (id self) as_sql_filter filters in
  let filters := append_if_set (name self) as_sql_filter filters in
  let filters := append_if_set (tags self) as_sql_filter filters in
  let filters := append_if_set (state self) as_sql_filter filters in
  let filters := append_if_set (start_time self) as_sql_filter filters in
  let filters := append_if_set (subflow_runs self) as_sql_filter filters in
  filters.
End TaskRunFilter.

#[export] Instance TaskRunFilter_model
  : PrefectFilterBaseModel orm.TaskRun.t TaskRunFilter.t :=
  {| _get_filter_list := TaskRunFilter._get_filter_list |}.

(** ** Deployments *)

Module DeploymentFilterId.
Record t : Type := { any_ : option (list UUID) }.
Definition _get_filter_list (self : t) : list (clause orm.Deployment.t) :=
  let filters := [] in
  let filters :=
    append_if_set (any_ self)
      (sa.in_ Z.eqb (not_null orm.Deployment.id)) filters in
  filters.
End DeploymentFilterId.

#[export] Instance DeploymentFilterId_model
  : PrefectFilterBaseModel orm.Deployment.t DeploymentFilterId.t :=
  {| _get_filter_list := DeploymentFilterId._get_filter_list |}.

Module DeploymentFilterName.
Record t : Type := { any_ : option (list string) }.
Definition _get_filter_list (self : t) : list (clause orm.Deployment.t) :=
  let filters := [] in
  let filters :=
    append_if_set (any_ self)
      (sa.in_ String.eqb (not_null orm.Deployment.name)) filters in
  filters.
End DeploymentFilterName.

#[export] Instance DeploymentFilterName_model
  : PrefectFilterBaseModel orm.Deployment.t DeploymentFilterName.t :=
  {| _get_filter_list := DeploymentFilterName._get_filter_list |}.

Module DeploymentFilterIsScheduleActive.
Record t : Type := { eq_ : option bool }.
Definition _get_filter_list (self : t) : list (clause orm.Deployment.t) :=
  let filters := [] in
  let filters :=
    append_if_set (eq_ self)
      (sa.is_ (not_null orm.Deployment.is_schedule_active)) filters in
  filters.
End DeploymentFilterIsScheduleActive.

#[export] Instance DeploymentFilterIsScheduleActive_model
  : PrefectFilterBaseModel orm.Deployment.t
      DeploymentFilterIsScheduleActive.t :=
  {| _get_filter_list := DeploymentFilterIsScheduleActive._get_filter_list |}.

Module DeploymentFilterTags.
Record t : Type := { all_ : option (list string); is_null_ : option bool }.
Definition _get_filter_list (self : t) : list (clause orm.Deployment.t) :=
  let filters := [] in
  let filters :=
    append_if_set (all_ self)
      (json_has_all_keys (not_null orm.Deployment.tags)) filters in
  let filters :=
    append_if_set (is_null_ self)
      (empty_check (not_null orm.Deployment.tags)) filters in
  filters.
End DeploymentFilterTags.

#[export] Instance DeploymentFilterTags_model
  : PrefectFilterBaseModel orm.Deployment.t DeploymentFilterTags.t :=
  {| _get_filter_list := DeploymentFilterTags._get_filter_list |}.

(** Filter for deployments.  Only deployments matching all criteria will
    be returned. *)
Module DeploymentFilter.
Record t : Type := {
  id : option DeploymentFilterId.t;
  name : option DeploymentFilterName.t;
  is_schedule_active : option DeploymentFilterIsScheduleActive.t;
  tags : option DeploymentFilterTags.t
}.
Definition _get_filter_list (self : t) : list (clause orm.Deployment.t) :=
  let filters := [] in
  let filters := append_if_set (id self) as_sql_filter filters in
  let filters := append_if_set (name self) as_sql_filter filters in
  let filters :=
    append_if_set (is_schedule_active self) as_sql_filter filters in
  let filters := append_if_set (tags self) as_sql_filter filters in
  filters.
End DeploymentFilter.

#[export] Instance DeploymentFilter_model
  : PrefectFilterBaseModel orm.Deployment.t DeploymentFilter.t :=
  {| _get_filter_list := DeploymentFilter._get_filter_list |}.

(** ** Filter criteria *)

(** Filter criteria for common objects in the system.  Each field
    defaults to the filter built with no argument. *)
Module BaseFilterCriteria.
Record t : Type := {
  flow_filter : FlowFilter.t;
  flow_run_filter : FlowRunFilter.t;
  task_run_filter : TaskRunFilter.t;
  deployment_filter : DeploymentFilter.t
}.
Definition default : t :=
  {| flow_filter := FlowFilter.Build_t None None None;
     flow_run_filter :=
       FlowRunFilter.Build_t None None None None None None None None None
         None;
     task_run_filter := TaskRunFilter.Build_t None None None None None None;
     deployment_filter := DeploymentFilter.Build_t None None None None |}.
End BaseFilterCriteria.

(* ===================================================================== *)
(** * The scheduler service ([prefect/orion/services/scheduler.py]) *)
(* ===================================================================== *)

Local Open Scope nat_scope.

(** Exceptions: the [IndexError] of an out-of-range subscript, and
    whatever a collaborator raises. *)
Inductive exception : Type :=
| IndexError
| Exception (message : string).

(** What a call to a collaborator gives back. *)
Inductive result (A : Type) : Type :=
| Ok (value : A)
| Raise (e : exception).
Arguments Ok {A} _.
Arguments Raise {A} _.

(** Modelled from the spec: [batched_iterable] of
    [prefect.utilities.collections] is not among the sources.  It splits
    the candidates, in order, into chunks of at most [size]: each chunk is
    the next [size] items, and the iteration stops at the first empty
    chunk. *)
Fixpoint batched_from {A : Type} (fuel size : nat) (l : list A)
    : list (list A) :=
  match fuel with
  | O => []
  | S fuel' =>
      match firstn size l with
      | [] => []
      | batch => batch :: batched_from fuel' size (skipn size l)
      end
  end.

Definition batched_iterable {A : Type} (iterable : list A) (size : nat)
    : list (list A) :=
  batched_from (length iterable) size iterable.

(** [Result.unique()]: rows are ORM objects, equal when their primary
    keys are; later duplicates are dropped. *)
Fixpoint unique_from (seen : list UUID) (l : list orm.Deployment.t)
    : list orm.Deployment.t :=
  match l with
  | [] => []
  | d :: l' =>
      if existsb (Z.eqb (orm.Deployment.id d)) seen
      then unique_from seen l'
      else d :: unique_from (orm.Deployment.id d :: seen) l'
  end.

Definition unique (l : list orm.Deployment.t) : list orm.Deployment.t :=
  unique_from [] l.

(** [l[-1]]: the last item, or nothing where Python raises
    [IndexError]. *)
Fixpoint last_item {A : Type} (l : list A) : option A :=
  match l with
  | [] => None
  | [x] => Some x
  | _ :: l' => last_item l'
  end.

Module Scheduler.

(** The service's settings.  [loop_seconds] belongs to the host loop and
    is not read by [run_once]. *)
Record t : Type := {
  deployment_batch_size : nat;
  max_runs : Z;
  max_scheduled_time : Z
}.

Section Service.

(** The run specifications handed from the generator to the insert. *)
Variable Run : Type.

(** The truth value Python gives an identifier in [if last_id:]. *)
Variable truthy : UUID -> bool.

Record Database : Type := {
  deployments : list orm.Deployment.t;
  flow_runs : list Run
}.

(** [models.deployments._generate_scheduled_flow_runs(session,
    deployment_id, start_time, end_time, max_runs)] *)
Variable _generate_scheduled_flow_runs :
  Database -> UUID -> datetime -> datetime -> Z -> result (list Run).

(** [models.deployments._insert_scheduled_flow_runs(session, runs)]:
    from the run table and the offered runs, the runs inserted and the
    run table afterwards. *)
Variable _insert_scheduled_flow_runs :
  list Run -> list Run -> result (list Run * list Run).

(** [settings.scheduler_insert_batch_size] *)
Variable scheduler_insert_batch_size : nat.

(** What one invocation does that is visible from outside. *)
Inductive event : Type :=
| Execute (last_id : option UUID) (page : list orm.Deployment.t)
| Generate (deployment_id : UUID) (start_time end_time : datetime)
    (max_runs : Z) (runs : result (list Run))
| Insert (batch : list Run) (inserted : result (list Run))
| Flush
| LogInfo (total_inserted_runs : nat).

(** The committed database, the session's view of it inside the open
    transaction, and the events so far. *)
Record World : Type := {
  committed : Database;
  session : Database;
  trace : list event
}.

Inductive outcome (A : Type) : Type :=
| Returned (value : A)
| Raised (e : exception)
| Running.
Arguments Returned {A} _.
Arguments Raised {A} _.
Arguments Running {A}.

(** Computations of the service: they read and write the world, and
    return, raise, or are still running when the fuel is spent. *)
Definition M (A : Type) : Type := World -> outcome A * World.

Definition ret {A : Type} (a : A) : M A := fun w => (Returned a, w).

Definition bind {A B : Type} (c : M A) (k : A -> M B) : M B :=
  fun w =>
    match c w with
    | (Returned a, w') => k a w'
    | (Raised e, w') => (Raised e, w')
    | (Running, w') => (Running, w')
    end.

Definition raise {A : Type} (e : exception) : M A := fun w => (Raised e, w).

Definition running {A : Type} : M A := fun w => (Running, w).

Notation "x <- c ;; k" := (bind c (fun x => k))
  (at level 61, c at next level, right associativity).

Definition emit (ev : event) (w : World) : World :=
  {| committed := committed w;
     session := session w;
     trace := trace w ++ [ev] |}.

(** [await session.execute(query)] then [.scalars().unique().all()] *)
Definition execute (last_id : option UUID) (query : sa.Select orm.Deployment.t)
    : M (list orm.Deployment.t) :=
  fun w =>
    let page := unique (sa.rows query (deployments (session w))) in
    (Returned page, emit (Execute last_id page) w).

Definition generate (deployment_id : UUID) (start_time end_time : datetime)
    (max_runs : Z) : M (list Run) :=
  fun w =>
    let r :=
      _generate_scheduled_flow_runs (session w) deployment_id start_time
        end_time max_runs in
    let w' := emit (Generate deployment_id start_time end_time max_runs r) w in
    match r with
    | Ok runs => (Returned runs, w')
    | Raise e => (Raised e, w')
    end.

Definition insert (batch : list Run) : M (list Run) :=
  fun w =>
    match _insert_scheduled_flow_runs (flow_runs (session w)) batch with
    | Ok (inserted, table) =>
        (Returned inserted,
         emit (Insert batch (Ok inserted))
           {| committed := committed w;
              session := {| deployments := deployments (session w);
                            flow_runs := table |};
              trace := trace w |})
    | Raise e => (Raised e, emit (Insert batch (Raise e)) w)
    end.

(** [await session.flush()] *)
Definition flush : M unit := fun w => (Returned tt, emit Flush w).

Definition logger_info (total_inserted_runs : nat) : M unit :=
  fun w => (Returned tt, emit (LogInfo total_inserted_runs) w).

(** [async with self.session_factory() as session:] then
    [async with session.begin():] -- the body runs on the session's view;
    leaving it normally commits, leaving it by an exception rolls back
    and lets the exception through. *)
Definition session_begin {A : Type} (body : M A) : M A :=
  fun w =>
    let w0 :=
      {| committed := committed w;
         session := committed w;
         trace := trace w |} in
    match body w0 with
    | (Returned a, w') =>
        (Returned a,
         {| committed := session w';
            session := session w';
            trace := trace w' |})
    | (o, w') =>
        (o,
         {| committed := committed w';
            session := committed w';
            trace := trace w' |})
    end.

(** [for deployment in deployments: ... all_runs.extend(runs)] *)
Fixpoint collect_runs (self : t) (now : datetime)
    (page : list orm.Deployment.t) (all_runs : list Run) : M (list Run) :=
  match page with
  | [] => ret all_runs
  | deployment :: page' =>
      runs <- generate (orm.Deployment.id deployment) now
                (now + max_scheduled_time self)%Z (max_runs self) ;;
      collect_runs self now page' (all_runs ++ runs)
  end.

(** [for batch in batched_iterable(...): ...] *)
Fixpoint insert_batches (batches : list (list Run))
    (total_inserted_runs : nat) : M nat :=
  match batches with
  | [] => ret total_inserted_runs
  | batch :: batches' =>
      inserted_runs <- insert batch ;;
      _ <- flush ;;
      insert_batches batches' (total_inserted_runs + length inserted_runs)
  end.

(** The statement of one page. *)
Definition page_query (self : t) (last_id : option UUID)
    : sa.Select orm.Deployment.t :=
  let query :=
    sa.limit (deployment_batch_size self)
      (sa.order_by orm.Deployment.id
         (sa.where_
            [sa.is_ (not_null orm.Deployment.is_schedule_active) true;
             sa.ne_None orm.Deployment.schedule]
            sa.select)) in
  (* use cursor based pagination *)
  match last_id with
  | Some id =>
      if truthy id
      then sa.where_ [sa.gt (not_null orm.Deployment.id) id] query
      else query
  | None => query
  end.

(** The body of [while True:], with the fuel that bounds the number of
    pages. *)
Fixpoint while_true (fuel : nat) (self : t) (now : datetime)
    (last_id : option UUID) (total_inserted_runs : nat) : M nat :=
  match fuel with
  | O => running
  | S fuel' =>
      page <- execute last_id (page_query self last_id) ;;
      (* collect runs across all deployments *)
      all_runs <- collect_runs self now page [] ;;
      (* bulk insert the runs based on batch size setting *)
      total_inserted_runs <-
        insert_batches (batched_iterable all_runs scheduler_insert_batch_size)
          total_inserted_runs ;;
      (* if no deployments were found, exit the loop *)
      if length page <? deployment_batch_size self
      then ret total_inserted_runs
      else
        (* record the last deployment ID *)
        match last_item page with
        | Some deployment =>
            while_true fuel' self now (Some (orm.Deployment.id deployment))
              total_inserted_runs
        | None => raise IndexError
        end
  end.

Definition run_once (self : t) (fuel : nat) (now : datetime) : M unit :=
  let total_inserted_runs := 0 in
  total_inserted_runs <-
    session_begin (while_true fuel self now None total_inserted_runs) ;;
  logger_info total_inserted_runs.

(** One invocation on a committed database, [now] being the instant
    captured on entry. *)
Definition invoke (self : t) (fuel : nat) (now : datetime) (db : Database)
    : outcome unit * World :=
  run_once self fuel now {| committed := db; session := db; trace := [] |}.

End Service.

Arguments deployments {Run} _.
Arguments flow_runs {Run} _.
Arguments Execute {Run} _ _.
Arguments Generate {Run} _ _ _ _ _.
Arguments Insert {Run} _ _.
Arguments Flush {Run}.
Arguments LogInfo {Run} _.
Arguments committed {Run} _.
Arguments session {Run} _.
Arguments trace {Run} _.
Arguments Returned {A} _.
Arguments Raised {A} _.
Arguments Running {A}.

End Scheduler.

(* ===================================================================== *)
(** * Vocabulary of the properties *)
(* ===================================================================== *)

(** A clause that selects every row, and one that selects none. *)
Definition selects_all {E : Type} (c : clause E) : Prop :=
  forall e, selects c e = true.

Definition selects_none {E : Type} (c : clause E) : Prop :=
  forall e, selects c e = false.

(** A column's value lies in the closed interval [[lo, hi]]. *)
Definition in_closed_interval (lo hi : datetime) (v : option datetime)
    : Prop :=
  exists t, v = Some t /\ (lo <= t <= hi)%Z.

(** What a tag leaf built by [mk all_ is_null_] selects, [tags] being the
    tag column it reads: the null check alone, and the null check
    together with the superset operator. *)
Definition tag_leaf_contract {E F : Type} `{PrefectFilterBaseModel E F}
    (mk : option (list string) -> option bool -> F)
    (tags : E -> list string) : Prop :=
  forall e : E,
    (selects (as_sql_filter (mk None (Some true))) e = true <->
     tags e = []) /\
    (selects (as_sql_filter (mk None (Some false))) e = true <->
     tags e <> []) /\
    (forall all_,
       selects (as_sql_filter (mk (Some all_) (Some false))) e =
       selects (as_sql_filter (mk (Some all_) None)) e &&
       selects (as_sql_filter (mk None (Some false))) e) /\
    (forall all_,
       selects (as_sql_filter (mk (Some all_) (Some false))) e = true <->
       incl all_ (tags e) /\ tags e <> []).

(** The compiled clause of a child slot, when the slot is present. *)
Definition compiled {E F : Type} `{PrefectFilterBaseModel E F}
    (child : option F) : list (clause E) :=
  match child with
  | Some f => [as_sql_filter f]
  | None => []
  end.

(** The compiled clauses of the present child slots of each composite
    filter, in the order in which the class declares its slots. *)
Definition FlowFilter_children (f : FlowFilter.t)
    : list (clause orm.Flow.t) :=
  compiled (FlowFilter.id f) ++ compiled (FlowFilter.name f) ++
  compiled (FlowFilter.tags f).

Definition FlowRunFilterState_children (f : FlowRunFilterState.t)
    : list (clause orm.FlowRun.t) :=
  compiled (FlowRunFilterState.type f) ++
  compiled (FlowRunFilterState.name f).

Definition FlowRunFilter_children (f : FlowRunFilter.t)
    : list (clause orm.FlowRun.t) :=
  compiled (FlowRunFilter.id f) ++ compiled (FlowRunFilter.name f) ++
  compiled (FlowRunFilter.tags f) ++
  compiled (FlowRunFilter.deployment_id f) ++
  compiled (FlowRunFilter.state f) ++
  compiled (FlowRunFilter.flow_version f) ++
  compiled (FlowRunFilter.start_time f) ++
  compiled (FlowRunFilter.expected_start_time f) ++
  compiled (FlowRunFilter.next_scheduled_start_time f) ++
  compiled (FlowRunFilter.parent_task_run_id f).

Definition TaskRunFilterState_children (f : TaskRunFilterState.t)
    : list (clause orm.TaskRun.t) :=
  compiled (TaskRunFilterState.type f) ++
  compiled (TaskRunFilterState.name f).

Definition TaskRunFilter_children (f : TaskRunFilter.t)
    : list (clause orm.TaskRun.t) :=
  compiled (TaskRunFilter.id f) ++ compiled (TaskRunFilter.name f) ++
  compiled (TaskRunFilter.tags f) ++ compiled (TaskRunFilter.state f) ++
  compiled (TaskRunFilter.start_time f) ++
  compiled (TaskRunFilter.subflow_runs f).

Definition DeploymentFilter_children (f : DeploymentFilter.t)
    : list (clause orm.Deployment.t) :=
  compiled (DeploymentFilter.id f) ++ compiled (DeploymentFilter.name f) ++
  compiled (DeploymentFilter.is_schedule_active f) ++
  compiled (DeploymentFilter.tags f).

(** The conjunction of truth values. *)
Definition conjunction (values : list sql_bool) : sql_bool :=
  fold_right sql_and SqlTrue values.

(** A composite filter compiles to the conjunction of the compiled
    clauses of its present children, whatever the order in which the
    children are visited. *)
Definition conjunction_of_children {E F : Type}
    `{PrefectFilterBaseModel E F} (children : F -> list (clause E)) : Prop :=
  forall (f : F) (e : E),
    as_sql_filter f e = conjunction (map (fun c => c e) (children f)) /\
    forall visited : list (clause E),
      Permutation (children f) visited ->
      sa.and_ visited e = as_sql_filter f e.


(** ** Reading a trace of the scheduler *)

Section Observations.

Context {Run : Type}.

Local Abbreviation event := (Scheduler.event Run).

(** The statements executed: the cursor of each and the page it
    returned. *)
Definition queries (tr : list event)
    : list (option UUID * list orm.Deployment.t) :=
  flat_map
    (fun ev =>
       match ev with Scheduler.Execute c page => [(c, page)] | _ => [] end)
    tr.

Definition pages (tr : list event) : list (list orm.Deployment.t) :=
  map snd (queries tr).

Definition cursors (tr : list event) : list (option UUID) :=
  map fst (queries tr).

(** The deployments handed to the generator, in order. *)
Definition visited (tr : list event) : list UUID :=
  flat_map
    (fun ev =>
       match ev with Scheduler.Generate id _ _ _ _ => [id] | _ => [] end)
    tr.

(** The candidate runs the generator returned, in order. *)
Definition candidates (tr : list event) : list Run :=
  flat_map
    (fun ev =>
       match ev with
       | Scheduler.Generate _ _ _ _ (Ok runs) => runs
       | _ => []
       end)
    tr.

(** The chunks passed to the insert, in order. *)
Definition offered (tr : list event) : list (list Run) :=
  flat_map
    (fun ev =>
       match ev with Scheduler.Insert batch _ => [batch] | _ => [] end)
    tr.

(** The runs the insert reported as inserted. *)
Definition inserted (tr : list event) : list Run :=
  flat_map
    (fun ev =>
       match ev with
       | Scheduler.Insert _ (Ok runs) => runs
       | _ => []
       end)
    tr.

(** The totals logged. *)
Definition reported (tr : list event) : list nat :=
  flat_map
    (fun ev => match ev with Scheduler.LogInfo n => [n] | _ => [] end) tr.

(** A call to a collaborator that raised. *)
Definition raises (ev : event) : bool :=
  match ev with
  | Scheduler.Generate _ _ _ _ (Raise _) => true
  | Scheduler.Insert _ (Raise _) => true
  | _ => false
  end.

Definition raising (tr : list event) : bool := existsb raises tr.

(** The events of the body of a page. *)
Definition in_page (ev : event) : bool :=
  match ev with
  | Scheduler.Generate _ _ _ _ _ | Scheduler.Insert _ _ | Scheduler.Flush =>
      true
  | _ => false
  end.

Fixpoint until_next_page (tr : list event) : list event :=
  match tr with
  | [] => []
  | ev :: tr' => if in_page ev then ev :: until_next_page tr' else []
  end.

(** The trace cut into pages: each statement executed, with the events
    of the body that follows it. *)
Fixpoint page_segments (tr : list event) : list (list event) :=
  match tr with
  | [] => []
  | ev :: tr' =>
      match ev with
      | Scheduler.Execute _ _ =>
          (ev :: until_next_page tr') :: page_segments tr'
      | _ => page_segments tr'
      end
  end.

(** The world after the events [evs], the run table having become
    [table]: nothing is committed and the deployments are as before. *)
Definition advance (w : Scheduler.World Run) (table : list Run)
    (evs : list event) : Scheduler.World Run :=
  {| Scheduler.committed := Scheduler.committed w;
     Scheduler.session :=
       {| Scheduler.deployments := Scheduler.deployments (Scheduler.session w);
          Scheduler.flow_runs := table |};
     Scheduler.trace := Scheduler.trace w ++ evs |}.

(** The world in which an invocation starts on the database [db]. *)
Definition initial (db : Scheduler.Database Run) : Scheduler.World Run :=
  {| Scheduler.committed := db;
     Scheduler.session := db;
     Scheduler.trace := [] |}.

(** What holds of the body of a page: every chunk offered to the insert
    has at most [size] runs and, unless a call raised, the chunks put
    end to end are the candidates the generator returned on that page. *)
Definition page_ok (size : nat) (segment : list event) : Prop :=
  Forall (fun batch => length batch <= size) (offered segment) /\
  (raising segment = false -> concat (offered segment) = candidates segment).

End Observations.

(** The deployments the scheduler is after, and their listing in
    ascending order of identifier. *)
Definition eligible (d : orm.Deployment.t) : bool :=
  orm.Deployment.is_schedule_active d &&
  match orm.Deployment.schedule d with Some _ => true | None => false end.

Definition active_schedules (table : list orm.Deployment.t)
    : list orm.Deployment.t :=
  sort_by orm.Deployment.id (filter eligible table).

(** The deployments of [table] still ahead of a cursor. *)
Definition ahead (table : list orm.Deployment.t) (cursor : option UUID)
    : list orm.Deployment.t :=
  match cursor with
  | Some c =>
      filter (fun d => (orm.Deployment.id d >? c)%Z) (filter eligible table)
  | None => filter eligible table
  end.

(** Ascending identifiers, without repetition. *)
Definition ascending (l : list orm.Deployment.t) : Prop :=
  StronglySorted Z.lt (map orm.Deployment.id l).

(** The cursor after the deployments [done] have been paged through. *)
Definition cursor_after (done : list orm.Deployment.t) : option UUID :=
  option_map orm.Deployment.id (last_item done).

(** One cursor lies strictly before another; no cursor comes first. *)
Definition cursor_lt (a b : option UUID) : Prop :=
  match a, b with
  | None, Some _ => True
  | Some x, Some y => (x < y)%Z
  | _, None => False
  end.

(** Fewer deployments of [table] are ahead of [b] than of [a]. *)
Definition shrinks (table : list orm.Deployment.t) (a b : option UUID)
    : Prop :=
  length (ahead table b) < length (ahead table a).

(** Rows in ascending order of a key. *)
Definition le_by {E : Type} (key : E -> Z) (x y : E) : Prop :=
  (key x <= key y)%Z.


(** A [uuid.UUID] object defines neither [__bool__] nor [__len__]: every
    identifier is true in a condition. *)
Definition uuid_truthy (id : UUID) : bool := true.

(** The pages of an ideal cursor pagination of [rest] at page size [P]:
    full pages, then the first page with fewer than [P] rows. *)
Fixpoint paginate (fuel P : nat) (last_id : option UUID)
    (rest : list orm.Deployment.t)
    : list (option UUID * list orm.Deployment.t) :=
  match fuel with
  | O => []
  | S fuel' =>
      let page := firstn P rest in
      (last_id, page) ::
      if length page <? P then []
      else
        match last_item page with
        | Some d =>
            paginate fuel' P (Some (orm.Deployment.id d)) (skipn P rest)
        | None => []
        end
  end.

(** ** What the idempotence of an invocation rests on *)

Section Collaborators.

Context {Run : Type}.

(** The pair of deployment and scheduled time that identifies a run. *)
Variable key : Run -> UUID * datetime.

(** The generator's answer depends on the deployments alone, not on the
    runs already in the table. *)
Definition generator_deterministic
    (generate :
       Scheduler.Database Run -> UUID -> datetime -> datetime -> Z ->
       result (list Run)) : Prop :=
  forall db db' id start_time end_time max_runs,
    Scheduler.deployments db = Scheduler.deployments db' ->
    generate db id start_time end_time max_runs =
    generate db' id start_time end_time max_runs.

(** The insert keeps the rows of the table, leaves every offered run
    present by its key, and, offered only runs whose keys are already
    there, inserts nothing and does not raise. *)
Definition insert_deduplicates
    (insert : list Run -> list Run -> result (list Run * list Run)) : Prop :=
  (forall table batch runs table',
     insert table batch = Ok (runs, table') ->
     incl (map key table) (map key table') /\
     incl (map key batch) (map key table')) /\
  (forall table batch,
     incl (map key batch) (map key table) ->
     insert table batch = Ok ([], table)).

End Collaborators.

(** ** Example collaborators and databases *)

(** A run, as the pair that identifies it. *)
Definition ExampleRun : Type := (UUID * datetime)%type.

(** A generator that schedules every deployment one and two hours after
    the start of the window. *)
Definition hourly (db : Scheduler.Database ExampleRun) (id : UUID)
    (start_time end_time : datetime) (max_runs : Z)
    : result (list ExampleRun) :=
  Ok [(id, start_time + 3600)%Z; (id, start_time + 7200)%Z].

(** The same generator, failing on the deployment 5. *)
Definition hourly_but_5 (db : Scheduler.Database ExampleRun) (id : UUID)
    (start_time end_time : datetime) (max_runs : Z)
    : result (list ExampleRun) :=
  if (id =? 5)%Z then Raise (Exception "no schedule")
  else hourly db id start_time end_time max_runs.

Definition same_run (a b : ExampleRun) : bool :=
  (fst a =? fst b)%Z && (snd a =? snd b)%Z.

(** An insert that skips the runs already in the table. *)
Fixpoint insert_new (table batch : list ExampleRun)
    : list ExampleRun * list ExampleRun :=
  match batch with
  | [] => ([], table)
  | run :: batch' =>
      if existsb (same_run run) table then insert_new table batch'
      else
        let (runs, table') := insert_new (table ++ [run]) batch' in
        (run :: runs, table')
  end.

Definition upsert (table batch : list ExampleRun)
    : result (list ExampleRun * list ExampleRun) :=
  Ok (insert_new table batch).

Definition example_deployment (id : UUID) : orm.Deployment.t :=
  {| orm.Deployment.id := id;
     orm.Deployment.name := "deployment"%string;
     orm.Deployment.tags := [];
     orm.Deployment.schedule := Some "interval"%string;
     orm.Deployment.is_schedule_active := true |}.

(** Six deployments with an active schedule, and one without. *)
Definition example_db : Scheduler.Database ExampleRun :=
  {| Scheduler.deployments :=
       map example_deployment [4; 1; 6; 3; 2; 5]%Z ++
       [{| orm.Deployment.id := 7%Z;
           orm.Deployment.name := "paused"%string;
           orm.Deployment.tags := [];
           orm.Deployment.schedule := Some "interval"%string;
           orm.Deployment.is_schedule_active := false |}];
     Scheduler.flow_runs := [] |}.

(** Pages of three deployments, at most five runs each, three hours
    ahead. *)
Definition example_scheduler : Scheduler.t :=
  {| Scheduler.deployment_batch_size := 3;
     Scheduler.max_runs := 5;
     Scheduler.max_scheduled_time := 10800 |}.

(** Example rows. *)
Definition example_flow : orm.Flow.t :=
  {| orm.Flow.id := 7%Z; orm.Flow.name := "etl"%string;
     orm.Flow.tags := ["db"%string] |}.

(** Seven deployments with an active schedule. *)
Definition seven_deployments : Scheduler.Database ExampleRun :=
  {| Scheduler.deployments :=
       map example_deployment [1; 2; 3; 4; 5; 6; 7]%Z;
     Scheduler.flow_runs := [] |}.

(** One deployment. *)
Definition one_deployment : Scheduler.Database ExampleRun :=
  {| Scheduler.deployments := [example_deployment 1%Z];
     Scheduler.flow_runs := [] |}.

(** Integer identifiers, of which zero is false in a condition, and a
    table that holds it. *)
Definition int_truthy (id : UUID) : bool := negb (id =? 0)%Z.

Definition from_zero : Scheduler.Database ExampleRun :=
  {| Scheduler.deployments := map example_deployment [0; 1]%Z;
     Scheduler.flow_runs := [] |}.

Definition one_by_one : Scheduler.t :=
  {| Scheduler.deployment_batch_size := 1;
     Scheduler.max_runs := 5;
     Scheduler.max_scheduled_time := 10800 |}.

(** ** What the operators of a leaf select *)

(** A membership leaf built by [mk any_] selects the entities whose
    column holds one of the values. *)
Definition membership_contract {E F V : Type} `{PrefectFilterBaseModel E F}
    (mk : option (list V) -> F) (col : column E V) : Prop :=
  forall (values : list V) (e : E),
    selects (as_sql_filter (mk (Some values))) e = true <->
    exists v, col e = Some v /\ In v values.

(** A null check built by [mk is_null_] selects the entities whose column
    is NULL, or those whose column is not. *)
Definition null_check_contract {E F V : Type} `{PrefectFilterBaseModel E F}
    (mk : option bool -> F) (col : column E V) : Prop :=
  forall e : E,
    (selects (as_sql_filter (mk (Some true))) e = true <-> col e = None) /\
    (selects (as_sql_filter (mk (Some false))) e = true <-> col e <> None).

(** A range leaf built by [mk before_ after_] with one bound set selects
    the entities whose column is at or before, or at or after, the
    bound. *)
Definition one_bound_contract {E F : Type} `{PrefectFilterBaseModel E F}
    (mk : option datetime -> option datetime -> F) (col : column E datetime)
    : Prop :=
  forall (T : datetime) (e : E),
    (selects (as_sql_filter (mk (Some T) None)) e = true <->
     exists t, col e = Some t /\ (t <= T)%Z) /\
    (selects (as_sql_filter (mk None (Some T))) e = true <->
     exists t, col e = Some t /\ (T <= t)%Z).

(** A range leaf whose bounds are set the wrong way round selects no
    entity. *)
Definition crossed_bounds_contract {E F : Type} `{PrefectFilterBaseModel E F}
    (mk : option datetime -> option datetime -> F) : Prop :=
  forall (T1 T2 : datetime),
    (T1 < T2)%Z -> selects_none (as_sql_filter (mk (Some T1) (Some T2))).

(** The name of the state related to a run, when it has one. *)
Definition FlowRun_state_name : column orm.FlowRun.t string :=
  fun e => option_map orm.FlowRunState.name (orm.FlowRun.state e).

Definition TaskRun_state_name : column orm.TaskRun.t string :=
  fun e => option_map orm.TaskRunState.name (orm.TaskRun.state e).

(** ** The conduct of an invocation *)

Section Conduct.

Context {Run : Type}.

Local Abbreviation event := (Scheduler.event Run).

(** A row of [table] that the scheduler is after. *)
Definition eligible_in (table : list orm.Deployment.t)
    (d : orm.Deployment.t) : Prop :=
  In d table /\ eligible d = true.

(** A call to the generator for a deployment of [page], over the window
    that starts at [now] and lasts [max_scheduled_time], for at most
    [max_runs] runs. *)
Definition generate_ok (self : Scheduler.t) (now : datetime)
    (page : list orm.Deployment.t) (ev : event) : Prop :=
  match ev with
  | Scheduler.Generate id start_time end_time max_runs _ =>
      In id (map orm.Deployment.id page) /\
      start_time = now /\
      end_time = (now + Scheduler.max_scheduled_time self)%Z /\
      max_runs = Scheduler.max_runs self
  | _ => False
  end.

(** The window and the bound of a call to the generator. *)
Definition window_ok (self : Scheduler.t) (now : datetime) (ev : event)
    : Prop :=
  match ev with
  | Scheduler.Generate _ start_time end_time max_runs _ =>
      start_time = now /\
      end_time = (now + Scheduler.max_scheduled_time self)%Z /\
      max_runs = Scheduler.max_runs self
  | _ => True
  end.

(** What every event of an invocation on [table] respects: a page has at
    most [deployment_batch_size] rows, all of them deployments of the
    table with an active schedule, and the generator is called for such
    a deployment, with the window and the bound of the service. *)
Definition call_ok (self : Scheduler.t) (now : datetime)
    (table : list orm.Deployment.t) (ev : event) : Prop :=
  match ev with
  | Scheduler.Execute _ page =>
      length page <= Scheduler.deployment_batch_size self /\
      Forall (eligible_in table) page
  | Scheduler.Generate id _ _ _ _ =>
      (exists d, eligible_in table d /\ orm.Deployment.id d = id) /\
      window_ok self now ev
  | _ => True
  end.

Definition is_generate (ev : event) : bool :=
  match ev with Scheduler.Generate _ _ _ _ _ => true | _ => false end.

Definition insert_or_flush (ev : event) : bool :=
  match ev with
  | Scheduler.Insert _ _ | Scheduler.Flush => true
  | _ => false
  end.

(** Every insert that succeeded is followed at once by a flush;
    [pending] tells that the flush is due now. *)
Fixpoint flushed_from (pending : bool) (tr : list event) : bool :=
  match tr with
  | [] => negb pending
  | ev :: tr' =>
      if pending then
        match ev with
        | Scheduler.Flush => flushed_from false tr'
        | _ => false
        end
      else
        match ev with
        | Scheduler.Insert _ (Ok _) => flushed_from true tr'
        | _ => flushed_from false tr'
        end
  end.

(** A page in two phases: the statement, the calls to the generator,
    then the inserts and flushes; and no insert if the generator
    raised. *)
Definition phased (segment : list event) : Prop :=
  exists c page gens inss,
    segment = Scheduler.Execute c page :: gens ++ inss /\
    Forall (fun ev => is_generate ev = true) gens /\
    Forall (fun ev => insert_or_flush ev = true) inss /\
    (raising gens = true -> inss = []).

End Conduct.

(** A service whose page size is zero, and a table where no deployment
    has an active schedule. *)
Definition pages_of_zero : Scheduler.t :=
  {| Scheduler.deployment_batch_size := 0;
     Scheduler.max_runs := 5;
     Scheduler.max_scheduled_time := 10800 |}.

Definition nothing_scheduled : Scheduler.Database ExampleRun :=
  {| Scheduler.deployments :=
       [{| orm.Deployment.id := 1%Z;
           orm.Deployment.name := "paused"%string;
           orm.Deployment.tags := [];
           orm.Deployment.schedule := Some "interval"%string;
           orm.Deployment.is_schedule_active := false |};
        {| orm.Deployment.id := 2%Z;
           orm.Deployment.name := "manual"%string;
           orm.Deployment.tags := [];
           orm.Deployment.schedule := None;
           orm.Deployment.is_schedule_active := true |}];
     Scheduler.flow_runs := [(1, 4600)%Z] |}.

(** ** The chunks of a page *)

Section Chunks.

Context {Run : Type}.

(** What holds of every page, whatever the size of a chunk and whatever
    the collaborators do: each chunk offered to the insert has at most
    [size] runs, and the chunks put end to end are an initial part of
    the candidates the generator returned on that page, so that no
    candidate is offered twice or out of order.  They are all of the
    candidates when [size] is positive and no call raised on the page. *)
Definition page_chunks (size : nat) (segment : list (Scheduler.event Run))
    : Prop :=
  Forall (fun batch => length batch <= size) (offered segment) /\
  (exists rest, candidates segment = concat (offered segment) ++ rest) /\
  (0 < size -> raising segment = false ->
   concat (offered segment) = candidates segment).

End Chunks.

(* ===================================================================== *)
(** * Properties of the filters *)
(* ===================================================================== *)

Lemma sql_and_comm (a b : sql_bool) : sql_and a b = sql_and b a.
Proof. destruct a, b; reflexivity. Qed.

Lemma sql_and_assoc (a b c : sql_bool) :
  sql_and a (sql_and b c) = sql_and (sql_and a b) c.
Proof. destruct a, b, c; reflexivity. Qed.

Lemma sql_and_true_l (a : sql_bool) : sql_and SqlTrue a = a.
Proof. destruct a; reflexivity. Qed.

Lemma sql_and_true_r (a : sql_bool) : sql_and a SqlTrue = a.
Proof. destruct a; reflexivity. Qed.

Lemma sql_and_swap (a b c : sql_bool) :
  sql_and a (sql_and b c) = sql_and b (sql_and a c).
Proof. destruct a, b, c; reflexivity. Qed.

Lemma is_true_sql_and (a b : sql_bool) :
  is_true (sql_and a b) = is_true a && is_true b.
Proof. destruct a, b; reflexivity. Qed.

Lemma and__app {E : Type} (l l' : list (clause E)) (e : E) :
  sa.and_ (l ++ l') e = sql_and (sa.and_ l e) (sa.and_ l' e).
Proof.
  unfold sa.and_. induction l as [|c l IH]; cbn [app fold_right].
  - symmetry. apply sql_and_true_l.
  - now rewrite IH, sql_and_assoc.
Qed.

Lemma and__permutation {E : Type} (l l' : list (clause E)) (e : E) :
  Permutation l l' -> sa.and_ l e = sa.and_ l' e.
Proof.
  unfold sa.and_. induction 1; simpl.
  - reflexivity.
  - now f_equal.
  - apply sql_and_swap.
  - congruence.
Qed.

(** [as_sql_filter] is the conjunction of the filter list, the empty
    conjunction being TRUE. *)
Lemma as_sql_filter_and_ {E F : Type} `{PrefectFilterBaseModel E F}
    (self : F) (e : E) :
  as_sql_filter self e = sa.and_ (_get_filter_list self) e.
Proof.
  unfold as_sql_filter. now destruct (_get_filter_list self).
Qed.

(** C3. A filter with every operator field and every child slot unset
    compiles to a clause that selects every entity: this holds for each
    leaf filter, for each composite filter and for the four filters of a
    default [BaseFilterCriteria]. *)
Theorem C3_all_absent_selects_every_entity :
  (selects_all (as_sql_filter (FlowFilterId.Build_t None)) /\
   selects_all (as_sql_filter (FlowFilterName.Build_t None)) /\
   selects_all (as_sql_filter (FlowFilterTags.Build_t None None)) /\
   selects_all (as_sql_filter (FlowFilter.Build_t None None None))) /\
  (selects_all (as_sql_filter (FlowRunFilterId.Build_t None None)) /\
   selects_all (as_sql_filter (FlowRunFilterName.Build_t None)) /\
   selects_all (as_sql_filter (FlowRunFilterTags.Build_t None None)) /\
   selects_all (as_sql_filter (FlowRunFilterDeploymentId.Build_t None None)) /\
   selects_all (as_sql_filter (FlowRunFilterStateType.Build_t None)) /\
   selects_all (as_sql_filter (FlowRunFilterStateName.Build_t None)) /\
   selects_all (as_sql_filter (FlowRunFilterState.Build_t None None)) /\
   selects_all (as_sql_filter (FlowRunFilterFlowVersion.Build_t None)) /\
   selects_all (as_sql_filter (FlowRunFilterStartTime.Build_t None None None)) /\
   selects_all (as_sql_filter (FlowRunFilterExpectedStartTime.Build_t None None)) /\
   selects_all
     (as_sql_filter (FlowRunFilterNextScheduledStartTime.Build_t None None)) /\
   selects_all
     (as_sql_filter (FlowRunFilterParentTaskRunId.Build_t None None)) /\
   selects_all
     (as_sql_filter
        (FlowRunFilter.Build_t None None None None None None None None None
           None))) /\
  (selects_all (as_sql_filter (TaskRunFilterId.Build_t None)) /\
   selects_all (as_sql_filter (TaskRunFilterName.Build_t None)) /\
   selects_all (as_sql_filter (TaskRunFilterTags.Build_t None None)) /\
   selects_all (as_sql_filter (TaskRunFilterStateType.Build_t None)) /\
   selects_all (as_sql_filter (TaskRunFilterStateName.Build_t None)) /\
   selects_all (as_sql_filter (TaskRunFilterState.Build_t None None)) /\
   selects_all (as_sql_filter (TaskRunFilterSubFlowRuns.Build_t None)) /\
   selects_all (as_sql_filter (TaskRunFilterStartTime.Build_t None None None)) /\
   selects_all
     (as_sql_filter (TaskRunFilter.Build_t None None None None None None))) /\
  (selects_all (as_sql_filter (DeploymentFilterId.Build_t None)) /\
   selects_all (as_sql_filter (DeploymentFilterName.Build_t None)) /\
   selects_all (as_sql_filter (DeploymentFilterIsScheduleActive.Build_t None)) /\
   selects_all (as_sql_filter (DeploymentFilterTags.Build_t None None)) /\
   selects_all (as_sql_filter (DeploymentFilter.Build_t None None None None))) /\
  (selects_all
     (as_sql_filter
        (BaseFilterCriteria.flow_filter BaseFilterCriteria.default)) /\
   selects_all
     (as_sql_filter
        (BaseFilterCriteria.flow_run_filter BaseFilterCriteria.default)) /\
   selects_all
     (as_sql_filter
        (BaseFilterCriteria.task_run_filter BaseFilterCriteria.default)) /\
   selects_all
     (as_sql_filter
        (BaseFilterCriteria.deployment_filter BaseFilterCriteria.default))).
Proof.
  repeat split; intro e; reflexivity.
Qed.

(** C2 fails as stated: a membership field set to the empty list makes
    the flow-identifier filter select no flow, while the same filter with
    the field absent selects it. *)
Lemma C2_empty_any_counterexample :
  selects (as_sql_filter (FlowFilterId.Build_t (Some []))) example_flow
    = false /\
  selects (as_sql_filter (FlowFilterId.Build_t None)) example_flow = true.
Proof. split; reflexivity. Qed.

(** C2 (amended). A membership field set to the empty list compiles to
    membership in the empty set: whatever the other fields of the leaf,
    the compiled clause selects no entity.  Only an absent field imposes
    no constraint: the leaf whose fields are all absent selects every
    entity. *)
Theorem C2_empty_any_selects_nothing :
  (selects_none (as_sql_filter (FlowFilterId.Build_t (Some []))) /\
   selects_none (as_sql_filter (FlowFilterName.Build_t (Some []))) /\
   (forall not_any_,
      selects_none
        (as_sql_filter (FlowRunFilterId.Build_t (Some []) not_any_))) /\
   selects_none (as_sql_filter (FlowRunFilterName.Build_t (Some []))) /\
   (forall is_null_,
      selects_none
        (as_sql_filter (FlowRunFilterDeploymentId.Build_t (Some []) is_null_))) /\
   selects_none (as_sql_filter (FlowRunFilterStateType.Build_t (Some []))) /\
   selects_none (as_sql_filter (FlowRunFilterStateName.Build_t (Some []))) /\
   selects_none (as_sql_filter (FlowRunFilterFlowVersion.Build_t (Some []))) /\
   (forall is_null_,
      selects_none
        (as_sql_filter
           (FlowRunFilterParentTaskRunId.Build_t (Some []) is_null_))) /\
   selects_none (as_sql_filter (TaskRunFilterId.Build_t (Some []))) /\
   selects_none (as_sql_filter (TaskRunFilterName.Build_t (Some []))) /\
   selects_none (as_sql_filter (TaskRunFilterStateType.Build_t (Some []))) /\
   selects_none (as_sql_filter (TaskRunFilterStateName.Build_t (Some []))) /\
   selects_none (as_sql_filter (DeploymentFilterId.Build_t (Some []))) /\
   selects_none (as_sql_filter (DeploymentFilterName.Build_t (Some [])))) /\
  (selects_all (as_sql_filter (FlowFilterId.Build_t None)) /\
   selects_all (as_sql_filter (FlowFilterName.Build_t None)) /\
   selects_all (as_sql_filter (FlowRunFilterId.Build_t None None)) /\
   selects_all (as_sql_filter (FlowRunFilterName.Build_t None)) /\
   selects_all (as_sql_filter (FlowRunFilterDeploymentId.Build_t None None)) /\
   selects_all (as_sql_filter (FlowRunFilterStateType.Build_t None)) /\
   selects_all (as_sql_filter (FlowRunFilterStateName.Build_t None)) /\
   selects_all (as_sql_filter (FlowRunFilterFlowVersion.Build_t None)) /\
   selects_all
     (as_sql_filter (FlowRunFilterParentTaskRunId.Build_t None None)) /\
   selects_all (as_sql_filter (TaskRunFilterId.Build_t None)) /\
   selects_all (as_sql_filter (TaskRunFilterName.Build_t None)) /\
   selects_all (as_sql_filter (TaskRunFilterStateType.Build_t None)) /\
   selects_all (as_sql_filter (TaskRunFilterStateName.Build_t None)) /\
   selects_all (as_sql_filter (DeploymentFilterId.Build_t None)) /\
   selects_all (as_sql_filter (DeploymentFilterName.Build_t None))).
Proof.
  split.
  - repeat split; try intros [[]|] e; try intros e;
      try reflexivity.
    + unfold selects, as_sql_filter; cbn. unfold sa.has.
      now destruct (orm.FlowRun.state e).
    + unfold selects, as_sql_filter; cbn. unfold sa.has.
      now destruct (orm.TaskRun.state e).
  - repeat split; intro e; reflexivity.
Qed.

Lemma range_clauses_spec {E : Type} (col : column E datetime)
    (T1 T2 : datetime) (e : E) :
  is_true (sa.and_ [sa.le col T1; sa.ge col T2] e) = true <->
  in_closed_interval T2 T1 (col e).
Proof.
  unfold sa.and_, sa.le, sa.ge, in_closed_interval. cbn [fold_right].
  destruct (col e) as [t|]; cbn.
  - destruct (Z.leb_spec t T1), (Z.geb_spec t T2); cbn; split;
      try discriminate; try (intros (t' & [= <-] & ?); lia).
    intros _. exists t. split; [reflexivity | lia].
  - split; [discriminate | intros (t & [=] & _)].
Qed.

(** C6. A range leaf with [after_ = T2] and [before_ = T1], where
    [T2 <= T1], selects exactly the entities whose column value lies in
    the closed interval from [T2] to [T1]: both bounds are inclusive and
    both must hold.  This is so for each of the four range leaves. *)
Theorem C6_range_leaf_closed_interval (T1 T2 : datetime) :
  (T2 <= T1)%Z ->
  (forall e,
     selects
       (as_sql_filter (FlowRunFilterStartTime.Build_t (Some T1) (Some T2) None))
       e = true <->
     in_closed_interval T2 T1 (orm.FlowRun.start_time e)) /\
  (forall e,
     selects
       (as_sql_filter
          (FlowRunFilterExpectedStartTime.Build_t (Some T1) (Some T2)))
       e = true <->
     in_closed_interval T2 T1 (orm.FlowRun.expected_start_time e)) /\
  (forall e,
     selects
       (as_sql_filter
          (FlowRunFilterNextScheduledStartTime.Build_t (Some T1) (Some T2)))
       e = true <->
     in_closed_interval T2 T1 (orm.FlowRun.next_scheduled_start_time e)) /\
  (forall e,
     selects
       (as_sql_filter (TaskRunFilterStartTime.Build_t (Some T1) (Some T2) None))
       e = true <->
     in_closed_interval T2 T1 (orm.TaskRun.start_time e)).
Proof.
  intros _. repeat split; intros H;
    first [ now apply range_clauses_spec in H
          | now apply range_clauses_spec ].
Qed.

(** The theorem at the bounds 10 and 20. *)
Lemma C6_range_leaf_closed_interval_witness :
  (10 <= 20)%Z /\
  forall e,
    selects
      (as_sql_filter (FlowRunFilterStartTime.Build_t (Some 20%Z) (Some 10%Z) None))
      e = true <->
    in_closed_interval 10%Z 20%Z (orm.FlowRun.start_time e).
Proof.
  split; [lia | apply (C6_range_leaf_closed_interval 20%Z 10%Z); lia].
Defined.

Lemma has_all_keys_spec (tags values : list string) :
  forallb (fun k => existsb (String.eqb k) tags) values = true <->
  incl values tags.
Proof.
  rewrite forallb_forall. unfold incl. split; intros H k Hk.
  - apply H in Hk. apply existsb_exists in Hk as (k' & Hin & Heq).
    apply String.eqb_eq in Heq. now subst.
  - apply existsb_exists. exists k. split; [now apply H | apply String.eqb_refl].
Qed.

Lemma tag_leaf_spec {E : Type} (tags : E -> list string) (e : E) :
  (is_true (sa.and_ [empty_check (not_null tags) true] e) = true <->
   tags e = []) /\
  (is_true (sa.and_ [empty_check (not_null tags) false] e) = true <->
   tags e <> []) /\
  (forall all_,
     is_true
       (sa.and_ [json_has_all_keys (not_null tags) all_;
                 empty_check (not_null tags) false] e) =
     is_true (sa.and_ [json_has_all_keys (not_null tags) all_] e) &&
     is_true (sa.and_ [empty_check (not_null tags) false] e)) /\
  (forall all_,
     is_true
       (sa.and_ [json_has_all_keys (not_null tags) all_;
                 empty_check (not_null tags) false] e) = true <->
     incl all_ (tags e) /\ tags e <> []).
Proof.
  unfold sa.and_, empty_check, json_has_all_keys, sa.eq_empty, sa.ne_empty,
    not_null.
  cbn [fold_right]. split; [|split; [|split]].
  - destruct (tags e); cbn; split; congruence.
  - destruct (tags e); cbn; split; congruence.
  - intros all_. rewrite !sql_and_true_r. apply is_true_sql_and.
  - intros all_. rewrite !sql_and_true_r, is_true_sql_and.
    rewrite andb_true_iff, <- has_all_keys_spec.
    destruct (forallb _ _), (tags e); cbn; intuition congruence.
Qed.

(** C7. For each of the four tag leaves: with [is_null_ = true] the
    compiled clause selects exactly the entities whose tag list is empty;
    with [is_null_ = false], exactly those with at least one tag; with
    both [all_] and [is_null_ = false] set, the conjunction of the two
    constraints. *)
Theorem C7_tag_leaf_null_check :
  tag_leaf_contract FlowFilterTags.Build_t orm.Flow.tags /\
  tag_leaf_contract FlowRunFilterTags.Build_t orm.FlowRun.tags /\
  tag_leaf_contract TaskRunFilterTags.Build_t orm.TaskRun.tags /\
  tag_leaf_contract DeploymentFilterTags.Build_t orm.Deployment.tags.
Proof.
  repeat apply conj; intros e.
  - exact (tag_leaf_spec orm.Flow.tags e).
  - exact (tag_leaf_spec orm.FlowRun.tags e).
  - exact (tag_leaf_spec orm.TaskRun.tags e).
  - exact (tag_leaf_spec orm.Deployment.tags e).
Qed.

Lemma and__conjunction {E : Type} (l : list (clause E)) (e : E) :
  sa.and_ l e = conjunction (map (fun c => c e) l).
Proof.
  unfold sa.and_, conjunction. induction l; cbn; congruence.
Qed.

Lemma conjunction_of_children_intro {E F : Type}
    `{PrefectFilterBaseModel E F} (children : F -> list (clause E)) :
  (forall f e, sa.and_ (_get_filter_list f) e = sa.and_ (children f) e) ->
  conjunction_of_children children.
Proof.
  intros Hsame f e. rewrite as_sql_filter_and_, Hsame. split.
  - apply and__conjunction.
  - intros visited Hperm. symmetry. now apply and__permutation.
Qed.

Lemma append_if_set_compiled {E F : Type} `{PrefectFilterBaseModel E F}
    (child : option F) (filters : list (clause E)) :
  append_if_set child as_sql_filter filters = filters ++ compiled child.
Proof.
  destruct child; cbn; [reflexivity | now rewrite app_nil_r].
Qed.

(** C8. Each composite filter compiles to the conjunction of the compiled
    clauses of its present child slots, and the clause's value on an
    entity is the same for every order in which the slots are visited. *)
Theorem C8_composite_is_order_independent_conjunction :
  conjunction_of_children FlowFilter_children /\
  conjunction_of_children FlowRunFilterState_children /\
  conjunction_of_children FlowRunFilter_children /\
  conjunction_of_children TaskRunFilterState_children /\
  conjunction_of_children TaskRunFilter_children /\
  conjunction_of_children DeploymentFilter_children.
Proof.
  repeat apply conj; apply conjunction_of_children_intro; intros f e.
  - cbn. unfold FlowFilter._get_filter_list, FlowFilter_children.
    rewrite !append_if_set_compiled. now rewrite <- !app_assoc.
  - destruct f as [[[[ty|]]|] [[[nm|]]|]]; unfold sa.and_; cbn -[sql_and];
      now rewrite ?sql_and_true_r, ?sql_and_true_l.
  - cbn. unfold FlowRunFilter._get_filter_list, FlowRunFilter_children.
    rewrite !append_if_set_compiled. rewrite <- !app_assoc. cbn [app].
    apply and__permutation.
    do 4 apply Permutation_app_head.
    rewrite !app_assoc. do 4 apply Permutation_app_tail.
    apply Permutation_app_comm.
  - destruct f as [[[[ty|]]|] [[[nm|]]|]]; unfold sa.and_; cbn -[sql_and];
      now rewrite ?sql_and_true_r, ?sql_and_true_l.
  - cbn. unfold TaskRunFilter._get_filter_list, TaskRunFilter_children.
    rewrite !append_if_set_compiled. now rewrite <- !app_assoc.
  - cbn. unfold DeploymentFilter._get_filter_list, DeploymentFilter_children.
    rewrite !append_if_set_compiled. now rewrite <- !app_assoc.
Qed.

(* ===================================================================== *)
(** * Lists: chunks, ordering, pages *)
(* ===================================================================== *)

Lemma batched_from_concat {A : Type} (fuel size : nat) (l : list A) :
  0 < size -> length l <= fuel -> concat (batched_from fuel size l) = l.
Proof.
  intros Hsize. revert l. induction fuel as [|fuel IH]; intros l Hlen.
  - destruct l; [reflexivity | cbn in Hlen; lia].
  - cbn [batched_from]. destruct (firstn size l) as [|x batch] eqn:Hfirst.
    + destruct size; [lia|]. destruct l; [reflexivity | discriminate].
    + cbn [concat]. rewrite IH.
      * rewrite <- Hfirst. apply firstn_skipn.
      * rewrite length_skipn. lia.
Qed.

Lemma batched_from_bound {A : Type} (fuel size : nat) (l : list A) :
  Forall (fun batch => length batch <= size) (batched_from fuel size l).
Proof.
  revert l. induction fuel as [|fuel IH]; intros l; cbn [batched_from].
  - constructor.
  - destruct (firstn size l) as [|x batch] eqn:Hfirst; constructor.
    + rewrite <- Hfirst. apply firstn_le_length.
    + apply IH.
Qed.

Lemma batched_iterable_concat {A : Type} (l : list A) (size : nat) :
  0 < size -> concat (batched_iterable l size) = l.
Proof. intros H. now apply batched_from_concat. Qed.

Lemma batched_iterable_bound {A : Type} (l : list A) (size : nat) :
  Forall (fun batch => length batch <= size) (batched_iterable l size).
Proof. apply batched_from_bound. Qed.

Section Ordering.

Context {E : Type} (key : E -> Z).

Local Abbreviation le_key := (le_by key).

Lemma insert_by_permutation (x : E) (l : list E) :
  Permutation (x :: l) (insert_by key x l).
Proof.
  induction l as [|y l IH]; cbn.
  - reflexivity.
  - destruct (key x <=? key y)%Z; [reflexivity|].
    rewrite perm_swap. now constructor.
Qed.

Lemma sort_by_permutation (l : list E) : Permutation l (sort_by key l).
Proof.
  induction l as [|x l IH]; cbn.
  - constructor.
  - rewrite <- insert_by_permutation. now constructor.
Qed.

Lemma insert_by_sorted (x : E) (l : list E) :
  StronglySorted le_key l -> StronglySorted le_key (insert_by key x l).
Proof.
  induction 1 as [|y l Hl IH Hy]; cbn.
  - repeat constructor.
  - destruct (Z.leb_spec (key x) (key y)).
    + constructor; [now constructor|].
      constructor; [assumption|].
      eapply Forall_impl; [|exact Hy]. unfold le_by in *. intros; cbn in *; lia.
    + constructor; [assumption|].
      rewrite <- insert_by_permutation.
      constructor; [unfold le_by; lia | assumption].
Qed.

Lemma sort_by_sorted (l : list E) : StronglySorted le_key (sort_by key l).
Proof.
  induction l; cbn; [constructor | now apply insert_by_sorted].
Qed.

Lemma insert_by_least (x : E) (l : list E) :
  Forall (le_key x) l -> insert_by key x l = x :: l.
Proof.
  destruct 1 as [|y l Hy _]; cbn; [reflexivity|].
  unfold le_by in Hy. now destruct (Z.leb_spec (key x) (key y)); [|lia].
Qed.

Lemma filter_insert_by (q : E -> bool) (x : E) (l : list E) :
  StronglySorted le_key l ->
  filter q (insert_by key x l) =
  if q x then insert_by key x (filter q l) else filter q l.
Proof.
  induction 1 as [|y l Hl IH Hy].
  - cbn. now destruct (q x).
  - cbn [insert_by].
    destruct (Z.leb_spec (key x) (key y)) as [Hle|Hgt].
    + change (filter q (x :: y :: l))
        with (if q x then x :: filter q (y :: l) else filter q (y :: l)).
      destruct (q x); [|reflexivity].
      symmetry. apply insert_by_least.
      assert (Hall : Forall (le_key x) (y :: l)).
      { constructor; [exact Hle|].
        eapply Forall_impl; [|exact Hy]. unfold le_by in *. intros; cbn in *; lia. }
      apply Forall_forall. intros z Hz. apply filter_In in Hz as [Hz _].
      revert z Hz. now apply Forall_forall.
    + cbn [filter]. rewrite IH.
      destruct (q y), (q x); cbn [insert_by]; try reflexivity.
      now destruct (Z.leb_spec (key x) (key y)); [lia|].
Qed.

Lemma filter_sort_by (q : E -> bool) (l : list E) :
  filter q (sort_by key l) = sort_by key (filter q l).
Proof.
  induction l as [|x l IH]; cbn; [reflexivity|].
  rewrite filter_insert_by by apply sort_by_sorted.
  rewrite IH. now destruct (q x).
Qed.

Lemma sorted_nodup_strict (l : list E) :
  StronglySorted le_key l -> NoDup (map key l) ->
  StronglySorted Z.lt (map key l).
Proof.
  induction 1 as [|x l Hl IH Hx]; cbn; intros Hnd; [constructor|].
  inversion Hnd as [|? ? Hnotin Hnd']; subst.
  constructor; [now apply IH|].
  apply Forall_forall. intros k Hk.
  apply in_map_iff in Hk as (y & <- & Hy).
  assert (le_key x y) by (revert y Hy; now apply Forall_forall).
  assert (key x <> key y).
  { intros Heq. apply Hnotin. rewrite Heq. now apply in_map. }
  unfold le_by in *. lia.
Qed.

End Ordering.

Lemma filter_andb {A : Type} (p q : A -> bool) (l : list A) :
  filter (fun x => p x && q x) l = filter q (filter p l).
Proof.
  induction l as [|x l IH]; cbn; [reflexivity|].
  destruct (p x); cbn; [destruct (q x)|]; now rewrite IH.
Qed.

Lemma Forall_prefix {A : Type} (Q : A -> Prop) (k : nat) (l : list A) :
  Forall Q l -> Forall Q (firstn k l).
Proof.
  intros H. revert k. induction H; intros [|k]; cbn; constructor; auto.
Qed.

Lemma Sorted_prefix {A : Type} (R : A -> A -> Prop) (k : nat) (l : list A) :
  Sorted R l -> Sorted R (firstn k l).
Proof.
  intros H. revert k. induction H as [|x l Hl IH Hx]; intros [|k]; cbn;
    constructor; auto.
  destruct Hx; destruct k; cbn; constructor; auto.
Qed.

Lemma fuel_covers (n P fuel : nat) : 0 < P -> n / P < fuel -> n < fuel * P.
Proof.
  intros HP Hfuel. pose proof (Nat.div_mod_eq n P) as Hn.
  pose proof (Nat.mod_upper_bound n P) as Hr. nia.
Qed.

Lemma filter_none {A : Type} (q : A -> bool) (l : list A) :
  (forall x, In x l -> q x = false) -> filter q l = [].
Proof.
  induction l as [|x l IH]; cbn; intros Hq; [reflexivity|].
  rewrite (Hq x) by now left. apply IH. intros y Hy. apply Hq. now right.
Qed.

Lemma NoDup_map_filter {A B : Type} (f : A -> B) (q : A -> bool)
    (l : list A) :
  NoDup (map f l) -> NoDup (map f (filter q l)).
Proof.
  induction l as [|x l IH]; cbn; intros Hnd; [constructor|].
  inversion Hnd as [|? ? Hnotin Hnd']; subst.
  destruct (q x); cbn; [constructor|]; auto.
  intros Hin. apply Hnotin. apply in_map_iff in Hin as (y & Hy & Hin).
  apply in_map_iff. exists y. split; [exact Hy|].
  now apply filter_In in Hin.
Qed.

Lemma StronglySorted_app_inv {A : Type} (R : A -> A -> Prop)
    (l1 l2 : list A) :
  StronglySorted R (l1 ++ l2) ->
  StronglySorted R l1 /\ StronglySorted R l2 /\
  forall x y, In x l1 -> In y l2 -> R x y.
Proof.
  induction l1 as [|a l1 IH]; cbn; intros Hs.
  - repeat split; [constructor | assumption | contradiction].
  - apply StronglySorted_inv in Hs as [Hs Ha].
    destruct (IH Hs) as (H1 & H2 & H12).
    apply Forall_app in Ha as [Ha1 Ha2].
    repeat split; [now constructor | assumption |].
    intros x y [<-|Hx] Hy; [|now apply H12].
    revert y Hy. now apply Forall_forall.
Qed.

Lemma StronglySorted_lt_NoDup (l : list Z) :
  StronglySorted Z.lt l -> NoDup l.
Proof.
  induction 1 as [|x l Hl IH Hx]; constructor; [|assumption].
  intros Hin. rewrite Forall_forall in Hx. specialize (Hx x Hin). lia.
Qed.

Lemma last_item_app {A : Type} (l l' : list A) :
  l' <> [] -> last_item (l ++ l') = last_item l'.
Proof.
  intros Hne. induction l as [|x l IH]; cbn; [reflexivity|].
  rewrite IH. destruct (l ++ l') eqn:Happ; [|reflexivity].
  apply app_eq_nil in Happ as [_ ->]. contradiction.
Qed.

Lemma last_item_snoc {A : Type} (l : list A) (d : A) :
  last_item l = Some d -> exists front, l = front ++ [d].
Proof.
  induction l as [|x l IH]; cbn; [discriminate|].
  destruct l as [|y l].
  - intros [= ->]. now exists [].
  - intros Hlast. destruct (IH Hlast) as (front & Heq).
    exists (x :: front). cbn. now rewrite <- Heq.
Qed.

Lemma last_item_nonempty {A : Type} (l : list A) :
  l <> [] -> exists d, last_item l = Some d.
Proof.
  induction l as [|x l IH]; [contradiction|]. intros _.
  destruct l as [|y l]; [now exists x|].
  cbn [last_item]. apply IH. discriminate.
Qed.

Lemma unique_from_nodup (seen : list UUID) (l : list orm.Deployment.t) :
  NoDup (map orm.Deployment.id l) ->
  (forall d, In d l -> ~ In (orm.Deployment.id d) seen) ->
  unique_from seen l = l.
Proof.
  revert seen. induction l as [|d l IH]; cbn; intros seen Hnd Hseen;
    [reflexivity|].
  inversion Hnd as [|? ? Hnotin Hnd']; subst.
  destruct (existsb (Z.eqb (orm.Deployment.id d)) seen) eqn:Hex.
  - apply existsb_exists in Hex as (s & Hs & Heq).
    apply Z.eqb_eq in Heq. subst s. exfalso. apply (Hseen d); auto.
  - f_equal. apply IH; [assumption|].
    intros d' Hd' [Heq|Hin].
    + apply Hnotin. rewrite Heq. now apply in_map.
    + apply (Hseen d'); auto.
Qed.

Lemma unique_ascending (l : list orm.Deployment.t) :
  ascending l -> unique l = l.
Proof.
  intros Hasc. apply unique_from_nodup; [|intros ? ? []].
  now apply StronglySorted_lt_NoDup.
Qed.

Lemma ascending_app_inv (l1 l2 : list orm.Deployment.t) :
  ascending (l1 ++ l2) ->
  ascending l1 /\ ascending l2 /\
  forall x y, In x l1 -> In y l2 ->
    (orm.Deployment.id x < orm.Deployment.id y)%Z.
Proof.
  unfold ascending. rewrite map_app. intros Hs.
  apply StronglySorted_app_inv in Hs as (H1 & H2 & H12).
  repeat split; try assumption.
  intros x y Hx Hy. apply H12; now apply in_map.
Qed.

(** In an ascending list, the rows beyond the last row of a prefix are
    the rest of the list. *)
Lemma filter_beyond_cursor (done rest : list orm.Deployment.t)
    (d : orm.Deployment.t) :
  ascending (done ++ rest) -> last_item done = Some d ->
  filter (fun x => (orm.Deployment.id x >? orm.Deployment.id d)%Z)
    (done ++ rest) = rest.
Proof.
  intros Hasc Hlast.
  destruct (last_item_snoc _ _ Hlast) as (front & ->).
  destruct (ascending_app_inv _ _ Hasc) as (Hdone & _ & Hcross).
  destruct (ascending_app_inv _ _ Hdone) as (_ & _ & Hfront).
  rewrite !filter_app. cbn [filter].
  rewrite Z.gtb_ltb, Z.ltb_irrefl.
  replace (filter _ front) with (@nil orm.Deployment.t).
  - cbn. apply forallb_filter_id. apply forallb_forall. intros y Hy.
    rewrite Z.gtb_ltb. apply Z.ltb_lt. apply Hcross; [|assumption].
    apply in_or_app. right. now left.
  - symmetry. apply filter_none. intros x Hx.
    rewrite Z.gtb_ltb. apply Z.ltb_ge.
    specialize (Hfront x d Hx (or_introl eq_refl)). lia.
Qed.

Section Paging.

Variable truthy : UUID -> bool.
Variable self : Scheduler.t.
Variable table : list orm.Deployment.t.

Hypothesis table_nodup : NoDup (map orm.Deployment.id table).
Hypothesis table_truthy :
  forall d, In d table -> truthy (orm.Deployment.id d) = true.

Local Abbreviation P := (Scheduler.deployment_batch_size self).

Lemma where_eligible (d : orm.Deployment.t) :
  selects
    (sa.and_
       [sa.is_ (not_null orm.Deployment.is_schedule_active) true;
        sa.ne_None orm.Deployment.schedule]) d = eligible d.
Proof.
  unfold selects, sa.and_, sa.is_, sa.ne_None, not_null, eligible. cbn.
  now destruct (orm.Deployment.is_schedule_active d),
    (orm.Deployment.schedule d).
Qed.

Lemma where_eligible_beyond (c : UUID) (d : orm.Deployment.t) :
  selects
    (sa.and_
       [sa.is_ (not_null orm.Deployment.is_schedule_active) true;
        sa.ne_None orm.Deployment.schedule;
        sa.gt (not_null orm.Deployment.id) c]) d =
  eligible d && (orm.Deployment.id d >? c)%Z.
Proof.
  unfold selects, sa.and_, sa.is_, sa.ne_None, sa.gt, not_null, eligible.
  cbn.
  now destruct (orm.Deployment.is_schedule_active d),
    (orm.Deployment.schedule d), (orm.Deployment.id d >? c)%Z.
Qed.

Lemma active_schedules_permutation :
  Permutation (filter eligible table) (active_schedules table).
Proof. apply sort_by_permutation. Qed.

Lemma active_schedules_ascending : ascending (active_schedules table).
Proof.
  apply sorted_nodup_strict; [apply sort_by_sorted|].
  eapply Permutation_NoDup.
  - apply Permutation_map. apply active_schedules_permutation.
  - now apply NoDup_map_filter.
Qed.

Lemma active_schedules_in (d : orm.Deployment.t) :
  In d (active_schedules table) -> In d table.
Proof.
  intros Hin.
  apply (Permutation_in _ (Permutation_sym active_schedules_permutation))
    in Hin.
  now apply filter_In in Hin.
Qed.

Lemma last_item_in {A : Type} (l : list A) (d : A) :
  last_item l = Some d -> In d l.
Proof.
  intros Hlast. destruct (last_item_snoc _ _ Hlast) as (front & ->).
  apply in_or_app. right. now left.
Qed.

(** The page a statement returns at a cursor: the first [P] of the
    deployments not yet paged through. *)
Lemma page_at_cursor (done rest : list orm.Deployment.t) :
  active_schedules table = done ++ rest ->
  unique (sa.rows (Scheduler.page_query truthy self (cursor_after done)) table)
  = firstn P rest.
Proof.
  intros Hsplit.
  pose proof active_schedules_ascending as Hasc. rewrite Hsplit in Hasc.
  destruct (ascending_app_inv _ _ Hasc) as (_ & Hrest & _).
  assert (Hpage : ascending (firstn P rest)).
  { rewrite <- (firstn_skipn P rest) in Hrest.
    now apply ascending_app_inv in Hrest. }
  unfold cursor_after. destruct (last_item done) as [d|] eqn:Hlast.
  - cbn [option_map Scheduler.page_query].
    rewrite table_truthy.
    + unfold sa.rows. cbn.
      rewrite (filter_ext _ _ (where_eligible_beyond (orm.Deployment.id d))).
      rewrite filter_andb, <- filter_sort_by.
      fold (active_schedules table). rewrite Hsplit.
      rewrite (filter_beyond_cursor _ _ _ Hasc Hlast).
      now apply unique_ascending.
    + apply active_schedules_in. rewrite Hsplit. apply in_or_app. left.
      now apply last_item_in.
  - destruct done as [|x done].
    + cbn in Hsplit. unfold sa.rows. cbn.
      rewrite (filter_ext _ _ where_eligible).
      fold (active_schedules table). rewrite Hsplit.
      now apply unique_ascending.
    + exfalso. destruct (last_item_nonempty (x :: done)) as (d & Hd);
        [discriminate | congruence].
Qed.

Lemma ahead_length (done rest : list orm.Deployment.t) :
  active_schedules table = done ++ rest ->
  length (ahead table (cursor_after done)) = length rest.
Proof.
  intros Hsplit.
  pose proof active_schedules_ascending as Hasc. rewrite Hsplit in Hasc.
  unfold cursor_after, ahead.
  destruct (last_item done) as [d|] eqn:Hlast; cbn [option_map].
  - rewrite (Permutation_length (sort_by_permutation orm.Deployment.id _)).
    rewrite <- filter_sort_by. fold (active_schedules table).
    rewrite Hsplit. now rewrite (filter_beyond_cursor _ _ _ Hasc Hlast).
  - destruct done as [|x done].
    + rewrite (Permutation_length active_schedules_permutation).
      now rewrite Hsplit.
    + exfalso. destruct (last_item_nonempty (x :: done)) as (d & Hd);
        [discriminate | congruence].
Qed.

End Paging.






Section Cursors.

Variable table : list orm.Deployment.t.
Hypothesis table_nodup : NoDup (map orm.Deployment.id table).

Lemma cursor_after_lt (done page : list orm.Deployment.t)
    (d : orm.Deployment.t) :
  ascending (done ++ page) -> last_item page = Some d ->
  cursor_lt (cursor_after done) (Some (orm.Deployment.id d)).
Proof.
  intros Hasc Hlast. unfold cursor_after.
  destruct (last_item done) as [d0|] eqn:Hdone; cbn; [|exact I].
  destruct (ascending_app_inv _ _ Hasc) as (_ & _ & Hcross).
  apply Hcross; now apply last_item_in.
Qed.

(** Along an ideal pagination the cursor moves strictly forward and the
    deployments ahead of it become strictly fewer. *)
Lemma paginate_cursors (fuel P : nat) (done rest : list orm.Deployment.t) :
  0 < P -> active_schedules table = done ++ rest ->
  Sorted cursor_lt (map fst (paginate fuel P (cursor_after done) rest)) /\
  Sorted (shrinks table) (map fst (paginate fuel P (cursor_after done) rest)).
Proof.
  intros HP. revert done rest.
  induction fuel as [|fuel IH]; intros done rest Hsplit; cbn [paginate map];
    [split; constructor|].
  destruct (Nat.ltb_spec (length (firstn P rest)) P) as [Hshort|Hfull];
    [split; repeat constructor|].
  destruct (last_item (firstn P rest)) as [d|] eqn:Hlast;
    [|split; repeat constructor].
  assert (Hsplit' :
    active_schedules table = (done ++ firstn P rest) ++ skipn P rest).
  { now rewrite <- app_assoc, firstn_skipn. }
  assert (Hcursor :
    cursor_after (done ++ firstn P rest) = Some (orm.Deployment.id d)).
  { unfold cursor_after. rewrite last_item_app, Hlast; [reflexivity|].
    intros Hnil. rewrite Hnil in Hlast. discriminate. }
  destruct (IH _ _ Hsplit') as (IHlt & IHshrinks).
  rewrite Hcursor in IHlt, IHshrinks.
  pose proof (active_schedules_ascending table table_nodup) as Hasc.
  rewrite Hsplit' in Hasc.
  destruct (ascending_app_inv _ _ Hasc) as (Hasc' & _ & _).
  split; (constructor; [assumption|]).
  - destruct fuel; cbn; constructor.
    now apply (cursor_after_lt done (firstn P rest)).
  - destruct fuel; cbn; constructor. unfold shrinks.
    rewrite (ahead_length table table_nodup done rest Hsplit).
    rewrite <- Hcursor.
    rewrite (ahead_length table table_nodup _ _ Hsplit').
    rewrite length_skipn. rewrite length_firstn in Hfull. lia.
Qed.

End Cursors.

(* ===================================================================== *)
(** * One invocation of the scheduler *)
(* ===================================================================== *)

Section Traces.

Context {Run : Type}.

Local Abbreviation event := (Scheduler.event Run).

Lemma in_page_queries (evs : list event) :
  Forall (fun ev => in_page ev = true) evs -> queries evs = [].
Proof.
  induction 1 as [|ev evs Hev _ IH]; [reflexivity|].
  unfold queries in *. cbn. rewrite IH. now destruct ev.
Qed.

Lemma in_page_reported (evs : list event) :
  Forall (fun ev => in_page ev = true) evs -> reported evs = [].
Proof.
  induction 1 as [|ev evs Hev _ IH]; [reflexivity|].
  unfold reported in *. cbn. rewrite IH. now destruct ev.
Qed.

Lemma until_next_page_app (body tr : list event) :
  Forall (fun ev => in_page ev = true) body ->
  until_next_page (body ++ tr) = body ++ until_next_page tr.
Proof.
  induction 1 as [|ev body Hev _ IH]; cbn; [reflexivity|].
  now rewrite Hev, IH.
Qed.

Lemma page_segments_app (body tr : list event) :
  Forall (fun ev => in_page ev = true) body ->
  page_segments (body ++ tr) = page_segments tr.
Proof.
  induction 1 as [|ev body Hev _ IH]; cbn; [reflexivity|].
  rewrite IH. now destruct ev.
Qed.

Lemma until_next_page_log (tr : list event) (n : nat) :
  until_next_page (tr ++ [Scheduler.LogInfo n]) = until_next_page tr.
Proof.
  induction tr as [|ev tr IH]; cbn; [reflexivity|].
  now rewrite IH.
Qed.

Lemma page_segments_log (tr : list event) (n : nat) :
  page_segments (tr ++ [Scheduler.LogInfo n]) = page_segments tr.
Proof.
  induction tr as [|ev tr IH]; cbn; [reflexivity|].
  rewrite IH, until_next_page_log. reflexivity.
Qed.

Lemma queries_app (tr tr' : list event) :
  queries (tr ++ tr') = queries tr ++ queries tr'.
Proof. apply flat_map_app. Qed.

Lemma visited_app (tr tr' : list event) :
  visited (tr ++ tr') = visited tr ++ visited tr'.
Proof. apply flat_map_app. Qed.

Lemma candidates_app (tr tr' : list event) :
  candidates (tr ++ tr') = candidates tr ++ candidates tr'.
Proof. apply flat_map_app. Qed.

Lemma offered_app (tr tr' : list event) :
  offered (tr ++ tr') = offered tr ++ offered tr'.
Proof. apply flat_map_app. Qed.

Lemma inserted_app (tr tr' : list event) :
  inserted (tr ++ tr') = inserted tr ++ inserted tr'.
Proof. apply flat_map_app. Qed.

Lemma reported_app (tr tr' : list event) :
  reported (tr ++ tr') = reported tr ++ reported tr'.
Proof. apply flat_map_app. Qed.

Lemma raising_app (tr tr' : list event) :
  raising (tr ++ tr') = raising tr || raising tr'.
Proof. apply existsb_app. Qed.

Lemma advance_advance (w : Scheduler.World Run) (t1 t2 : list Run)
    (e1 e2 : list event) :
  advance (advance w t1 e1) t2 e2 = advance w t2 (e1 ++ e2).
Proof. unfold advance. cbn. now rewrite app_assoc. Qed.

Lemma advance_nothing (w : Scheduler.World Run) :
  advance w (Scheduler.flow_runs (Scheduler.session w)) [] = w.
Proof.
  destruct w as [c [d f] t]. unfold advance. cbn. now rewrite app_nil_r.
Qed.

Lemma emit_advance (ev : event) (w : Scheduler.World Run) :
  Scheduler.emit Run ev w =
  advance w (Scheduler.flow_runs (Scheduler.session w)) [ev].
Proof. destruct w as [c [d f] t]. reflexivity. Qed.

End Traces.

Section Invocation.

Context {Run : Type}.

Variable truthy : UUID -> bool.
Variable _generate_scheduled_flow_runs :
  Scheduler.Database Run -> UUID -> datetime -> datetime -> Z ->
  result (list Run).
Variable _insert_scheduled_flow_runs :
  list Run -> list Run -> result (list Run * list Run).
Variable scheduler_insert_batch_size : nat.
Variable self : Scheduler.t.
Variable now : datetime.

Local Abbreviation event := (Scheduler.event Run).
Local Abbreviation World := (Scheduler.World Run).
Local Abbreviation collect_runs :=
  (Scheduler.collect_runs Run _generate_scheduled_flow_runs self now).
Local Abbreviation insert_batches :=
  (Scheduler.insert_batches Run _insert_scheduled_flow_runs).
Local Abbreviation while_true fuel :=
  (Scheduler.while_true Run truthy _generate_scheduled_flow_runs
     _insert_scheduled_flow_runs scheduler_insert_batch_size fuel self now).
Local Abbreviation P := (Scheduler.deployment_batch_size self).

Lemma generate_run (id : UUID) (start_time end_time : datetime)
    (max_runs : Z) (w : World) :
  Scheduler.generate Run _generate_scheduled_flow_runs id start_time end_time
    max_runs w =
  match
    _generate_scheduled_flow_runs (Scheduler.session w) id start_time
      end_time max_runs
  with
  | Ok runs =>
      (Scheduler.Returned runs,
       advance w (Scheduler.flow_runs (Scheduler.session w))
         [Scheduler.Generate id start_time end_time max_runs (Ok runs)])
  | Raise e =>
      (Scheduler.Raised e,
       advance w (Scheduler.flow_runs (Scheduler.session w))
         [Scheduler.Generate id start_time end_time max_runs (Raise e)])
  end.
Proof.
  unfold Scheduler.generate. cbv zeta. rewrite emit_advance.
  now destruct (_generate_scheduled_flow_runs _ _ _ _ _).
Qed.

Lemma insert_run (batch : list Run) (w : World) :
  Scheduler.insert Run _insert_scheduled_flow_runs batch w =
  match
    _insert_scheduled_flow_runs (Scheduler.flow_runs (Scheduler.session w))
      batch
  with
  | Ok (runs, table) =>
      (Scheduler.Returned runs,
       advance w table [Scheduler.Insert batch (Ok runs)])
  | Raise e =>
      (Scheduler.Raised e,
       advance w (Scheduler.flow_runs (Scheduler.session w))
         [Scheduler.Insert batch (Raise e)])
  end.
Proof.
  unfold Scheduler.insert.
  destruct (_insert_scheduled_flow_runs _ _) as [[runs table]|e].
  - reflexivity.
  - now rewrite emit_advance.
Qed.

Lemma flush_run (w : World) :
  Scheduler.flush Run w =
  (Scheduler.Returned tt,
   advance w (Scheduler.flow_runs (Scheduler.session w)) [Scheduler.Flush]).
Proof. unfold Scheduler.flush. now rewrite emit_advance. Qed.

(** The loop over the deployments of a page: it only calls the
    generator, and stops at the first call that raises. *)
Lemma collect_runs_run (page : list orm.Deployment.t) (all_runs : list Run)
    (w w' : World) (o : Scheduler.outcome (list Run)) :
  collect_runs page all_runs w = (o, w') ->
  exists evs,
    w' = advance w (Scheduler.flow_runs (Scheduler.session w)) evs /\
    Forall (fun ev => in_page ev = true) evs /\
    offered evs = [] /\ inserted evs = [] /\
    match o with
    | Scheduler.Returned runs =>
        raising evs = false /\
        visited evs = map orm.Deployment.id page /\
        runs = all_runs ++ candidates evs
    | Scheduler.Raised _ => raising evs = true
    | Scheduler.Running => False
    end.
Proof.
  revert all_runs w. induction page as [|d page IH]; intros all_runs w Hrun.
  - injection Hrun as <- <-. exists [].
    rewrite advance_nothing, app_nil_r. repeat split; auto.
  - cbn [Scheduler.collect_runs] in Hrun. unfold Scheduler.bind at 1 in Hrun.
    rewrite generate_run in Hrun.
    destruct (_generate_scheduled_flow_runs _ _ _ _ _) as [runs|e] eqn:Hgen.
    + apply IH in Hrun as (evs & Hw & Hbody & Hoff & Hins & Hout).
      rewrite advance_advance in Hw.
      eexists (_ :: evs). split; [exact Hw|].
      repeat split; auto.
      destruct o as [runs'| |]; auto.
      destruct Hout as (Hr & Hv & Hruns). repeat split.
      * exact Hr.
      * unfold visited in *. cbn. now rewrite Hv.
      * unfold candidates in *. cbn. now rewrite Hruns, <- app_assoc.
    + injection Hrun as <- <-. eexists [_]. repeat split; auto.
Qed.

(** The loop over the chunks: it only calls the insert and flushes, and
    stops at the first call that raises. *)
Lemma insert_batches_run (batches : list (list Run)) (total : nat)
    (w w' : World) (o : Scheduler.outcome nat) :
  insert_batches batches total w = (o, w') ->
  exists evs table,
    w' = advance w table evs /\
    Forall (fun ev => in_page ev = true) evs /\
    visited evs = [] /\ candidates evs = [] /\
    (exists k, offered evs = firstn k batches) /\
    match o with
    | Scheduler.Returned n =>
        raising evs = false /\
        offered evs = batches /\
        n = total + length (inserted evs)
    | Scheduler.Raised _ => raising evs = true
    | Scheduler.Running => False
    end.
Proof.
  revert total w. induction batches as [|batch batches IH];
    intros total w Hrun.
  - injection Hrun as <- <-.
    exists [], (Scheduler.flow_runs (Scheduler.session w)).
    rewrite advance_nothing. repeat split; auto. now exists 0.
  - cbn [Scheduler.insert_batches] in Hrun.
    unfold Scheduler.bind at 1 in Hrun. rewrite insert_run in Hrun.
    destruct (_insert_scheduled_flow_runs _ batch) as [[runs table]|e]
      eqn:Hins.
    + unfold Scheduler.bind at 1 in Hrun.
      rewrite flush_run, advance_advance in Hrun.
      cbn [advance Scheduler.session Scheduler.flow_runs app] in Hrun.
      fold (advance w table
              [Scheduler.Insert batch (Ok runs); Scheduler.Flush]) in Hrun.
      apply IH in Hrun
        as (evs & table' & Hw & Hbody & Hvis & Hcand & (k & Hk) & Hout).
      rewrite advance_advance in Hw.
      exists (Scheduler.Insert batch (Ok runs) :: Scheduler.Flush :: evs),
        table'.
      split; [exact Hw|]. repeat split; auto.
      * exists (S k). unfold offered in *. cbn. now rewrite Hk.
      * destruct o as [n| |]; auto.
        destruct Hout as (Hr & Hoff & Hn). repeat split.
        -- exact Hr.
        -- unfold offered in *. cbn. now rewrite Hoff.
        -- unfold inserted in *. cbn. rewrite length_app. lia.
    + injection Hrun as <- <-.
      exists [Scheduler.Insert batch (Raise e)],
        (Scheduler.flow_runs (Scheduler.session w)).
      repeat split; auto. now exists 1.
Qed.

Lemma execute_run (c : option UUID) (query : sa.Select orm.Deployment.t)
    (w : World) :
  Scheduler.execute Run c query w =
  let page :=
    unique (sa.rows query (Scheduler.deployments (Scheduler.session w))) in
  (Scheduler.Returned page,
   advance w (Scheduler.flow_runs (Scheduler.session w))
     [Scheduler.Execute c page]).
Proof. unfold Scheduler.execute. cbv zeta. now rewrite emit_advance. Qed.

(** One turn of the loop: the statement, the body of the page, and then
    the loop returns, raises or goes on from the page's last row. *)
Lemma while_true_step (fuel : nat) (c : option UUID) (total : nat)
    (w w' : World) (o : Scheduler.outcome nat) :
  while_true (S fuel) c total w = (o, w') ->
  let page :=
    unique
      (sa.rows (Scheduler.page_query truthy self c)
         (Scheduler.deployments (Scheduler.session w))) in
  exists body table,
    let w1 := advance w table (Scheduler.Execute c page :: body) in
    let total' := total + length (inserted body) in
    Forall (fun ev => in_page ev = true) body /\
    Forall (fun batch => length batch <= scheduler_insert_batch_size)
      (offered body) /\
    ((raising body = true /\ (exists e, o = Scheduler.Raised e) /\ w' = w1) \/
     (raising body = false /\
      visited body = map orm.Deployment.id page /\
      (0 < scheduler_insert_batch_size ->
       concat (offered body) = candidates body) /\
      ((length page < P /\ o = Scheduler.Returned total' /\ w' = w1) \/
       (P <= length page /\ last_item page = None /\
        o = Scheduler.Raised IndexError /\ w' = w1) \/
       (P <= length page /\
        exists d, last_item page = Some d /\
          while_true fuel (Some (orm.Deployment.id d)) total' w1 = (o, w'))))).
Proof.
  intros Hrun page. cbn [Scheduler.while_true] in Hrun.
  unfold Scheduler.bind at 1 in Hrun. rewrite execute_run in Hrun.
  cbv zeta in Hrun. fold page in Hrun.
  unfold Scheduler.bind at 1 in Hrun.
  destruct (collect_runs page [] _) as [o1 w1] eqn:Hcollect.
  apply collect_runs_run in Hcollect
    as (gen_evs & -> & Hgen_body & Hgen_off & Hgen_ins & Hgen).
  rewrite advance_advance in Hrun. cbn [app] in Hrun.
  cbn [advance Scheduler.session Scheduler.flow_runs] in Hrun.
  fold (advance w (Scheduler.flow_runs (Scheduler.session w))
          (Scheduler.Execute c page :: gen_evs)) in Hrun.
  destruct o1 as [all_runs|e|]; [|injection Hrun as <- <-|contradiction].
  - destruct Hgen as (Hgen_raise & Hgen_vis & Hall). cbn [app] in Hall.
    unfold Scheduler.bind at 1 in Hrun.
    destruct (insert_batches _ total _) as [o2 w2] eqn:Hinsert.
    apply insert_batches_run in Hinsert
      as (ins_evs & table & -> & Hins_body & Hins_vis & Hins_cand &
          (k & Hk) & Hins).
    rewrite advance_advance in Hrun. cbn [app] in Hrun.
    exists (gen_evs ++ ins_evs), table. cbn zeta.
    rewrite offered_app, Hgen_off, inserted_app, Hgen_ins, raising_app,
      visited_app, candidates_app, Hins_vis, Hins_cand, Hgen_raise,
      !app_nil_r.
    cbn [app orb].
    split; [now apply Forall_app|].
    split.
    { rewrite Hk. apply Forall_prefix. apply batched_iterable_bound. }
    destruct o2 as [n|e|]; [|injection Hrun as <- <-|contradiction].
    + destruct Hins as (Hins_raise & Hoff & ->). right.
      repeat split; auto.
      * intros Hsize. rewrite Hoff, Hall.
        now apply batched_iterable_concat.
      * destruct (Nat.ltb_spec (length page) P) as [Hshort|Hfull].
        -- left. injection Hrun as <- <-. auto.
        -- right. destruct (last_item page) as [d|] eqn:Hlast.
           ++ right. split; [assumption|]. now exists d.
           ++ left. injection Hrun as <- <-. auto.
    + left. repeat split; eauto.
  - exists gen_evs, (Scheduler.flow_runs (Scheduler.session w)). cbn zeta.
    rewrite Hgen_off. split; [assumption|]. split; [constructor|].
    left. repeat split; eauto.
Qed.

Lemma page_segment_head (c : option UUID) (page : list orm.Deployment.t)
    (body tail : list event) :
  Forall (fun ev => in_page ev = true) body ->
  until_next_page tail = [] ->
  page_segments (Scheduler.Execute c page :: body ++ tail) =
  (Scheduler.Execute c page :: body) :: page_segments tail.
Proof.
  intros Hbody Htail. cbn [page_segments].
  rewrite until_next_page_app, Htail, app_nil_r by assumption.
  now rewrite page_segments_app.
Qed.

Lemma page_ok_body (c : option UUID) (page : list orm.Deployment.t)
    (body : list event) :
  Forall (fun batch => length batch <= scheduler_insert_batch_size)
    (offered body) ->
  (raising body = false -> concat (offered body) = candidates body) ->
  page_ok scheduler_insert_batch_size (Scheduler.Execute c page :: body).
Proof. intros Hbound Hcat. split; assumption. Qed.

(** What the loop leaves behind: nothing committed, the deployments
    untouched, a trace made of whole pages, and an exception whenever a
    collaborator raised. *)
Lemma while_true_run (fuel : nat) (c : option UUID) (total : nat)
    (w w' : World) (o : Scheduler.outcome nat) :
  while_true fuel c total w = (o, w') ->
  exists evs table,
    w' = advance w table evs /\
    reported evs = [] /\
    until_next_page evs = [] /\
    (raising evs = true -> exists e, o = Scheduler.Raised e) /\
    (0 < scheduler_insert_batch_size ->
     Forall (page_ok scheduler_insert_batch_size) (page_segments evs)).
Proof.
  revert c total w. induction fuel as [|fuel IH]; intros c total w Hrun.
  - injection Hrun as <- <-.
    exists [], (Scheduler.flow_runs (Scheduler.session w)).
    rewrite advance_nothing. repeat split; auto. discriminate.
  - apply while_true_step in Hrun as (body & table & Hrun). cbv zeta in Hrun.
    destruct Hrun as (Hbody & Hbound & Hrun).
    set (page := unique _) in *.
    assert (Hone :
      (raising body = false ->
       0 < scheduler_insert_batch_size ->
       concat (offered body) = candidates body) ->
      (raising body = true -> exists e, o = Scheduler.Raised e) ->
      w' = advance w table (Scheduler.Execute c page :: body) ->
      exists evs table0,
        w' = advance w table0 evs /\
        reported evs = [] /\
        until_next_page evs = [] /\
        (raising evs = true -> exists e, o = Scheduler.Raised e) /\
        (0 < scheduler_insert_batch_size ->
         Forall (page_ok scheduler_insert_batch_size) (page_segments evs))).
    { intros Hcat Hraise ->.
      exists (Scheduler.Execute c page :: body), table.
      repeat split; auto.
      - unfold reported. cbn. now apply in_page_reported.
      - intros Hsize.
        rewrite <- (app_nil_r body), page_segment_head by auto.
        constructor; [|constructor].
        apply page_ok_body; auto. }
    destruct Hrun as [(Hr & He & Hw)|(Hr & Hvis & Hcat & Hrun)].
    + apply Hone; auto. congruence.
    + destruct Hrun as [(_ & -> & Hw)|[(_ & _ & -> & Hw)|(_ & d & _ & Hrun)]].
      * apply Hone; auto. congruence.
      * apply Hone; auto. congruence.
      * apply IH in Hrun as (evs & table' & -> & Hrep & Hnext & Hraise & Hok).
        rewrite advance_advance.
        exists ((Scheduler.Execute c page :: body) ++ evs), table'.
        repeat split; auto.
        -- rewrite reported_app, Hrep, app_nil_r. unfold reported. cbn.
           now apply in_page_reported.
        -- rewrite raising_app. unfold raising at 1. cbn [existsb raises orb].
           fold (raising body). now rewrite Hr.
        -- intros Hsize. cbn [app]. rewrite page_segment_head by auto.
           constructor; [|auto]. apply page_ok_body; auto.
Qed.

Lemma invoke_unfold (fuel : nat) (db : Scheduler.Database Run) :
  Scheduler.invoke Run truthy _generate_scheduled_flow_runs
    _insert_scheduled_flow_runs scheduler_insert_batch_size self fuel now db =
  match while_true fuel None 0 (initial db) with
  | (Scheduler.Returned n, w') =>
      (Scheduler.Returned tt,
       {| Scheduler.committed := Scheduler.session w';
          Scheduler.session := Scheduler.session w';
          Scheduler.trace := Scheduler.trace w' ++ [Scheduler.LogInfo n] |})
  | (Scheduler.Raised e, w') =>
      (Scheduler.Raised e,
       {| Scheduler.committed := Scheduler.committed w';
          Scheduler.session := Scheduler.committed w';
          Scheduler.trace := Scheduler.trace w' |})
  | (Scheduler.Running, w') =>
      (Scheduler.Running,
       {| Scheduler.committed := Scheduler.committed w';
          Scheduler.session := Scheduler.committed w';
          Scheduler.trace := Scheduler.trace w' |})
  end.
Proof.
  unfold Scheduler.invoke, Scheduler.run_once, Scheduler.bind,
    Scheduler.session_begin, initial.
  cbn [Scheduler.committed Scheduler.trace].
  now destruct (Scheduler.while_true _ _ _ _ _ _ _ _ _ _ _) as [[n|e|] w'].
Qed.

Local Abbreviation invoke :=
  (Scheduler.invoke Run truthy _generate_scheduled_flow_runs
     _insert_scheduled_flow_runs scheduler_insert_batch_size self).

(** C4. If a call to the schedule generator or to the bulk insert raises
    during an invocation, the invocation ends with that exception and the
    committed database is the one it started from: no row of any page,
    the pages already processed included, is committed. *)
Theorem C4_error_commits_nothing (fuel : nat) (db : Scheduler.Database Run) :
  raising (Scheduler.trace (snd (invoke fuel now db))) = true ->
  (exists e, fst (invoke fuel now db) = Scheduler.Raised e) /\
  Scheduler.committed (snd (invoke fuel now db)) = db.
Proof.
  rewrite invoke_unfold.
  destruct (while_true fuel None 0 (initial db)) as [o w'] eqn:Hrun.
  apply while_true_run in Hrun
    as (evs & table & -> & _ & _ & Hraise & _).
  destruct o as [n|e|]; cbn [fst snd Scheduler.trace Scheduler.committed
    advance initial app]; intros Hr.
  - rewrite raising_app in Hr. cbn in Hr. rewrite orb_false_r in Hr.
    destruct (Hraise Hr) as (e & [=]).
  - split; [now exists e | reflexivity].
  - destruct (Hraise Hr) as (e & [=]).
Qed.

(** The statements the loop executes are those of the ideal pagination
    of the deployments not yet paged through: all of them when the loop
    returns, the first of them when a collaborator raises. *)
Lemma while_true_pages (table : list orm.Deployment.t) (fuel : nat)
    (done rest : list orm.Deployment.t) (total : nat) (w w' : World)
    (o : Scheduler.outcome nat) :
  NoDup (map orm.Deployment.id table) ->
  (forall d, In d table -> truthy (orm.Deployment.id d) = true) ->
  0 < P ->
  Scheduler.deployments (Scheduler.session w) = table ->
  active_schedules table = done ++ rest ->
  while_true fuel (cursor_after done) total w = (o, w') ->
  exists evs runs,
    w' = advance w runs evs /\
    (exists k,
       queries evs = firstn k (paginate fuel P (cursor_after done) rest)) /\
    (o = Scheduler.Running -> fuel * P <= length rest) /\
    (forall n, o = Scheduler.Returned n ->
       queries evs = paginate fuel P (cursor_after done) rest /\
       visited evs = map orm.Deployment.id rest).
Proof.
  intros Hnodup Htruthy HP.
  revert done rest total w.
  induction fuel as [|fuel IH]; intros done rest total w Htable Hsplit Hrun.
  - injection Hrun as <- <-.
    exists [], (Scheduler.flow_runs (Scheduler.session w)).
    rewrite advance_nothing. repeat split; try discriminate.
    + now exists 0.
    + lia.
  - apply while_true_step in Hrun as (body & runs & Hrun). cbv zeta in Hrun.
    rewrite Htable in Hrun.
    rewrite (page_at_cursor truthy self _ Hnodup Htruthy done rest Hsplit)
      in Hrun.
    destruct Hrun as (Hbody & _ & Hrun).
    assert (Hq : queries (Scheduler.Execute (cursor_after done)
                            (firstn P rest) :: body)
                 = [(cursor_after done, firstn P rest)]).
    { unfold queries. cbn. fold (queries body).
      now rewrite in_page_queries. }
    destruct Hrun as [(_ & (e & ->) & ->)|(_ & Hvis & _ & Hrun)].
    + eexists _, runs. split; [reflexivity|]. rewrite Hq.
      repeat split; try discriminate. now exists 1.
    + destruct Hrun as [(Hshort & -> & ->)|[(Hfull & Hlast & _)|
                        (Hfull & d & Hlast & Hrun)]].
      * eexists _, runs. split; [reflexivity|]. rewrite Hq.
        cbn [paginate]. apply Nat.ltb_lt in Hshort as Hshort'.
        rewrite Hshort'. repeat split; try discriminate.
        -- now exists 1.
        -- unfold visited. cbn. fold (visited body). rewrite Hvis.
           rewrite length_firstn in Hshort.
           now rewrite firstn_all2 by lia.
      * exfalso. destruct (firstn P rest) eqn:Hpage; cbn in Hfull; [lia|].
        destruct (last_item_nonempty (t :: l)) as (d & Hd);
          [discriminate | congruence].
      * assert (Hsplit' :
          active_schedules table = (done ++ firstn P rest) ++ skipn P rest).
        { now rewrite <- app_assoc, firstn_skipn. }
        assert (Hcursor :
          cursor_after (done ++ firstn P rest) =
          Some (orm.Deployment.id d)).
        { unfold cursor_after. rewrite last_item_app, Hlast; [reflexivity|].
          intros Hnil. rewrite Hnil in Hlast. discriminate. }
        rewrite <- Hcursor in Hrun.
        eapply (IH (done ++ firstn P rest) (skipn P rest)) in Hrun
          as (evs & runs' & -> & (k & Hk) & Hrunning & Hret);
          [|exact Htable|exact Hsplit'].
        rewrite advance_advance. eexists _, runs'.
        split; [reflexivity|]. rewrite queries_app, Hq.
        cbn [paginate app]. apply Nat.ltb_ge in Hfull as Hfull'.
        rewrite Hfull', Hlast, <- Hcursor.
        repeat split.
        -- exists (S k). cbn. now rewrite Hk.
        -- intros Ho. specialize (Hrunning Ho).
           rewrite length_skipn in Hrunning.
           rewrite length_firstn in Hfull. cbn. lia.
        -- destruct (Hret n H) as (-> & _). reflexivity.
        -- destruct (Hret n H) as (_ & Hv).
           unfold visited in *. cbn [flat_map app].
           rewrite flat_map_app, Hvis, Hv, <- map_app.
           now rewrite firstn_skipn.
Qed.

Lemma active_schedules_length (table : list orm.Deployment.t) :
  length (active_schedules table) = length (filter eligible table).
Proof.
  symmetry. apply Permutation_length. apply sort_by_permutation.
Qed.


(** C10. On a finite table of deployments whose identifiers are distinct
    and true in a condition, with a positive page size, the loop of
    [run_once] ends within one turn more than the number of full pages:
    the invocation returns or raises.  From one statement to the next
    the cursor strictly increases, and strictly fewer deployments lie
    ahead of it. *)
Theorem C10_pagination_terminates (fuel : nat) (db : Scheduler.Database Run) :
  let table := Scheduler.deployments db in
  NoDup (map orm.Deployment.id table) ->
  (forall d, In d table -> truthy (orm.Deployment.id d) = true) ->
  0 < P ->
  length (filter eligible table) / P < fuel ->
  fst (invoke fuel now db) <> Scheduler.Running /\
  Sorted cursor_lt (cursors (Scheduler.trace (snd (invoke fuel now db)))) /\
  Sorted (shrinks table)
    (cursors (Scheduler.trace (snd (invoke fuel now db)))).
Proof.
  intros table Hnodup Htruthy HP Hfuel. rewrite invoke_unfold.
  destruct (while_true fuel None 0 (initial db)) as [o w'] eqn:Hrun.
  apply (while_true_pages table fuel [] (active_schedules table)) in Hrun
    as (evs & runs & -> & (k & Hk) & Hrunning & _); auto.
  assert (Hcursors :
    Sorted cursor_lt (cursors evs) /\ Sorted (shrinks table) (cursors evs)).
  { unfold cursors. rewrite Hk, <- firstn_map.
    destruct (paginate_cursors table Hnodup fuel P []
                (active_schedules table) HP eq_refl) as (Hlt & Hshrinks).
    split; now apply Sorted_prefix. }
  assert (Hlog : forall n,
    cursors (evs ++ [Scheduler.LogInfo n]) = cursors evs).
  { intros n. unfold cursors. rewrite queries_app. cbn.
    now rewrite app_nil_r. }
  destruct o as [n|e|]; cbn [fst snd Scheduler.trace advance initial app];
    rewrite ?Hlog.
  - split; [discriminate | exact Hcursors].
  - split; [discriminate | exact Hcursors].
  - exfalso. specialize (Hrunning eq_refl).
    apply fuel_covers in Hfuel; [|exact HP].
    rewrite active_schedules_length in Hrunning. fold table in Hfuel. lia.
Qed.

End Invocation.

(** The theorem on the example: the generator fails on the second page,
    after the first page was inserted and flushed. *)
Lemma C4_error_commits_nothing_witness :
  raising
    (Scheduler.trace
       (snd (Scheduler.invoke ExampleRun uuid_truthy hourly_but_5 upsert 4
               example_scheduler 10 1000%Z example_db))) = true /\
  Scheduler.committed
    (snd (Scheduler.invoke ExampleRun uuid_truthy hourly_but_5 upsert 4
            example_scheduler 10 1000%Z example_db)) = example_db.
Proof.
  split; [reflexivity|].
  apply (C4_error_commits_nothing uuid_truthy hourly_but_5 upsert 4
           example_scheduler 1000%Z 10 example_db).
  reflexivity.
Defined.

(** The theorem on the example: six deployments in pages of three are
    paged through within three turns of the loop. *)
Lemma C10_pagination_terminates_witness :
  fst (Scheduler.invoke ExampleRun uuid_truthy hourly upsert 4
         example_scheduler 3 1000%Z example_db) <> Scheduler.Running /\
  Sorted cursor_lt
    (cursors
       (Scheduler.trace
          (snd (Scheduler.invoke ExampleRun uuid_truthy hourly upsert 4
                  example_scheduler 3 1000%Z example_db)))) /\
  Sorted (shrinks (Scheduler.deployments example_db))
    (cursors
       (Scheduler.trace
          (snd (Scheduler.invoke ExampleRun uuid_truthy hourly upsert 4
                  example_scheduler 3 1000%Z example_db)))).
Proof.
  apply (C10_pagination_terminates uuid_truthy hourly upsert 4
           example_scheduler 1000%Z 3 example_db).
  - repeat constructor; cbn; lia.
  - reflexivity.
  - cbn. lia.
  - vm_compute. lia.
Defined.




(* ===================================================================== *)
(** * A second invocation *)
(* ===================================================================== *)

Section Idempotence.

Context {Run : Type}.

Variable key : Run -> UUID * datetime.
Variable truthy : UUID -> bool.
Variable _generate_scheduled_flow_runs :
  Scheduler.Database Run -> UUID -> datetime -> datetime -> Z ->
  result (list Run).
Variable _insert_scheduled_flow_runs :
  list Run -> list Run -> result (list Run * list Run).
Variable scheduler_insert_batch_size : nat.
Variable self : Scheduler.t.
Variable now : datetime.

Hypothesis generator_is_deterministic :
  generator_deterministic _generate_scheduled_flow_runs.
Hypothesis insert_is_deduplicating :
  insert_deduplicates key _insert_scheduled_flow_runs.

Local Abbreviation event := (Scheduler.event Run).
Local Abbreviation World := (Scheduler.World Run).
Local Abbreviation collect_runs :=
  (Scheduler.collect_runs Run _generate_scheduled_flow_runs self now).
Local Abbreviation insert_batches :=
  (Scheduler.insert_batches Run _insert_scheduled_flow_runs).
Local Abbreviation while_true fuel :=
  (Scheduler.while_true Run truthy _generate_scheduled_flow_runs
     _insert_scheduled_flow_runs scheduler_insert_batch_size fuel self now).
Local Abbreviation invoke :=
  (Scheduler.invoke Run truthy _generate_scheduled_flow_runs
     _insert_scheduled_flow_runs scheduler_insert_batch_size self).
Local Abbreviation P := (Scheduler.deployment_batch_size self).
Local Abbreviation keys w :=
  (map key (Scheduler.flow_runs (Scheduler.session w))).
Local Abbreviation table_of w :=
  (Scheduler.deployments (Scheduler.session w)).

(** On the same deployments the generator gives the same candidates. *)
Lemma collect_runs_again (page : list orm.Deployment.t)
    (all_runs runs : list Run) (w1 w1' w2 : World) :
  collect_runs page all_runs w1 = (Scheduler.Returned runs, w1') ->
  table_of w2 = table_of w1 ->
  exists evs,
    collect_runs page all_runs w2 =
      (Scheduler.Returned runs,
       advance w2 (Scheduler.flow_runs (Scheduler.session w2)) evs) /\
    inserted evs = [].
Proof.
  revert all_runs w1 w2.
  induction page as [|d page IH]; intros all_runs w1 w2 Hrun Htable.
  - injection Hrun as <- <-. exists []. cbn. now rewrite advance_nothing.
  - cbn [Scheduler.collect_runs] in *. unfold Scheduler.bind at 1 in Hrun.
    unfold Scheduler.bind at 1. rewrite generate_run in *.
    rewrite (generator_is_deterministic (Scheduler.session w2)
               (Scheduler.session w1)) by exact Htable.
    destruct (_generate_scheduled_flow_runs _ _ _ _ _) as [rs|e];
      [|discriminate].
    eapply IH in Hrun as (evs & Hrun2 & Hins).
    + rewrite Hrun2, advance_advance. eexists. split; [reflexivity|].
      exact Hins.
    + exact Htable.
Qed.

(** After the chunks are inserted, the table still has every key it had
    and has the key of every run offered. *)
Lemma insert_batches_keys (batches : list (list Run)) (total n : nat)
    (w w' : World) :
  insert_batches batches total w = (Scheduler.Returned n, w') ->
  table_of w' = table_of w /\
  incl (keys w) (keys w') /\
  Forall (fun batch => incl (map key batch) (keys w')) batches.
Proof.
  destruct insert_is_deduplicating as (Hgrows & _).
  revert total w. induction batches as [|batch batches IH];
    intros total w Hrun.
  - injection Hrun as <- <-. repeat split; auto using incl_refl.
  - cbn [Scheduler.insert_batches] in Hrun.
    unfold Scheduler.bind at 1 in Hrun. rewrite insert_run in Hrun.
    destruct (_insert_scheduled_flow_runs _ batch) as [[runs table]|e]
      eqn:Hins; [|discriminate].
    unfold Scheduler.bind at 1 in Hrun. rewrite flush_run in Hrun.
    apply IH in Hrun as (Htable & Hkeys & Hall).
    apply Hgrows in Hins as (Hold & Hnew).
    cbn [advance Scheduler.session Scheduler.flow_runs
         Scheduler.deployments] in Htable, Hkeys.
    repeat split.
    + exact Htable.
    + eapply incl_tran; eassumption.
    + constructor; [|exact Hall]. eapply incl_tran; eassumption.
Qed.

(** Chunks of runs that are all in the table already: nothing is
    inserted, nothing is counted, the table stays as it is. *)
Lemma insert_batches_again (batches : list (list Run)) (total : nat)
    (w : World) :
  Forall (fun batch => incl (map key batch) (keys w)) batches ->
  exists evs,
    insert_batches batches total w =
      (Scheduler.Returned total,
       advance w (Scheduler.flow_runs (Scheduler.session w)) evs) /\
    inserted evs = [].
Proof.
  destruct insert_is_deduplicating as (_ & Homits).
  revert total w. induction batches as [|batch batches IH];
    intros total w Hall.
  - exists []. cbn. now rewrite advance_nothing.
  - inversion Hall as [|? ? Hbatch Hall']; subst.
    cbn [Scheduler.insert_batches]. unfold Scheduler.bind at 1.
    rewrite insert_run, (Homits _ _ Hbatch).
    unfold Scheduler.bind at 1. rewrite flush_run, advance_advance.
    cbn [advance Scheduler.session Scheduler.flow_runs app length].
    rewrite Nat.add_0_r.
    match goal with
    | |- context [Scheduler.insert_batches _ _ _ _ ?w0] =>
        destruct (IH total w0) as (evs & Hrun & Hins); [exact Hall'|]
    end.
    rewrite Hrun. cbn [advance Scheduler.session Scheduler.flow_runs
      Scheduler.deployments Scheduler.committed Scheduler.trace].
    eexists (_ :: _ :: evs). split.
    + unfold advance. cbn. now rewrite <- app_assoc.
    + exact Hins.
Qed.

Lemma while_true_unfold (fuel : nat) (c : option UUID) (total : nat)
    (w : World) :
  while_true (S fuel) c total w =
  let page :=
    unique (sa.rows (Scheduler.page_query truthy self c) (table_of w)) in
  match
    collect_runs page []
      (advance w (Scheduler.flow_runs (Scheduler.session w))
         [Scheduler.Execute c page])
  with
  | (Scheduler.Returned all_runs, w1) =>
      match
        insert_batches
          (batched_iterable all_runs scheduler_insert_batch_size) total w1
      with
      | (Scheduler.Returned total', w2) =>
          if length page <? P then (Scheduler.Returned total', w2)
          else
            match last_item page with
            | Some d => while_true fuel (Some (orm.Deployment.id d)) total' w2
            | None => (Scheduler.Raised IndexError, w2)
            end
      | (Scheduler.Raised e, w2) => (Scheduler.Raised e, w2)
      | (Scheduler.Running, w2) => (Scheduler.Running, w2)
      end
  | (Scheduler.Raised e, w1) => (Scheduler.Raised e, w1)
  | (Scheduler.Running, w1) => (Scheduler.Running, w1)
  end.
Proof.
  cbn [Scheduler.while_true]. unfold Scheduler.bind at 1.
  rewrite execute_run. cbv zeta. unfold Scheduler.bind at 1.
  destruct (collect_runs _ [] _) as [[all_runs|e|] w1]; try reflexivity.
  unfold Scheduler.bind at 1.
  destruct (insert_batches _ total w1) as [[total'|e|] w2]; try reflexivity.
  unfold Scheduler.ret. destruct (length _ <? P); [reflexivity|].
  now destruct (last_item _).
Qed.

(** A loop that returned leaves a table on which the same loop, run
    again on the same deployments, inserts nothing. *)
Lemma while_true_again (fuel : nat) (c : option UUID) (total n : nat)
    (w1 w1' : World) :
  while_true fuel c total w1 = (Scheduler.Returned n, w1') ->
  table_of w1' = table_of w1 /\
  incl (keys w1) (keys w1') /\
  forall (w2 : World) (total2 : nat),
    table_of w2 = table_of w1 ->
    incl (keys w1') (keys w2) ->
    exists evs,
      while_true fuel c total2 w2 =
        (Scheduler.Returned total2,
         advance w2 (Scheduler.flow_runs (Scheduler.session w2)) evs) /\
      inserted evs = [].
Proof.
  revert c total w1. induction fuel as [|fuel IH]; intros c total w1 Hrun;
    [discriminate|].
  rewrite while_true_unfold in Hrun. cbv zeta in Hrun.
  set (page := unique _) in Hrun.
  destruct (collect_runs page [] _) as [[all_runs|e|] w1a] eqn:Hcollect;
    try discriminate.
  destruct (insert_batches _ total w1a) as [[total'|e|] w1b] eqn:Hinsert;
    try discriminate.
  pose proof Hcollect as Hcollect'.
  apply collect_runs_run in Hcollect' as (gen_evs & -> & _).
  pose proof Hinsert as Hinsert'.
  apply insert_batches_keys in Hinsert' as (Htable & Hkeys & Hall).
  cbn [advance Scheduler.session Scheduler.flow_runs Scheduler.deployments]
    in Htable, Hkeys.
  assert (Hagain : forall (w2 : World) (total2 : nat),
    table_of w2 = table_of w1 ->
    incl (keys w1b) (keys w2) ->
    exists evs,
      insert_batches (batched_iterable all_runs scheduler_insert_batch_size)
        total2
        (snd (collect_runs page []
                (advance w2 (Scheduler.flow_runs (Scheduler.session w2))
                   [Scheduler.Execute c page]))) =
      (Scheduler.Returned total2,
       advance w2 (Scheduler.flow_runs (Scheduler.session w2)) evs) /\
      fst (collect_runs page []
             (advance w2 (Scheduler.flow_runs (Scheduler.session w2))
                [Scheduler.Execute c page])) = Scheduler.Returned all_runs /\
      inserted evs = []).
  { intros w2 total2 Htable2 Hkeys2.
    destruct (collect_runs_again page [] all_runs _ _
                (advance w2 (Scheduler.flow_runs (Scheduler.session w2))
                   [Scheduler.Execute c page]) Hcollect)
      as (evs1 & -> & Hins1); [exact Htable2|].
    cbn [fst snd]. rewrite advance_advance.
    cbn [advance Scheduler.session Scheduler.flow_runs].
    fold (advance w2 (Scheduler.flow_runs (Scheduler.session w2))
            ([Scheduler.Execute c page] ++ evs1)).
    destruct (insert_batches_again
                (batched_iterable all_runs scheduler_insert_batch_size)
                total2
                (advance w2 (Scheduler.flow_runs (Scheduler.session w2))
                   ([Scheduler.Execute c page] ++ evs1)))
      as (evs2 & -> & Hins2).
    { eapply Forall_impl; [|exact Hall]. intros batch Hbatch.
      exact (incl_tran Hbatch Hkeys2). }
    rewrite advance_advance. eexists. split; [reflexivity|].
    split; [reflexivity|].
    rewrite !inserted_app, Hins1, Hins2. reflexivity. }
  assert (Hpage : forall w2 : World,
    table_of w2 = table_of w1 ->
    unique (sa.rows (Scheduler.page_query truthy self c) (table_of w2))
    = page).
  { intros w2 Ht. rewrite Ht. reflexivity. }
  destruct (length page <? P) eqn:Hshort.
  - injection Hrun as <- <-. repeat split; auto.
    intros w2 total2 Htable2 Hkeys2.
    destruct (Hagain w2 total2 Htable2 Hkeys2) as (evs & Hi & Hc & Hins).
    exists evs. split; [|exact Hins].
    rewrite while_true_unfold. cbv zeta. rewrite (Hpage w2 Htable2).
    remember (collect_runs page []
                (advance w2 (Scheduler.flow_runs (Scheduler.session w2))
                   [Scheduler.Execute c page])) as r2 eqn:Hr2.
    clear Hr2. destruct r2 as [o2 w2a]. cbn [fst snd] in Hi, Hc.
    subst o2. now rewrite Hi, Hshort.
  - destruct (last_item page) as [d|] eqn:Hlast; [|discriminate].
    apply IH in Hrun as (Htable' & Hkeys' & Hloop).
    repeat split.
    + congruence.
    + eapply incl_tran; eassumption.
    + intros w2 total2 Htable2 Hkeys2.
      destruct (Hagain w2 total2 Htable2) as (evs & Hi & Hc & Hins).
      { eapply incl_tran; eassumption. }
      destruct (Hloop
                  (advance w2 (Scheduler.flow_runs (Scheduler.session w2)) evs)
                  total2) as (evs' & Hrun2 & Hins').
      { cbn. congruence. }
      { exact Hkeys2. }
      rewrite advance_advance in Hrun2.
      cbn [advance Scheduler.session Scheduler.flow_runs] in Hrun2.
      exists (evs ++ evs'). split; [|now rewrite inserted_app, Hins, Hins'].
      rewrite while_true_unfold. cbv zeta. rewrite (Hpage w2 Htable2).
      remember (collect_runs page []
                  (advance w2 (Scheduler.flow_runs (Scheduler.session w2))
                     [Scheduler.Execute c page])) as r2 eqn:Hr2.
      clear Hr2. destruct r2 as [o2 w2a]. cbn [fst snd] in Hi, Hc.
      subst o2. rewrite Hi, Hshort, Hlast. exact Hrun2.
Qed.

(** C5. With a generator whose answer depends on the deployments alone
    and an insert that omits the runs whose key is already in the table,
    an invocation that returned is followed, on the database it
    committed and at the same captured instant, by an invocation that
    returns too, inserts no run, reports a total of zero and commits the
    database unchanged. *)
Theorem C5_second_invocation_inserts_nothing (fuel : nat)
    (db : Scheduler.Database Run) :
  fst (invoke fuel now db) = Scheduler.Returned tt ->
  let db1 := Scheduler.committed (snd (invoke fuel now db)) in
  Scheduler.deployments db1 = Scheduler.deployments db /\
  fst (invoke fuel now db1) = Scheduler.Returned tt /\
  inserted (Scheduler.trace (snd (invoke fuel now db1))) = [] /\
  reported (Scheduler.trace (snd (invoke fuel now db1))) = [0] /\
  Scheduler.committed (snd (invoke fuel now db1)) = db1.
Proof.
  rewrite (invoke_unfold truthy _ _ _ self now fuel db).
  destruct (while_true fuel None 0 (initial db)) as [o w1'] eqn:Hrun1.
  destruct o as [n|e|]; cbn [fst snd Scheduler.committed]; try discriminate.
  intros _.
  apply while_true_again in Hrun1 as (Htable & _ & Hloop).
  destruct (Hloop (initial (Scheduler.session w1')) 0)
    as (evs & Hrun2 & Hins); [exact Htable | apply incl_refl |].
  pose proof Hrun2 as Hrun2'.
  apply while_true_run in Hrun2' as (evs' & table' & Heq & Hrep & _).
  assert (evs' = evs) as ->.
  { apply (f_equal Scheduler.trace) in Heq. cbn in Heq. congruence. }
  rewrite (invoke_unfold truthy _ _ _ self now fuel (Scheduler.session w1')).
  rewrite Hrun2. cbn [fst snd Scheduler.committed Scheduler.trace advance
    initial Scheduler.session app].
  rewrite inserted_app, reported_app, Hins, Hrep.
  repeat split; auto. now destruct (Scheduler.session w1').
Qed.

End Idempotence.

(* ===================================================================== *)
(** * The example collaborators *)
(* ===================================================================== *)

Lemma same_run_eq (a b : ExampleRun) : same_run a b = true <-> a = b.
Proof.
  destruct a as [a1 a2], b as [b1 b2]. unfold same_run. cbn.
  rewrite andb_true_iff, !Z.eqb_eq. split; [intros [-> ->]|intros [= -> ->]];
    auto.
Qed.

Lemma insert_new_grows (table batch runs table' : list ExampleRun) :
  insert_new table batch = (runs, table') ->
  incl table table' /\ incl batch table'.
Proof.
  revert table runs table'.
  induction batch as [|run batch IH]; intros table runs table' Hins.
  - injection Hins as <- <-. split; [apply incl_refl | intros ? []].
  - cbn [insert_new] in Hins.
    destruct (existsb (same_run run) table) eqn:Hdup.
    + apply IH in Hins as (Hold & Hnew). split; [exact Hold|].
      apply existsb_exists in Hdup as (r & Hr & Heq).
      apply same_run_eq in Heq. subst r.
      intros r [<-|Hr']; auto.
    + destruct (insert_new (table ++ [run]) batch) as [runs0 table0] eqn:Hrec.
      injection Hins as <- <-.
      apply IH in Hrec as (Hold & Hnew). split.
      * intros r Hr. apply Hold. apply in_or_app. now left.
      * intros r [<-|Hr]; [|now apply Hnew].
        apply Hold. apply in_or_app. right. now left.
Qed.

Lemma insert_new_omits (table batch : list ExampleRun) :
  incl batch table -> insert_new table batch = ([], table).
Proof.
  induction batch as [|run batch IH]; intros Hincl; [reflexivity|].
  cbn [insert_new].
  replace (existsb (same_run run) table) with true.
  - apply IH. intros r Hr. apply Hincl. now right.
  - symmetry. apply existsb_exists. exists run.
    split; [apply Hincl; now left | now apply same_run_eq].
Qed.

Lemma hourly_deterministic : generator_deterministic hourly.
Proof. intros db db' id s e m _. reflexivity. Qed.

Lemma upsert_deduplicates : insert_deduplicates (fun run => run) upsert.
Proof.
  split.
  - intros table batch runs table' [= Hins]. rewrite !map_id.
    now apply insert_new_grows in Hins.
  - intros table batch. rewrite !map_id. intros Hincl. unfold upsert.
    now rewrite insert_new_omits.
Qed.

(** The theorem on the example: after a first invocation that inserted
    twelve runs, the second reports none. *)
Lemma C5_second_invocation_inserts_nothing_witness :
  fst (Scheduler.invoke ExampleRun uuid_truthy hourly upsert 4
         example_scheduler 10 1000%Z example_db) = Scheduler.Returned tt /\
  reported
    (Scheduler.trace
       (snd (Scheduler.invoke ExampleRun uuid_truthy hourly upsert 4
               example_scheduler 10 1000%Z example_db))) = [12] /\
  reported
    (Scheduler.trace
       (snd (Scheduler.invoke ExampleRun uuid_truthy hourly upsert 4
               example_scheduler 10 1000%Z
               (Scheduler.committed
                  (snd (Scheduler.invoke ExampleRun uuid_truthy hourly upsert
                          4 example_scheduler 10 1000%Z example_db)))))) =
  [0].
Proof.
  split; [reflexivity|]. split; [reflexivity|].
  apply (C5_second_invocation_inserts_nothing (fun run => run) uuid_truthy
           hourly upsert 4 example_scheduler 1000%Z hourly_deterministic
           upsert_deduplicates 10 example_db).
  reflexivity.
Defined.

(* ===================================================================== *)
(** * Worked examples *)
(* ===================================================================== *)

(** Seven deployments in pages of three: two full pages and a page of
    one, on which the loop stops. *)
Example seven_deployments_in_three_pages :
  map (map orm.Deployment.id)
    (pages
       (Scheduler.trace
          (snd (Scheduler.invoke ExampleRun uuid_truthy hourly upsert 4
                  example_scheduler 10 1000%Z seven_deployments)))) =
  [[1; 2; 3]; [4; 5; 6]; [7]]%Z.
Proof. reflexivity. Qed.

(** A deployment with candidates one and two hours ahead, inserted one
    run at a time: two calls to the insert, two runs reported. *)
Example two_runs_in_two_inserts :
  let w :=
    snd (Scheduler.invoke ExampleRun uuid_truthy hourly upsert 1
           example_scheduler 10 1000%Z one_deployment) in
  offered (Scheduler.trace w) = [[(1, 4600)]; [(1, 8200)]]%Z /\
  reported (Scheduler.trace w) = [2] /\
  Scheduler.flow_runs (Scheduler.committed w) = [(1, 4600); (1, 8200)]%Z.
Proof. repeat split. Qed.

(** Were an identifier false in a condition, the cursor would not be
    applied after it: the loop reads the first page again and again. *)
Example falsy_cursor_repeats_the_first_page :
  let r :=
    Scheduler.invoke ExampleRun int_truthy hourly upsert 4 one_by_one 5
      1000%Z from_zero in
  fst r = Scheduler.Running /\
  map (map orm.Deployment.id) (pages (Scheduler.trace (snd r))) =
  [[0]; [0]; [0]; [0]; [0]]%Z.
Proof. repeat split. Qed.

(* ===================================================================== *)
(** * Further properties of the filters *)
(* ===================================================================== *)

Lemma selects_and_ {E : Type} (l : list (clause E)) (e : E) :
  selects (sa.and_ l) e = forallb (fun c => selects c e) l.
Proof.
  unfold selects, sa.and_. induction l as [|c l IH]; cbn; [reflexivity|].
  now rewrite is_true_sql_and, IH.
Qed.

(** X1. Whatever the filter, [as_sql_filter] selects an entity exactly
    when every clause of [_get_filter_list] selects it: a clause that is
    false or NULL on the entity excludes it, and no clause at all
    excludes nothing. *)
Theorem X1_as_sql_filter_selects_iff_every_clause {E F : Type}
    `{PrefectFilterBaseModel E F} (self : F) (e : E) :
  selects (as_sql_filter self) e =
  forallb (fun c => selects c e) (_get_filter_list self).
Proof.
  unfold selects at 1. rewrite as_sql_filter_and_. apply selects_and_.
Qed.

Lemma in__selects {E V : Type} (eqb : V -> V -> bool) (col : column E V)
    (values : list V) (e : E) :
  (forall a b, eqb a b = true <-> a = b) ->
  is_true (sa.in_ eqb col values e) = true <->
  exists v, col e = Some v /\ In v values.
Proof.
  intros Heqb. unfold sa.in_. destruct values as [|x values].
  - cbn. split; [discriminate | intros (v & _ & [])].
  - destruct (col e) as [v|]; cbn -[existsb In].
    + destruct (existsb (eqb v) (x :: values)) eqn:Hex; cbn.
      * apply existsb_exists in Hex as (y & Hy & Heq).
        apply Heqb in Heq. subst y. split; [|reflexivity].
        intros _. now exists v.
      * split; [discriminate|]. intros (v' & [= <-] & Hin).
        assert (existsb (eqb v) (x :: values) = true); [|congruence].
        apply existsb_exists. exists v. split; [exact Hin | now apply Heqb].
    + split; [discriminate | intros (v & [=] & _)].
Qed.

Lemma single_clause {E : Type} (c : clause E) (e : E) :
  is_true (sa.and_ [c] e) = is_true (c e).
Proof. unfold sa.and_. cbn. now rewrite sql_and_true_r. Qed.

Lemma has_in__selects {E R : Type} (rel : E -> option R) (name : R -> string)
    (values : list string) (e : E) :
  is_true
    (sa.has rel (sa.in_ String.eqb (not_null name) values) e) = true <->
  exists v, option_map name (rel e) = Some v /\ In v values.
Proof.
  unfold sa.has. destruct (rel e) as [r|]; cbn [option_map].
  - destruct (is_true (sa.in_ String.eqb (not_null name) values r)) eqn:Hin;
      cbn.
    + apply (in__selects String.eqb (not_null name) values r String.eqb_eq)
        in Hin as (v & [= <-] & Hv).
      split; [|reflexivity]. intros _. now exists (name r).
    + split; [discriminate|]. intros (v & [= <-] & Hv).
      assert (is_true (sa.in_ String.eqb (not_null name) values r) = true);
        [|congruence].
      apply (in__selects String.eqb (not_null name) values r String.eqb_eq).
      now exists (name r).
  - cbn. split; [discriminate | intros (v & [=] & _)].
Qed.

Lemma membership_intro {E F V : Type} `{PrefectFilterBaseModel E F}
    (mk : option (list V) -> F) (col : column E V)
    (c : list V -> clause E) :
  (forall values, _get_filter_list (mk (Some values)) = [c values]) ->
  (forall values e,
     is_true (c values e) = true <-> exists v, col e = Some v /\ In v values) ->
  membership_contract mk col.
Proof.
  intros Hlist Hc values e. unfold selects.
  rewrite as_sql_filter_and_, Hlist, single_clause. apply Hc.
Qed.

(** X2. A membership leaf with only [any_] set selects exactly the
    entities whose column holds one of the listed values; an entity
    whose column is NULL is never selected.  For a state name the column
    is the name of the related state. *)
Theorem X2_membership_selects_listed_values :
  (membership_contract FlowFilterId.Build_t (not_null orm.Flow.id) /\
   membership_contract FlowFilterName.Build_t (not_null orm.Flow.name)) /\
  (membership_contract (fun any_ => FlowRunFilterId.Build_t any_ None)
     (not_null orm.FlowRun.id) /\
   membership_contract FlowRunFilterName.Build_t (not_null orm.FlowRun.name) /\
   membership_contract
     (fun any_ => FlowRunFilterDeploymentId.Build_t any_ None)
     orm.FlowRun.deployment_id /\
   membership_contract FlowRunFilterStateType.Build_t orm.FlowRun.state_type /\
   membership_contract FlowRunFilterStateName.Build_t FlowRun_state_name /\
   membership_contract FlowRunFilterFlowVersion.Build_t
     orm.FlowRun.flow_version /\
   membership_contract
     (fun any_ => FlowRunFilterParentTaskRunId.Build_t any_ None)
     orm.FlowRun.parent_task_run_id) /\
  (membership_contract TaskRunFilterId.Build_t (not_null orm.TaskRun.id) /\
   membership_contract TaskRunFilterName.Build_t (not_null orm.TaskRun.name) /\
   membership_contract TaskRunFilterStateType.Build_t orm.TaskRun.state_type /\
   membership_contract TaskRunFilterStateName.Build_t TaskRun_state_name) /\
  (membership_contract DeploymentFilterId.Build_t
     (not_null orm.Deployment.id) /\
   membership_contract DeploymentFilterName.Build_t
     (not_null orm.Deployment.name)).
Proof.
  repeat apply conj;
    (eapply membership_intro; [intros values; reflexivity|]);
    intros values e;
    first [ apply (in__selects Z.eqb); apply Z.eqb_eq
          | apply (in__selects String.eqb); apply String.eqb_eq
          | apply has_in__selects ].
Qed.

Lemma not_in_selects {E V : Type} (eqb : V -> V -> bool) (field : E -> V)
    (values : list V) (e : E) :
  (forall a b, eqb a b = true <-> a = b) ->
  is_true (sa.not_in eqb (not_null field) values e) = true <->
  ~ In (field e) values.
Proof.
  intros Heqb. unfold sa.not_in, not_null. destruct values as [|x values].
  - cbn. split; [intros _ [] | reflexivity].
  - cbv beta iota.
    destruct (existsb (eqb (field e)) (x :: values)) eqn:Hex; cbn -[In].
    + apply existsb_exists in Hex as (y & Hy & Heq).
      apply Heqb in Heq. subst y. split; [discriminate | contradiction].
    + split; [|reflexivity]. intros _ Hin.
      assert (existsb (eqb (field e)) (x :: values) = true); [|congruence].
      apply existsb_exists. exists (field e). split; [exact Hin|].
      now apply Heqb.
Qed.

(** X3. The exclusion operator of the flow-run identifier leaf selects
    exactly the flow runs whose identifier is not listed, so that an
    empty exclusion list selects every flow run; with [any_] set as well,
    the identifier must be listed in [any_] and not in [not_any_]. *)
Theorem X3_exclusion_selects_unlisted_identifiers :
  (forall not_any_ e,
     selects (as_sql_filter (FlowRunFilterId.Build_t None (Some not_any_))) e
       = true <->
     ~ In (orm.FlowRun.id e) not_any_) /\
  selects_all (as_sql_filter (FlowRunFilterId.Build_t None (Some []))) /\
  (forall any_ not_any_ e,
     selects
       (as_sql_filter (FlowRunFilterId.Build_t (Some any_) (Some not_any_))) e
       = true <->
     In (orm.FlowRun.id e) any_ /\ ~ In (orm.FlowRun.id e) not_any_).
Proof.
  repeat apply conj.
  - intros not_any_ e. unfold selects. rewrite as_sql_filter_and_.
    cbn [_get_filter_list FlowRunFilterId_model].
    unfold FlowRunFilterId._get_filter_list. cbn [append_if_set app
      FlowRunFilterId.any_ FlowRunFilterId.not_any_].
    rewrite single_clause. apply not_in_selects, Z.eqb_eq.
  - intros e. reflexivity.
  - intros any_ not_any_ e. unfold selects. rewrite as_sql_filter_and_.
    cbn [_get_filter_list FlowRunFilterId_model].
    unfold FlowRunFilterId._get_filter_list. cbn [append_if_set app
      FlowRunFilterId.any_ FlowRunFilterId.not_any_].
    change (sa.and_ [?a; ?b] e) with (sa.and_ ([a] ++ [b]) e).
    rewrite and__app, is_true_sql_and, andb_true_iff, !single_clause.
    rewrite (in__selects Z.eqb _ _ _ Z.eqb_eq),
      (not_in_selects Z.eqb _ _ _ Z.eqb_eq).
    unfold not_null. split.
    + intros ((v & [= <-] & Hin) & Hout). now split.
    + intros (Hin & Hout). split; [|exact Hout]. now exists (orm.FlowRun.id e).
Qed.

Lemma null_check_selects {E V : Type} (col : column E V) (e : E) :
  (is_true (sa.and_ [null_check col true] e) = true <-> col e = None) /\
  (is_true (sa.and_ [null_check col false] e) = true <-> col e <> None).
Proof.
  rewrite !single_clause. unfold null_check, sa.eq_None, sa.ne_None.
  destruct (col e); cbn; split; split; congruence.
Qed.

(** X4. The null check of a nullable column selects, with
    [is_null_ = true], exactly the entities whose column is NULL and,
    with [is_null_ = false], exactly those whose column holds a value:
    the deployment and the parent task run of a flow run, and the start
    time of a flow run and of a task run. *)
Theorem X4_null_check_selects_by_presence :
  null_check_contract (fun is_null_ => FlowRunFilterDeploymentId.Build_t None is_null_)
    orm.FlowRun.deployment_id /\
  null_check_contract
    (fun is_null_ => FlowRunFilterParentTaskRunId.Build_t None is_null_)
    orm.FlowRun.parent_task_run_id /\
  null_check_contract
    (fun is_null_ => FlowRunFilterStartTime.Build_t None None is_null_)
    orm.FlowRun.start_time /\
  null_check_contract
    (fun is_null_ => TaskRunFilterStartTime.Build_t None None is_null_)
    orm.TaskRun.start_time.
Proof.
  repeat apply conj; intros e.
  - exact (null_check_selects orm.FlowRun.deployment_id e).
  - exact (null_check_selects orm.FlowRun.parent_task_run_id e).
  - exact (null_check_selects orm.FlowRun.start_time e).
  - exact (null_check_selects orm.TaskRun.start_time e).
Qed.

Lemma null_and_value {E : Type} (col_clause null_clause : clause E)
    (rest : list (clause E)) (e : E) :
  (is_true (col_clause e) = true -> is_true (null_clause e) = false) ->
  In col_clause rest -> In null_clause rest ->
  selects (sa.and_ rest) e = false.
Proof.
  intros Hexcl Hcol Hnull. rewrite selects_and_.
  destruct (forallb (fun c => selects c e) rest) eqn:Hall; [|reflexivity].
  rewrite forallb_forall in Hall.
  pose proof (Hall _ Hcol) as H1. pose proof (Hall _ Hnull) as H2.
  unfold selects in H1, H2. rewrite (Hexcl H1) in H2. discriminate.
Qed.

Lemma value_excludes_null {E V : Type} (col : column E V)
    (value_clause : clause E) (e : E) :
  (col e = None -> is_true (value_clause e) = false) ->
  is_true (value_clause e) = true ->
  is_true (null_check col true e) = false.
Proof.
  intros Hnull Hvalue. unfold null_check, sa.eq_None.
  destruct (col e); [reflexivity|]. rewrite Hnull in Hvalue; congruence.
Qed.

Lemma in__null {E V : Type} (eqb : V -> V -> bool) (col : column E V)
    (values : list V) (e : E) :
  col e = None -> is_true (sa.in_ eqb col values e) = false.
Proof. intros Hnull. unfold sa.in_. rewrite Hnull. now destruct values. Qed.

Lemma le_null {E : Type} (col : column E datetime) (T : datetime) (e : E) :
  col e = None -> is_true (sa.le col T e) = false.
Proof. intros Hnull. unfold sa.le. now rewrite Hnull. Qed.

Lemma ge_null {E : Type} (col : column E datetime) (T : datetime) (e : E) :
  col e = None -> is_true (sa.ge col T e) = false.
Proof. intros Hnull. unfold sa.ge. now rewrite Hnull. Qed.

(** X5. A leaf that asks at once for a value of the column and for the
    column to be NULL selects no entity: a membership list or a time
    bound together with [is_null_ = true]. *)
Theorem X5_value_and_null_select_nothing :
  (forall any_,
     selects_none
       (as_sql_filter (FlowRunFilterDeploymentId.Build_t (Some any_) (Some true)))) /\
  (forall any_,
     selects_none
       (as_sql_filter
          (FlowRunFilterParentTaskRunId.Build_t (Some any_) (Some true)))) /\
  (forall T after_,
     selects_none
       (as_sql_filter (FlowRunFilterStartTime.Build_t (Some T) after_ (Some true)))) /\
  (forall T before_,
     selects_none
       (as_sql_filter (FlowRunFilterStartTime.Build_t before_ (Some T) (Some true)))) /\
  (forall T after_,
     selects_none
       (as_sql_filter (TaskRunFilterStartTime.Build_t (Some T) after_ (Some true)))) /\
  (forall T before_,
     selects_none
       (as_sql_filter (TaskRunFilterStartTime.Build_t before_ (Some T) (Some true)))).
Proof.
  repeat apply conj.
  - intros any_ e. unfold selects. rewrite as_sql_filter_and_.
    apply (null_and_value
             (sa.in_ Z.eqb orm.FlowRun.deployment_id any_)
             (null_check orm.FlowRun.deployment_id true));
      [|cbn; auto..].
    apply value_excludes_null, in__null.
  - intros any_ e. unfold selects. rewrite as_sql_filter_and_.
    apply (null_and_value
             (sa.in_ Z.eqb orm.FlowRun.parent_task_run_id any_)
             (null_check orm.FlowRun.parent_task_run_id true));
      [|cbn; auto..].
    apply value_excludes_null, in__null.
  - intros T after_ e. unfold selects. rewrite as_sql_filter_and_.
    apply (null_and_value (sa.le orm.FlowRun.start_time T)
             (null_check orm.FlowRun.start_time true));
      [apply value_excludes_null, le_null|destruct after_; cbn; auto..].
  - intros T before_ e. unfold selects. rewrite as_sql_filter_and_.
    apply (null_and_value (sa.ge orm.FlowRun.start_time T)
             (null_check orm.FlowRun.start_time true));
      [apply value_excludes_null, ge_null|destruct before_; cbn; auto..].
  - intros T after_ e. unfold selects. rewrite as_sql_filter_and_.
    apply (null_and_value (sa.le orm.TaskRun.start_time T)
             (null_check orm.TaskRun.start_time true));
      [apply value_excludes_null, le_null|destruct after_; cbn; auto..].
  - intros T before_ e. unfold selects. rewrite as_sql_filter_and_.
    apply (null_and_value (sa.ge orm.TaskRun.start_time T)
             (null_check orm.TaskRun.start_time true));
      [apply value_excludes_null, ge_null|destruct before_; cbn; auto..].
Qed.

Lemma le_selects {E : Type} (col : column E datetime) (T : datetime) (e : E) :
  is_true (sa.le col T e) = true <-> exists t, col e = Some t /\ (t <= T)%Z.
Proof.
  unfold sa.le. destruct (col e) as [t|]; cbn.
  - destruct (Z.leb_spec t T); cbn; split; try discriminate.
    + intros _. now exists t.
    + reflexivity.
    + intros (t' & [= <-] & Hle). lia.
  - split; [discriminate | intros (t & [=] & _)].
Qed.

Lemma ge_selects {E : Type} (col : column E datetime) (T : datetime) (e : E) :
  is_true (sa.ge col T e) = true <-> exists t, col e = Some t /\ (T <= t)%Z.
Proof.
  unfold sa.ge. destruct (col e) as [t|]; cbn.
  - destruct (Z.geb_spec t T); cbn; split; try discriminate.
    + intros _. exists t. split; [reflexivity | lia].
    + reflexivity.
    + intros (t' & [= <-] & Hle). lia.
  - split; [discriminate | intros (t & [=] & _)].
Qed.

Lemma one_bound_selects {E : Type} (col : column E datetime) (T : datetime)
    (e : E) :
  (is_true (sa.and_ [sa.le col T] e) = true <->
   exists t, col e = Some t /\ (t <= T)%Z) /\
  (is_true (sa.and_ [sa.ge col T] e) = true <->
   exists t, col e = Some t /\ (T <= t)%Z).
Proof.
  rewrite !single_clause. split; [apply le_selects | apply ge_selects].
Qed.

(** X6. A range leaf with a single bound set selects exactly the
    entities whose column holds a time at or before [before_], or at or
    after [after_]; an entity whose column is NULL is not selected. *)
Theorem X6_single_bound_is_inclusive :
  one_bound_contract
    (fun before_ after_ => FlowRunFilterStartTime.Build_t before_ after_ None)
    orm.FlowRun.start_time /\
  one_bound_contract FlowRunFilterExpectedStartTime.Build_t
    orm.FlowRun.expected_start_time /\
  one_bound_contract FlowRunFilterNextScheduledStartTime.Build_t
    orm.FlowRun.next_scheduled_start_time /\
  one_bound_contract
    (fun before_ after_ => TaskRunFilterStartTime.Build_t before_ after_ None)
    orm.TaskRun.start_time.
Proof.
  repeat apply conj; intros T e.
  - exact (one_bound_selects orm.FlowRun.start_time T e).
  - exact (one_bound_selects orm.FlowRun.expected_start_time T e).
  - exact (one_bound_selects orm.FlowRun.next_scheduled_start_time T e).
  - exact (one_bound_selects orm.TaskRun.start_time T e).
Qed.

Lemma crossed_bounds_select_nothing {E : Type} (col : column E datetime)
    (T1 T2 : datetime) (e : E) :
  (T1 < T2)%Z -> is_true (sa.and_ [sa.le col T1; sa.ge col T2] e) = false.
Proof.
  intros Hlt.
  destruct (is_true (sa.and_ [sa.le col T1; sa.ge col T2] e)) eqn:Hsel;
    [|reflexivity].
  apply range_clauses_spec in Hsel as (t & _ & Hrange). lia.
Qed.

(** X7. A range leaf whose [before_] lies strictly before its [after_]
    selects no entity. *)
Theorem X7_crossed_bounds_select_nothing :
  crossed_bounds_contract
    (fun before_ after_ => FlowRunFilterStartTime.Build_t before_ after_ None) /\
  crossed_bounds_contract FlowRunFilterExpectedStartTime.Build_t /\
  crossed_bounds_contract FlowRunFilterNextScheduledStartTime.Build_t /\
  crossed_bounds_contract
    (fun before_ after_ => TaskRunFilterStartTime.Build_t before_ after_ None).
Proof.
  repeat apply conj; intros T1 T2 Hlt e.
  - exact (crossed_bounds_select_nothing orm.FlowRun.start_time T1 T2 e Hlt).
  - exact (crossed_bounds_select_nothing orm.FlowRun.expected_start_time
             T1 T2 e Hlt).
  - exact (crossed_bounds_select_nothing
             orm.FlowRun.next_scheduled_start_time T1 T2 e Hlt).
  - exact (crossed_bounds_select_nothing orm.TaskRun.start_time T1 T2 e Hlt).
Qed.

(** X8. The sub-flow-run leaf selects, with [exists_ = true], exactly the
    task runs that are the parent of a sub-flow run and, with
    [exists_ = false], exactly those that are not: the two selections are
    complementary. *)
Theorem X8_subflow_runs_exists (e : orm.TaskRun.t) :
  (selects (as_sql_filter (TaskRunFilterSubFlowRuns.Build_t (Some true))) e
     = true <->
   orm.TaskRun.subflow_run e <> None) /\
  (selects (as_sql_filter (TaskRunFilterSubFlowRuns.Build_t (Some false))) e
     = true <->
   orm.TaskRun.subflow_run e = None) /\
  selects (as_sql_filter (TaskRunFilterSubFlowRuns.Build_t (Some false))) e =
  negb (selects (as_sql_filter (TaskRunFilterSubFlowRuns.Build_t (Some true))) e).
Proof.
  unfold selects, as_sql_filter. cbn. unfold sa.and_, sa.not_, sa.has_any,
    sa.has. cbn.
  destruct (orm.TaskRun.subflow_run e); cbn; repeat split; congruence.
Qed.

(** X9. The schedule-activity leaf selects exactly the deployments whose
    [is_schedule_active] flag is the value asked for. *)
Theorem X9_is_schedule_active_eq (eq_ : bool) (d : orm.Deployment.t) :
  selects (as_sql_filter (DeploymentFilterIsScheduleActive.Build_t (Some eq_)))
    d =
  Bool.eqb (orm.Deployment.is_schedule_active d) eq_.
Proof.
  unfold selects, as_sql_filter. cbn. unfold sa.and_, sa.is_, not_null. cbn.
  now destruct (Bool.eqb (orm.Deployment.is_schedule_active d) eq_).
Qed.

(** X10. A state filter with both its type and its name leaf set selects
    exactly the runs whose state type is one of the listed types and
    whose related state bears one of the listed names; it holds for flow
    runs and for task runs. *)
Theorem X10_state_filter_type_and_name (types : list StateType)
    (names : list string) :
  (forall e,
     selects
       (as_sql_filter
          (FlowRunFilterState.Build_t
             (Some (FlowRunFilterStateType.Build_t (Some types)))
             (Some (FlowRunFilterStateName.Build_t (Some names))))) e = true <->
     (exists t, orm.FlowRun.state_type e = Some t /\ In t types) /\
     (exists n, FlowRun_state_name e = Some n /\ In n names)) /\
  (forall e,
     selects
       (as_sql_filter
          (TaskRunFilterState.Build_t
             (Some (TaskRunFilterStateType.Build_t (Some types)))
             (Some (TaskRunFilterStateName.Build_t (Some names))))) e = true <->
     (exists t, orm.TaskRun.state_type e = Some t /\ In t types) /\
     (exists n, TaskRun_state_name e = Some n /\ In n names)).
Proof.
  split; intros e; unfold selects; rewrite as_sql_filter_and_;
    cbn [_get_filter_list FlowRunFilterState_model TaskRunFilterState_model].
  - change (FlowRunFilterState._get_filter_list _)
      with ([sa.in_ String.eqb orm.FlowRun.state_type types] ++
            [sa.has orm.FlowRun.state
               (sa.in_ String.eqb (not_null orm.FlowRunState.name) names)]).
    rewrite and__app, is_true_sql_and, andb_true_iff, !single_clause.
    rewrite (in__selects String.eqb _ _ _ String.eqb_eq).
    unfold FlowRun_state_name. now rewrite has_in__selects.
  - change (TaskRunFilterState._get_filter_list _)
      with ([sa.in_ String.eqb orm.TaskRun.state_type types] ++
            [sa.has orm.TaskRun.state
               (sa.in_ String.eqb (not_null orm.TaskRunState.name) names)]).
    rewrite and__app, is_true_sql_and, andb_true_iff, !single_clause.
    rewrite (in__selects String.eqb _ _ _ String.eqb_eq).
    unfold TaskRun_state_name. now rewrite has_in__selects.
Qed.

(** The theorem at the bounds 20 and 10, the wrong way round. *)
Lemma X7_crossed_bounds_select_nothing_witness :
  (10 < 20)%Z /\
  selects_none
    (as_sql_filter
       (FlowRunFilterExpectedStartTime.Build_t (Some 10%Z) (Some 20%Z))).
Proof.
  split; [lia|].
  apply (proj1 (proj2 X7_crossed_bounds_select_nothing) 10%Z 20%Z). lia.
Defined.

(* ===================================================================== *)
(** * Further properties of the scheduler *)
(* ===================================================================== *)

Section TraceShape.

Context {Run : Type}.

Local Abbreviation event := (Scheduler.event Run).

Lemma flushed_from_app (pending : bool) (a b : list event) :
  flushed_from pending a = true ->
  flushed_from pending (a ++ b) = flushed_from false b.
Proof.
  revert pending. induction a as [|ev a IH]; intros pending; cbn.
  - now destruct pending.
  - destruct pending, ev as [| | ? [|]| |]; try discriminate; apply IH.
Qed.

Lemma generate_ok_is_generate (self : Scheduler.t) (now : datetime)
    (page : list orm.Deployment.t) (ev : event) :
  generate_ok self now page ev -> is_generate ev = true.
Proof. now destruct ev. Qed.

Lemma is_generate_flushed (gens : list event) :
  Forall (fun ev => is_generate ev = true) gens ->
  flushed_from false gens = true.
Proof.
  induction 1 as [|ev gens Hev _ IH]; cbn; [reflexivity|].
  now destruct ev.
Qed.

Lemma is_generate_inserted (gens : list event) :
  Forall (fun ev => is_generate ev = true) gens -> inserted gens = [].
Proof.
  induction 1 as [|ev gens Hev _ IH]; [reflexivity|].
  unfold inserted in *. cbn. rewrite IH. now destruct ev.
Qed.

Lemma is_generate_in_page (gens : list event) :
  Forall (fun ev => is_generate ev = true) gens ->
  Forall (fun ev => in_page ev = true) gens.
Proof.
  intros H. eapply Forall_impl; [|exact H]. now intros [].
Qed.

Lemma insert_or_flush_in_page (inss : list event) :
  Forall (fun ev => insert_or_flush ev = true) inss ->
  Forall (fun ev => in_page ev = true) inss.
Proof.
  intros H. eapply Forall_impl; [|exact H]. now intros [].
Qed.

Lemma raising_removelast_cons (ev : event) (tr : list event) :
  raises ev = false ->
  raising (removelast tr) = false ->
  raising (removelast (ev :: tr)) = false.
Proof.
  intros Hev Htr. destruct tr as [|ev' tr]; [reflexivity|].
  change (removelast (ev :: ev' :: tr)) with (ev :: removelast (ev' :: tr)).
  unfold raising in *. cbn [existsb]. now rewrite Hev, Htr.
Qed.

Lemma raising_removelast_app (a b : list event) :
  raising (removelast a) = false ->
  raising (removelast b) = false ->
  (b <> [] -> raising a = false) ->
  raising (removelast (a ++ b)) = false.
Proof.
  intros Ha Hb Hab. destruct b as [|ev b].
  - now rewrite app_nil_r.
  - rewrite removelast_app by discriminate.
    rewrite raising_app, Hb, Hab; [reflexivity | discriminate].
Qed.

End TraceShape.

Section Conducting.

Context {Run : Type}.

Variable truthy : UUID -> bool.
Variable _generate_scheduled_flow_runs :
  Scheduler.Database Run -> UUID -> datetime -> datetime -> Z ->
  result (list Run).
Variable _insert_scheduled_flow_runs :
  list Run -> list Run -> result (list Run * list Run).
Variable scheduler_insert_batch_size : nat.
Variable self : Scheduler.t.
Variable now : datetime.

Local Abbreviation event := (Scheduler.event Run).
Local Abbreviation World := (Scheduler.World Run).
Local Abbreviation collect_runs :=
  (Scheduler.collect_runs Run _generate_scheduled_flow_runs self now).
Local Abbreviation insert_batches :=
  (Scheduler.insert_batches Run _insert_scheduled_flow_runs).
Local Abbreviation while_true fuel :=
  (Scheduler.while_true Run truthy _generate_scheduled_flow_runs
     _insert_scheduled_flow_runs scheduler_insert_batch_size fuel self now).
Local Abbreviation invoke :=
  (Scheduler.invoke Run truthy _generate_scheduled_flow_runs
     _insert_scheduled_flow_runs scheduler_insert_batch_size self).
Local Abbreviation P := (Scheduler.deployment_batch_size self).
Local Abbreviation table_of w :=
  (Scheduler.deployments (Scheduler.session w)).

(** The calls to the generator on a page: each for a deployment of the
    page, with the window of the service; none after one that raised. *)
Lemma collect_runs_conduct (page : list orm.Deployment.t)
    (all_runs : list Run) (w w' : World) (o : Scheduler.outcome (list Run)) :
  collect_runs page all_runs w = (o, w') ->
  exists gens,
    w' = advance w (Scheduler.flow_runs (Scheduler.session w)) gens /\
    Forall (generate_ok self now page) gens /\
    raising (removelast gens) = false /\
    match o with
    | Scheduler.Returned _ => raising gens = false
    | Scheduler.Raised _ => raising gens = true
    | Scheduler.Running => False
    end.
Proof.
  revert all_runs w. induction page as [|d page IH]; intros all_runs w Hrun.
  - injection Hrun as <- <-. exists [].
    rewrite advance_nothing. repeat split; auto.
  - cbn [Scheduler.collect_runs] in Hrun. unfold Scheduler.bind at 1 in Hrun.
    rewrite generate_run in Hrun.
    destruct (_generate_scheduled_flow_runs _ _ _ _ _) as [runs|e] eqn:Hgen.
    + apply IH in Hrun as (gens & Hw & Hok & Hlast & Hout).
      rewrite advance_advance in Hw.
      eexists (_ :: gens). split; [exact Hw|]. repeat split.
      * constructor; [cbn; auto|].
        eapply Forall_impl; [|exact Hok]. intros [] Hev; cbn in *; tauto.
      * now apply raising_removelast_cons.
      * destruct o; auto.
    + injection Hrun as <- <-. eexists [_]. split; [reflexivity|].
      repeat split; auto. constructor; [cbn; auto | constructor].
Qed.

(** The inserts of a page: each success followed by a flush, the count
    raised by the runs reported; none after one that raised. *)
Lemma insert_batches_conduct (batches : list (list Run)) (total : nat)
    (w w' : World) (o : Scheduler.outcome nat) :
  insert_batches batches total w = (o, w') ->
  exists inss table,
    w' = advance w table inss /\
    Forall (fun ev => insert_or_flush ev = true) inss /\
    flushed_from false inss = true /\
    raising (removelast inss) = false /\
    match o with
    | Scheduler.Returned n =>
        raising inss = false /\ n = total + length (inserted inss)
    | Scheduler.Raised _ => raising inss = true
    | Scheduler.Running => False
    end.
Proof.
  revert total w. induction batches as [|batch batches IH];
    intros total w Hrun.
  - injection Hrun as <- <-.
    exists [], (Scheduler.flow_runs (Scheduler.session w)).
    rewrite advance_nothing. repeat split; auto.
  - cbn [Scheduler.insert_batches] in Hrun.
    unfold Scheduler.bind at 1 in Hrun. rewrite insert_run in Hrun.
    destruct (_insert_scheduled_flow_runs _ batch) as [[runs table]|e]
      eqn:Hins.
    + unfold Scheduler.bind at 1 in Hrun.
      rewrite flush_run, advance_advance in Hrun.
      cbn [advance Scheduler.session Scheduler.flow_runs app] in Hrun.
      fold (advance w table
              [Scheduler.Insert batch (Ok runs); Scheduler.Flush]) in Hrun.
      apply IH in Hrun as (inss & table' & Hw & Hkind & Hflush & Hlast & Hout).
      rewrite advance_advance in Hw.
      exists (Scheduler.Insert batch (Ok runs) :: Scheduler.Flush :: inss),
        table'.
      split; [exact Hw|]. repeat split; auto.
      * do 2 (apply raising_removelast_cons; [reflexivity|]). exact Hlast.
      * destruct o as [n| |]; auto. destruct Hout as (Hr & ->).
        split; [exact Hr|]. unfold inserted. cbn. rewrite length_app. lia.
    + injection Hrun as <- <-.
      exists [Scheduler.Insert batch (Raise e)],
        (Scheduler.flow_runs (Scheduler.session w)).
      repeat split; auto.
Qed.

Lemma unique_from_sub (seen : list UUID) (l : list orm.Deployment.t) :
  length (unique_from seen l) <= length l /\
  forall d, In d (unique_from seen l) -> In d l.
Proof.
  revert seen. induction l as [|x l IH]; intros seen; cbn.
  - split; [lia | auto].
  - destruct (existsb (Z.eqb (orm.Deployment.id x)) seen); cbn.
    + destruct (IH seen) as (Hlen & Hin). split; [lia | auto].
    + destruct (IH (orm.Deployment.id x :: seen)) as (Hlen & Hin).
      split; [lia|]. intros d [->|Hd]; auto.
Qed.

(** A page holds at most [deployment_batch_size] rows, each a deployment
    of the table with an active schedule, wherever the cursor is. *)
Lemma page_rows_ok (c : option UUID) (table : list orm.Deployment.t) :
  let page := unique (sa.rows (Scheduler.page_query truthy self c) table) in
  length page <= P /\ Forall (eligible_in table) page.
Proof.
  intros page. subst page. unfold unique.
  destruct (unique_from_sub [] (sa.rows (Scheduler.page_query truthy self c)
                                  table)) as (Hlen & Hin).
  assert (Hrows : forall q : sa.Select orm.Deployment.t,
    sa.limit_clause q = Some P ->
    (forall d, selects (sa.and_ (sa.whereclause q)) d = true ->
               eligible d = true) ->
    length (sa.rows q table) <= P /\
    forall d, In d (sa.rows q table) -> eligible_in table d).
  { intros q Hlimit Hwhere. unfold sa.rows. rewrite Hlimit. split.
    - apply firstn_le_length.
    - intros d Hd.
      assert (Hd' : In d
        (match sa.order_by_clause q with
         | Some key => sort_by key
                         (filter (selects (sa.and_ (sa.whereclause q))) table)
         | None => filter (selects (sa.and_ (sa.whereclause q))) table
         end)).
      { rewrite <- (firstn_skipn P). apply in_or_app. now left. }
      assert (Hd'' : In d
        (filter (selects (sa.and_ (sa.whereclause q))) table)).
      { destruct (sa.order_by_clause q) as [key|]; [|exact Hd'].
        eapply Permutation_in; [|exact Hd'].
        apply Permutation_sym, sort_by_permutation. }
      apply filter_In in Hd'' as (Htable & Hsel).
      split; [exact Htable | now apply Hwhere]. }
  destruct (Hrows (Scheduler.page_query truthy self c)) as (Hlen' & Hin').
  - unfold Scheduler.page_query.
    destruct c as [id|]; [destruct (truthy id)|]; reflexivity.
  - intros d. unfold Scheduler.page_query.
    destruct c as [id|]; [destruct (truthy id)|]; cbn [sa.whereclause
      sa.where_ sa.limit sa.order_by sa.select app].
    + rewrite where_eligible_beyond. now intros [H _]%andb_prop.
    + now rewrite where_eligible.
    + now rewrite where_eligible.
  - split; [lia|]. apply Forall_forall. auto.
Qed.

(** One turn of the loop, in full: the statement, the calls to the
    generator, the inserts, and what the loop does next. *)
Lemma while_true_turn (fuel : nat) (c : option UUID) (total : nat)
    (w w' : World) (o : Scheduler.outcome nat) :
  while_true (S fuel) c total w = (o, w') ->
  let page :=
    unique (sa.rows (Scheduler.page_query truthy self c) (table_of w)) in
  exists gens inss table,
    let w1 := advance w table (Scheduler.Execute c page :: gens ++ inss) in
    let total' := total + length (inserted inss) in
    Forall (generate_ok self now page) gens /\
    Forall (fun ev => insert_or_flush ev = true) inss /\
    flushed_from false inss = true /\
    raising (removelast (gens ++ inss)) = false /\
    (raising gens = true -> inss = []) /\
    ((raising (gens ++ inss) = true /\
      (exists e, o = Scheduler.Raised e) /\ w' = w1) \/
     (raising (gens ++ inss) = false /\
      ((length page < P /\ o = Scheduler.Returned total' /\ w' = w1) \/
       (P <= length page /\ last_item page = None /\
        o = Scheduler.Raised IndexError /\ w' = w1) \/
       (P <= length page /\
        exists d, last_item page = Some d /\
          while_true fuel (Some (orm.Deployment.id d)) total' w1 = (o, w'))))).
Proof.
  intros Hrun page. rewrite while_true_unfold in Hrun. cbv zeta in Hrun.
  fold page in Hrun.
  destruct (collect_runs page [] _) as [o1 w1] eqn:Hcollect.
  apply collect_runs_conduct in Hcollect as (gens & -> & Hgens & Hglast & Hg).
  rewrite advance_advance in Hrun. cbn [app] in Hrun.
  cbn [advance Scheduler.session Scheduler.flow_runs] in Hrun.
  fold (advance w (Scheduler.flow_runs (Scheduler.session w))
          (Scheduler.Execute c page :: gens)) in Hrun.
  destruct o1 as [all_runs|e|]; [|injection Hrun as <- <-|contradiction].
  - destruct (insert_batches _ total _) as [o2 w2] eqn:Hinsert.
    apply insert_batches_conduct in Hinsert
      as (inss & table & -> & Hinss & Hflush & Hilast & Hi).
    rewrite advance_advance in Hrun. cbn [app] in Hrun.
    exists gens, inss, table. cbv zeta.
    rewrite raising_app, Hg. cbn [orb].
    split; [exact Hgens|]. split; [exact Hinss|]. split; [exact Hflush|].
    split; [apply raising_removelast_app; auto|].
    split; [discriminate|].
    destruct o2 as [n|e|]; [|injection Hrun as <- <-|contradiction].
    + destruct Hi as (Hr & ->). right. split; [exact Hr|].
      destruct (Nat.ltb_spec (length page) P) as [Hshort|Hfull].
      * left. injection Hrun as <- <-. auto.
      * right. destruct (last_item page) as [d|] eqn:Hlast.
        -- right. split; [assumption|]. now exists d.
        -- left. injection Hrun as <- <-. auto.
    + left. repeat split; eauto.
  - exists gens, [], (Scheduler.flow_runs (Scheduler.session w)). cbv zeta.
    rewrite !app_nil_r. repeat split; auto. left. repeat split; eauto.
Qed.

Lemma turn_events (table : list orm.Deployment.t) (c : option UUID)
    (page : list orm.Deployment.t) (gens inss : list event) :
  length page <= P /\ Forall (eligible_in table) page ->
  Forall (generate_ok self now page) gens ->
  Forall (fun ev => insert_or_flush ev = true) inss ->
  flushed_from false inss = true ->
  (raising gens = true -> inss = []) ->
  Forall (call_ok self now table) (Scheduler.Execute c page :: gens ++ inss) /\
  (forall rest,
     flushed_from false ((Scheduler.Execute c page :: gens ++ inss) ++ rest) =
     flushed_from false rest) /\
  reported (Scheduler.Execute c page :: gens ++ inss) = [] /\
  inserted (Scheduler.Execute c page :: gens ++ inss) = inserted inss /\
  Forall (fun ev => in_page ev = true) (gens ++ inss) /\
  phased (Scheduler.Execute c page :: gens ++ inss).
Proof.
  intros Hpage Hgens Hinss Hflush Hnone.
  assert (Hgen : Forall (fun ev => is_generate ev = true) gens).
  { eapply Forall_impl; [|exact Hgens].
    intros ev. apply generate_ok_is_generate. }
  assert (Hbody : Forall (fun ev => in_page ev = true) (gens ++ inss)).
  { apply Forall_app. split;
      [now apply is_generate_in_page | now apply insert_or_flush_in_page]. }
  repeat split.
  - constructor; [exact Hpage|]. apply Forall_app. split.
    + eapply Forall_impl; [|exact Hgens].
      intros [| id s e m r | | |]; cbn; try contradiction.
      intros (Hid & Hwindow). split; [|exact Hwindow].
      apply in_map_iff in Hid as (d & Hd & Hin). exists d.
      split; [|exact Hd]. destruct Hpage as (_ & Hall).
      rewrite Forall_forall in Hall. now apply Hall.
    + eapply Forall_impl; [|exact Hinss]. now intros [].
  - intros rest. cbn [app flushed_from]. rewrite <- app_assoc.
    rewrite flushed_from_app by now apply is_generate_flushed.
    now rewrite flushed_from_app.
  - unfold reported. cbn. now apply in_page_reported.
  - unfold inserted. cbn. rewrite flat_map_app.
    fold (inserted gens). now rewrite is_generate_inserted.
  - exact Hbody.
  - now exists c, page, gens, inss.
Qed.

(** The conduct of the loop, turn after turn. *)
Lemma while_true_conduct (fuel : nat) (c : option UUID) (total : nat)
    (w w' : World) (o : Scheduler.outcome nat) :
  while_true fuel c total w = (o, w') ->
  exists evs table,
    w' = advance w table evs /\
    until_next_page evs = [] /\
    reported evs = [] /\
    Forall (call_ok self now (table_of w)) evs /\
    flushed_from false evs = true /\
    raising (removelast evs) = false /\
    (raising evs = true -> exists e, o = Scheduler.Raised e) /\
    Forall phased (page_segments evs) /\
    (forall n, o = Scheduler.Returned n -> n = total + length (inserted evs)).
Proof.
  revert c total w. induction fuel as [|fuel IH]; intros c total w Hrun.
  - injection Hrun as <- <-.
    exists [], (Scheduler.flow_runs (Scheduler.session w)).
    rewrite advance_nothing. repeat split; auto; discriminate.
  - apply while_true_turn in Hrun as (gens & inss & table & Hrun).
    cbv zeta in Hrun.
    destruct Hrun as (Hgens & Hinss & Hflush & Hlast & Hnone & Hrun).
    set (page := unique _) in *.
    destruct (turn_events (table_of w) c page gens inss
                (page_rows_ok c (table_of w)) Hgens Hinss Hflush Hnone)
      as (Hcalls & Hflushed & Hrep & Hins & Hbody & Hphased).
    assert (Hraising :
      raising (Scheduler.Execute c page :: gens ++ inss) =
      raising (gens ++ inss)) by reflexivity.
    assert (Hend : forall o0 : Scheduler.outcome nat,
      (raising (gens ++ inss) = true -> exists e, o0 = Scheduler.Raised e) ->
      (forall n, o0 = Scheduler.Returned n ->
                 n = total + length (inserted inss)) ->
      exists evs table0,
        advance w table (Scheduler.Execute c page :: gens ++ inss) =
          advance w table0 evs /\
        until_next_page evs = [] /\
        reported evs = [] /\
        Forall (call_ok self now (table_of w)) evs /\
        flushed_from false evs = true /\
        raising (removelast evs) = false /\
        (raising evs = true -> exists e, o0 = Scheduler.Raised e) /\
        Forall phased (page_segments evs) /\
        (forall n, o0 = Scheduler.Returned n ->
                   n = total + length (inserted evs))).
    { intros o0 Hraise Hcount.
      exists (Scheduler.Execute c page :: gens ++ inss), table.
      split; [reflexivity|]. repeat split; auto.
      - rewrite <- (app_nil_r (_ :: _)), Hflushed. reflexivity.
      - apply raising_removelast_cons; [reflexivity | exact Hlast].
      - rewrite <- (app_nil_r (gens ++ inss)), page_segment_head by auto.
        now repeat constructor.
      - rewrite Hins. auto. }
    destruct Hrun as [(Hr & (e & ->) & ->)|(Hr & Hrun)].
    + apply Hend; [eauto | discriminate].
    + destruct Hrun as [(_ & -> & ->)|[(_ & _ & -> & ->)|(_ & d & _ & Hrun)]].
      * apply Hend; [congruence | now intros n [= <-]].
      * apply Hend; [eauto | discriminate].
      * apply IH in Hrun
          as (evs & table' & -> & Hnext & Hrep' & Hcalls' & Hflush' &
              Hlast' & Hraise' & Hphased' & Hcount').
        rewrite advance_advance.
        exists ((Scheduler.Execute c page :: gens ++ inss) ++ evs), table'.
        split; [reflexivity|]. repeat split.
        -- now rewrite reported_app, Hrep, Hrep'.
        -- apply Forall_app. split; [exact Hcalls | exact Hcalls'].
        -- now rewrite Hflushed.
        -- apply raising_removelast_app;
             [ apply raising_removelast_cons; [reflexivity | exact Hlast]
             | exact Hlast'
             | intros _; now rewrite Hraising ].
        -- rewrite raising_app, Hraising, Hr. exact Hraise'.
        -- cbn [app]. rewrite <- app_assoc, app_assoc.
           rewrite page_segment_head by auto.
           constructor; [exact Hphased | exact Hphased'].
        -- intros n Hn. rewrite inserted_app, Hins, length_app.
           rewrite (Hcount' n Hn). lia.
Qed.

(** The conduct of a whole invocation. *)
Lemma invoke_conduct (fuel : nat) (db : Scheduler.Database Run) :
  let r := invoke fuel now db in
  let tr := Scheduler.trace (snd r) in
  Forall (call_ok self now (Scheduler.deployments db)) tr /\
  flushed_from false tr = true /\
  raising (removelast tr) = false /\
  (raising tr = true -> reported tr = []) /\
  Forall phased (page_segments tr) /\
  (fst r = Scheduler.Returned tt -> reported tr = [length (inserted tr)]).
Proof.
  cbv zeta. rewrite invoke_unfold.
  destruct (while_true fuel None 0 (initial db)) as [o w'] eqn:Hrun.
  apply while_true_conduct in Hrun
    as (evs & table & -> & _ & Hrep & Hcalls & Hflush & Hlast & Hraise &
        Hphased & Hcount).
  cbn [initial Scheduler.session Scheduler.deployments] in Hcalls.
  destruct o as [n|e|]; cbn [fst snd Scheduler.trace advance initial app].
  - assert (Hquiet : raising evs = false).
    { destruct (raising evs); [|reflexivity].
      now destruct (Hraise eq_refl) as (e & [=]). }
    rewrite removelast_last, page_segments_log, raising_app, reported_app,
      inserted_app, Hquiet, Hrep, flushed_from_app by exact Hflush.
    repeat split; auto.
    + apply Forall_app. split; [exact Hcalls|]. now repeat constructor.
    + discriminate.
    + intros _. rewrite (Hcount n eq_refl). cbn. now rewrite app_nil_r.
  - repeat split; auto; discriminate.
  - repeat split; auto; discriminate.
Qed.

Lemma call_ok_pages (table : list orm.Deployment.t) (tr : list event) :
  Forall (call_ok self now table) tr ->
  Forall (fun page => length page <= P /\ Forall (eligible_in table) page)
    (pages tr).
Proof.
  induction 1 as [|ev tr Hev _ IH]; [constructor|].
  unfold pages, queries in *. cbn [flat_map].
  destruct ev; cbn [app map]; auto.
Qed.

Lemma call_ok_visited (table : list orm.Deployment.t) (tr : list event) :
  Forall (call_ok self now table) tr ->
  forall id, In id (visited tr) ->
    exists d, eligible_in table d /\ orm.Deployment.id d = id.
Proof.
  induction 1 as [|ev tr Hev _ IH]; intros id Hin; [contradiction|].
  unfold visited in *. cbn [flat_map] in Hin.
  destruct ev; cbn [app] in Hin; auto.
  destruct Hin as [<-|Hin]; [|auto]. now destruct Hev.
Qed.

Lemma call_ok_window (table : list orm.Deployment.t) (tr : list event) :
  Forall (call_ok self now table) tr -> Forall (window_ok self now) tr.
Proof.
  intros H. eapply Forall_impl; [|exact H].
  intros [| id s e m r | | |] Hev; cbn in *; tauto.
Qed.

(** X11. Whatever happens in an invocation, every page it reads holds at
    most [deployment_batch_size] rows, each a deployment of the table
    that has [is_schedule_active] set and a schedule; and the generator
    is called only for such a deployment. *)
Theorem X11_only_active_schedules_are_visited (fuel : nat)
    (db : Scheduler.Database Run) :
  let tr := Scheduler.trace (snd (invoke fuel now db)) in
  Forall
    (fun page =>
       length page <= P /\
       Forall (eligible_in (Scheduler.deployments db)) page)
    (pages tr) /\
  forall id, In id (visited tr) ->
    exists d, eligible_in (Scheduler.deployments db) d /\
              orm.Deployment.id d = id.
Proof.
  cbv zeta. destruct (invoke_conduct fuel db) as (Hcalls & _).
  split; [now apply call_ok_pages | now apply call_ok_visited].
Qed.

(** X12. Every call to the generator in an invocation asks for the
    window from the instant captured on entry to that instant plus
    [max_scheduled_time], and for at most [max_runs] runs. *)
Theorem X12_generator_window_is_fixed (fuel : nat)
    (db : Scheduler.Database Run) :
  Forall (window_ok self now) (Scheduler.trace (snd (invoke fuel now db))).
Proof.
  destruct (invoke_conduct fuel db) as (Hcalls & _).
  now apply call_ok_window in Hcalls.
Qed.

(** X13. An invocation that returns logs one total: the number of runs
    that the calls to the insert reported as inserted, over all pages. *)
Theorem X13_logged_total_counts_inserted_runs (fuel : nat)
    (db : Scheduler.Database Run) :
  fst (invoke fuel now db) = Scheduler.Returned tt ->
  reported (Scheduler.trace (snd (invoke fuel now db))) =
  [length (inserted (Scheduler.trace (snd (invoke fuel now db))))].
Proof.
  destruct (invoke_conduct fuel db) as (_ & _ & _ & _ & _ & Hcount).
  exact Hcount.
Qed.

(** X14. In an invocation every call to the insert that succeeds is
    followed at once by a flush of the session. *)
Theorem X14_flush_follows_every_insert (fuel : nat)
    (db : Scheduler.Database Run) :
  flushed_from false (Scheduler.trace (snd (invoke fuel now db))) = true.
Proof.
  destruct (invoke_conduct fuel db) as (_ & Hflush & _).
  exact Hflush.
Qed.

(** X15. A call to a collaborator that raises is the last thing an
    invocation does: no call raised before the last event of the trace,
    and when one raised no total is logged. *)
Theorem X15_nothing_follows_a_raising_call (fuel : nat)
    (db : Scheduler.Database Run) :
  let tr := Scheduler.trace (snd (invoke fuel now db)) in
  raising (removelast tr) = false /\
  (raising tr = true -> reported tr = []).
Proof.
  cbv zeta. destruct (invoke_conduct fuel db) as (_ & _ & Hlast & Hlog & _).
  split; assumption.
Qed.

(** X16. Every page of an invocation runs in two phases: all the calls to
    the generator come before the first call to the insert, and when the
    generator raises nothing of that page is offered to the insert. *)
Theorem X16_pages_generate_then_insert (fuel : nat)
    (db : Scheduler.Database Run) :
  Forall phased
    (page_segments (Scheduler.trace (snd (invoke fuel now db)))).
Proof.
  destruct (invoke_conduct fuel db) as (_ & _ & _ & _ & Hphased & _).
  exact Hphased.
Qed.

(** X17. With a page size of zero the first page is empty and is not
    short of the page size, so the loop reads the last row of an empty
    page: the invocation raises [IndexError] after its first statement,
    without a call to a collaborator, and commits nothing. *)
Theorem X17_page_size_zero_raises_IndexError (fuel : nat)
    (db : Scheduler.Database Run) :
  Scheduler.deployment_batch_size self = 0 ->
  invoke (S fuel) now db =
  (Scheduler.Raised IndexError,
   {| Scheduler.committed := db;
      Scheduler.session := db;
      Scheduler.trace := [Scheduler.Execute None []] |}).
Proof.
  intros Hzero. rewrite invoke_unfold, while_true_unfold. cbv zeta.
  assert (Hpage :
    unique (sa.rows (Scheduler.page_query truthy self None)
              (table_of (initial db))) = []).
  { unfold sa.rows. cbn [Scheduler.page_query sa.limit sa.limit_clause].
    now rewrite Hzero. }
  rewrite Hpage, Hzero. reflexivity.
Qed.

(** X18. On a table where no deployment has an active schedule, an
    invocation with a positive page size executes one statement, calls
    neither the generator nor the insert, logs a total of zero and
    commits the database as it found it. *)
Theorem X18_nothing_to_schedule (fuel : nat) (db : Scheduler.Database Run) :
  filter eligible (Scheduler.deployments db) = [] ->
  0 < Scheduler.deployment_batch_size self ->
  invoke (S fuel) now db =
  (Scheduler.Returned tt,
   {| Scheduler.committed := db;
      Scheduler.session := db;
      Scheduler.trace := [Scheduler.Execute None []; Scheduler.LogInfo 0] |}).
Proof.
  intros Hnone Hpos. rewrite invoke_unfold, while_true_unfold. cbv zeta.
  assert (Hpage :
    unique (sa.rows (Scheduler.page_query truthy self None)
              (table_of (initial db))) = []).
  { unfold sa.rows. cbn. rewrite (filter_ext _ _ where_eligible), Hnone.
    cbn. now rewrite firstn_nil. }
  rewrite Hpage. cbn [Scheduler.collect_runs Scheduler.ret batched_iterable
    batched_from length Scheduler.insert_batches].
  apply Nat.ltb_lt in Hpos. cbn [length]. rewrite Hpos.
  destruct db as [ds runs]. reflexivity.
Qed.

End Conducting.

(** The theorem on the example. *)
Lemma X13_logged_total_counts_inserted_runs_witness :
  reported
    (Scheduler.trace
       (snd (Scheduler.invoke ExampleRun uuid_truthy hourly upsert 4
               example_scheduler 10 1000%Z example_db))) =
  [length
     (inserted
        (Scheduler.trace
           (snd (Scheduler.invoke ExampleRun uuid_truthy hourly upsert 4
                   example_scheduler 10 1000%Z example_db))))].
Proof.
  apply (X13_logged_total_counts_inserted_runs uuid_truthy hourly upsert 4
           example_scheduler 1000%Z 10 example_db).
  reflexivity.
Defined.

(** The theorem on the example, with pages of zero rows. *)
Lemma X17_page_size_zero_raises_IndexError_witness :
  fst (Scheduler.invoke ExampleRun uuid_truthy hourly upsert 4 pages_of_zero
         10 1000%Z example_db) = Scheduler.Raised IndexError.
Proof.
  rewrite (X17_page_size_zero_raises_IndexError uuid_truthy hourly upsert 4
             pages_of_zero 1000%Z 9 example_db); reflexivity.
Defined.

(** The theorem on a table of one paused deployment and one without a
    schedule. *)
Lemma X18_nothing_to_schedule_witness :
  Scheduler.committed
    (snd (Scheduler.invoke ExampleRun uuid_truthy hourly upsert 4
            example_scheduler 10 1000%Z nothing_scheduled)) =
  nothing_scheduled.
Proof.
  rewrite (X18_nothing_to_schedule uuid_truthy hourly upsert 4
             example_scheduler 1000%Z 9 nothing_scheduled).
  - reflexivity.
  - reflexivity.
  - cbn. lia.
Defined.

(* ===================================================================== *)
(** * The chunks offered to the insert *)
(* ===================================================================== *)

Lemma batched_from_prefix {A : Type} (fuel size : nat) (l : list A) :
  exists rest, l = concat (batched_from fuel size l) ++ rest.
Proof.
  revert l. induction fuel as [|fuel IH]; intros l; cbn [batched_from].
  - now exists l.
  - destruct (firstn size l) as [|x batch] eqn:Hfirst; [now exists l|].
    destruct (IH (skipn size l)) as (rest & Hrest). exists rest.
    cbn [concat]. rewrite <- app_assoc, <- Hrest, <- Hfirst.
    symmetry. apply firstn_skipn.
Qed.

Lemma concat_firstn_prefix {A : Type} (k : nat) (batches : list (list A)) :
  concat batches = concat (firstn k batches) ++ concat (skipn k batches).
Proof. now rewrite <- concat_app, firstn_skipn. Qed.

Section Offers.

Context {Run : Type}.

Variable truthy : UUID -> bool.
Variable _generate_scheduled_flow_runs :
  Scheduler.Database Run -> UUID -> datetime -> datetime -> Z ->
  result (list Run).
Variable _insert_scheduled_flow_runs :
  list Run -> list Run -> result (list Run * list Run).
Variable scheduler_insert_batch_size : nat.
Variable self : Scheduler.t.
Variable now : datetime.

Local Abbreviation event := (Scheduler.event Run).
Local Abbreviation World := (Scheduler.World Run).
Local Abbreviation collect_runs :=
  (Scheduler.collect_runs Run _generate_scheduled_flow_runs self now).
Local Abbreviation insert_batches :=
  (Scheduler.insert_batches Run _insert_scheduled_flow_runs).
Local Abbreviation while_true fuel :=
  (Scheduler.while_true Run truthy _generate_scheduled_flow_runs
     _insert_scheduled_flow_runs scheduler_insert_batch_size fuel self now).
Local Abbreviation invoke :=
  (Scheduler.invoke Run truthy _generate_scheduled_flow_runs
     _insert_scheduled_flow_runs scheduler_insert_batch_size self).
Local Abbreviation P := (Scheduler.deployment_batch_size self).

(** The body of a page whose generator calls are [gens] and whose
    inserts [inss] took the first [k] chunks of the candidates. *)
Lemma page_chunks_body (c : option UUID) (page : list orm.Deployment.t)
    (gens inss : list event) (k : nat) :
  offered gens = [] ->
  candidates inss = [] ->
  offered inss =
    firstn k (batched_iterable (candidates gens) scheduler_insert_batch_size) ->
  (raising gens = false -> raising inss = false ->
   offered inss =
     batched_iterable (candidates gens) scheduler_insert_batch_size) ->
  page_chunks scheduler_insert_batch_size
    (Scheduler.Execute c page :: gens ++ inss).
Proof.
  intros Hoff Hcand Hk Hall.
  assert (Hoffered :
    offered (Scheduler.Execute c page :: gens ++ inss) = offered inss).
  { unfold offered at 1. cbn [flat_map app]. rewrite flat_map_app.
    fold (offered gens) (offered inss). now rewrite Hoff. }
  assert (Hcandidates :
    candidates (Scheduler.Execute c page :: gens ++ inss) = candidates gens).
  { unfold candidates at 1. cbn [flat_map app]. rewrite flat_map_app.
    fold (candidates gens) (candidates inss).
    now rewrite Hcand, app_nil_r. }
  unfold page_chunks. rewrite Hoffered, Hcandidates. repeat split.
  - rewrite Hk. apply Forall_prefix, batched_iterable_bound.
  - rewrite Hk.
    destruct (batched_from_prefix (length (candidates gens))
                scheduler_insert_batch_size (candidates gens))
      as (rest & Hrest).
    fold (batched_iterable (candidates gens) scheduler_insert_batch_size)
      in Hrest.
    rewrite (concat_firstn_prefix k) in Hrest.
    rewrite <- app_assoc in Hrest. eexists. exact Hrest.
  - intros Hsize Hquiet.
    assert (Hboth : raising gens = false /\ raising inss = false).
    { unfold raising in *. cbn [existsb raises] in Hquiet.
      rewrite existsb_app in Hquiet. cbn [orb] in Hquiet.
      now apply orb_false_elim in Hquiet. }
    destruct Hboth as (Hgen & Hins).
    rewrite (Hall Hgen Hins). now apply batched_iterable_concat.
Qed.

(** The pages of the loop, one after the other. *)
Lemma while_true_offers (fuel : nat) (c : option UUID) (total : nat)
    (w w' : World) (o : Scheduler.outcome nat) :
  while_true fuel c total w = (o, w') ->
  exists evs table,
    w' = advance w table evs /\
    until_next_page evs = [] /\
    Forall (page_chunks scheduler_insert_batch_size) (page_segments evs).
Proof.
  revert c total w. induction fuel as [|fuel IH]; intros c total w Hrun.
  - injection Hrun as <- <-.
    exists [], (Scheduler.flow_runs (Scheduler.session w)).
    rewrite advance_nothing. repeat split; constructor.
  - rewrite while_true_unfold in Hrun. cbv zeta in Hrun.
    set (page := unique _) in Hrun.
    destruct (collect_runs page [] _) as [o1 w1] eqn:Hcollect.
    apply collect_runs_run in Hcollect
      as (gens & -> & Hgens & Hgoff & _ & Hg).
    rewrite advance_advance in Hrun. cbn [app] in Hrun.
    cbn [advance Scheduler.session Scheduler.flow_runs] in Hrun.
    fold (advance w (Scheduler.flow_runs (Scheduler.session w))
            (Scheduler.Execute c page :: gens)) in Hrun.
    assert (Hone : forall (inss : list event) (table : list Run) (k : nat),
      Forall (fun ev => in_page ev = true) inss ->
      candidates inss = [] ->
      offered inss =
        firstn k (batched_iterable (candidates gens)
                    scheduler_insert_batch_size) ->
      (raising gens = false -> raising inss = false ->
       offered inss =
         batched_iterable (candidates gens) scheduler_insert_batch_size) ->
      exists evs table0,
        advance w table (Scheduler.Execute c page :: gens ++ inss) =
          advance w table0 evs /\
        until_next_page evs = [] /\
        Forall (page_chunks scheduler_insert_batch_size)
          (page_segments evs)).
    { intros inss table k Hinss Hcand Hk Hall.
      exists (Scheduler.Execute c page :: gens ++ inss), table.
      repeat split.
      rewrite <- (app_nil_r (gens ++ inss)), page_segment_head;
        [|now apply Forall_app|reflexivity].
      constructor; [|constructor].
      now apply (page_chunks_body c page gens inss k). }
    destruct o1 as [all_runs|e|]; [|injection Hrun as <- <-|contradiction].
    + destruct Hg as (_ & _ & Hall). cbn [app] in Hall. subst all_runs.
      destruct (insert_batches _ total _) as [o2 w2] eqn:Hinsert.
      apply insert_batches_run in Hinsert
        as (inss & table & -> & Hinss & _ & Hcand & (k & Hk) & Hi).
      rewrite advance_advance in Hrun. cbn [app] in Hrun.
      assert (Hquiet : raising gens = false -> raising inss = false ->
        offered inss =
          batched_iterable (candidates gens) scheduler_insert_batch_size).
      { intros _ Hr.
        destruct o2 as [n|e|]; [now destruct Hi | | contradiction].
        congruence. }
      destruct o2 as [n|e|]; [|injection Hrun as <- <-|contradiction].
      * destruct (length page <? P).
        -- injection Hrun as <- <-. now apply (Hone inss table k).
        -- destruct (last_item page) as [d|].
           ++ apply IH in Hrun as (evs & table' & -> & Hnext & Hok).
              rewrite advance_advance.
              exists ((Scheduler.Execute c page :: gens ++ inss) ++ evs),
                table'.
              repeat split. cbn [app]. rewrite <- app_assoc, app_assoc.
              rewrite page_segment_head;
                [|now apply Forall_app|exact Hnext].
              constructor; [|exact Hok].
              now apply (page_chunks_body c page gens inss k).
           ++ injection Hrun as <- <-. now apply (Hone inss table k).
      * now apply (Hone inss table k).
    + rewrite <- (app_nil_r gens).
      apply (Hone [] (Scheduler.flow_runs (Scheduler.session w)) 0);
        [constructor | reflexivity | reflexivity | congruence].
Qed.

(** C9 (amended). On every page of an invocation, whatever the size of a
    chunk and whatever the collaborators do, each chunk passed to the
    insert holds at most [scheduler_insert_batch_size] runs, and the
    chunks put end to end are, in order, an initial part of the
    candidates the generator returned on that page: no candidate is
    offered twice or out of order.  When the size is positive and no
    call raises on the page, they are all of the page's candidates, so
    that each is offered exactly once. *)
Theorem C9_page_candidates_offered_in_chunks (fuel : nat)
    (db : Scheduler.Database Run) :
  Forall (page_chunks scheduler_insert_batch_size)
    (page_segments (Scheduler.trace (snd (invoke fuel now db)))).
Proof.
  rewrite invoke_unfold.
  destruct (while_true fuel None 0 (initial db)) as [o w'] eqn:Hrun.
  apply while_true_offers in Hrun as (evs & table & -> & _ & Hok).
  destruct o as [n|e|]; cbn [fst snd Scheduler.trace advance initial app];
    rewrite ?page_segments_log; exact Hok.
Qed.

End Offers.

(** C9 fails as stated on two inputs.  With chunks of size zero the only
    page of the first invocation gets two candidates and offers no chunk,
    though no call raises.  On the second input, with chunks of four
    runs, the generator raises on the deployment 5: the candidates of
    the deployment 4, of the same page, are offered in no chunk. *)
Lemma C9_candidates_not_offered_counterexample :
  (let tr :=
     Scheduler.trace
       (snd (Scheduler.invoke ExampleRun uuid_truthy hourly upsert 0
               example_scheduler 10 1000%Z one_deployment)) in
   raising tr = false /\
   map (fun segment => (concat (offered segment), candidates segment))
     (page_segments tr) =
   [([], [(1, 4600); (1, 8200)]%Z)]) /\
  (let tr :=
     Scheduler.trace
       (snd (Scheduler.invoke ExampleRun uuid_truthy hourly_but_5 upsert 4
               example_scheduler 10 1000%Z example_db)) in
   nth 1
     (map (fun segment => (concat (offered segment), candidates segment))
        (page_segments tr)) ([], []) =
   ([], [(4, 4600); (4, 8200)]%Z)).
Proof. repeat split. Qed.

(** The theorem on the example, with chunks of four runs: every page is
    in order, and on the example no call raises. *)
Lemma C9_page_candidates_offered_in_chunks_witness :
  Forall (page_chunks 4)
    (page_segments
       (Scheduler.trace
          (snd (Scheduler.invoke ExampleRun uuid_truthy hourly upsert 4
                  example_scheduler 10 1000%Z example_db)))) /\
  0 < 4 /\
  raising
    (Scheduler.trace
       (snd (Scheduler.invoke ExampleRun uuid_truthy hourly upsert 4
               example_scheduler 10 1000%Z example_db))) = false.
Proof.
  split; [|split; [lia | reflexivity]].
  apply (C9_page_candidates_offered_in_chunks uuid_truthy hourly upsert 4
           example_scheduler 1000%Z 10 example_db).
Defined.
